(** * PD-ECS: a shallow embedding of [ecs.c] / [ecs.h] and its properties

    The registry of [ecs.c] is embedded as a record of lists and machine
    integers.  Machine integers are [Z] with the wrap-around of their C type
    written out; fixed-size arrays are lists accessed through bounds-checked
    [load] / [store]; a call either returns, stops in [ASSERT] / [abort()],
    or runs into behaviour C leaves undefined. *)

From Stdlib Require Import ZArith Lia String.
From Stdlib Require Import Sorted.
From stdpp Require Import base list strings.

Local Open Scope Z_scope.

(** ** Machine integers *)

Definition u8  (x : Z) : Z := x mod 2 ^ 8.
Definition u16 (x : Z) : Z := x mod 2 ^ 16.

(** ** Configuration ([ecs.h]; the values are the header's [#ifndef] defaults) *)

Definition ECS_MAX_ENTITIES : Z := 128.
Definition ECS_MAX_COMPS    : Z := 8.
Definition ECS_MAX_SYSTEMS  : Z := 32.

Definition ECS_COMPMASK_BYTES : Z := 1 + (ECS_MAX_COMPS - 1) / 8.

(** [ComponentMask] is [uint8_t], [uint16_t] or [uint32_t] depending on
    [ECS_COMPMASK_BYTES]. *)
Definition ComponentMask_bits : Z :=
  if ECS_COMPMASK_BYTES =? 1 then 8
  else if ECS_COMPMASK_BYTES =? 2 then 16
  else 32.

Definition cmask (x : Z) : Z := x mod 2 ^ ComponentMask_bits.

(** [typedef uint32_t Entity;] *)
Definition Entity : Type := Z.

(** ** Outcomes of a call *)

Inductive outcome (A : Type) : Type :=
| Done (a : A)   (* the call returns [a] *)
| Abort          (* an [ASSERT] failed, or [abort()] was called *)
| Undefined      (* out-of-bounds access or use of an uninitialised pointer *)
| OutOfFuel.     (* only produced by the client interpreter [run] below *)

Arguments Done {A} a.
Arguments Abort {A}.
Arguments Undefined {A}.
Arguments OutOfFuel {A}.

#[global] Instance outcome_ret : MRet outcome := fun A a => Done a.
#[global] Instance outcome_bind : MBind outcome := fun A B k m =>
  match m with
  | Done a => k a
  | Abort => Abort
  | Undefined => Undefined
  | OutOfFuel => OutOfFuel
  end.

(** [ASSERT(expr)] with assertions enabled (no [NDEBUG]). *)
Definition ASSERT (expr : bool) : outcome unit :=
  if expr then Done tt else Abort.

(** Bounds-checked array read and write. *)
Definition load {A : Type} (l : list A) (i : Z) : outcome A :=
  if i <? 0 then Undefined
  else match l !! Z.to_nat i with
       | Some x => Done x
       | None => Undefined
       end.

Definition store {A : Type} (l : list A) (i : Z) (x : A) : outcome (list A) :=
  if (0 <=? i) && (i <? Z.of_nat (length l))
  then Done (<[Z.to_nat i := x]> l)
  else Undefined.

(** [memmove] inside one array, counted in whole elements: [n] elements
    starting at [src] are copied to [dst]; overlap is handled as [memmove]
    does, by reading the source before anything is written. *)
Definition memmove {A : Type} (l : list A) (dst src n : Z) : outcome (list A) :=
  if (0 <=? dst) && (0 <=? src) && (0 <=? n)
     && (dst + n <=? Z.of_nat (length l)) && (src + n <=? Z.of_nat (length l))
  then Done (take (Z.to_nat dst) l
             ++ take (Z.to_nat n) (drop (Z.to_nat src) l)
             ++ drop (Z.to_nat (dst + n)) l)
  else Undefined.

(** ** Data model *)

(** [enum EntityFlags] *)
Definition kEntityUnused : Z := Z.shiftl 1 0.

Record EntityData : Type := mkEntityData {
  info : Z;          (* uint32_t *)
  components : Z     (* ComponentMask *)
}.

(** [ComponentData]: [size], [id\[64\]] and the flexible array [data]. *)
Record ComponentData : Type := mkComponentData {
  cd_size : Z;
  cd_id : string;
  cd_data : list Z
}.

(** [System]: [func] is a function pointer and [userData] a user pointer; both
    are kept as addresses, [0] being [NULL]. *)
Record System : Type := mkSystem {
  sys_id : Z;        (* ECSID = uint8_t *)
  sys_mask : Z;      (* ComponentMask *)
  sys_func : Z;
  sys_userData : Z
}.

(** [DECLARE_POOL(EntityData, Entity, ECS_MAX_ENTITIES)] *)
Record EntityPool : Type := mkEntityPool {
  freeCount : Z;          (* uint16_t *)
  freeList : list Z;      (* uint16_t [ECS_MAX_ENTITIES] *)
  data : list EntityData  (* EntityData [ECS_MAX_ENTITIES] *)
}.

(** [struct ECS].  An entry of [compData] is a pointer to a block obtained
    from [malloc]; [None] is a pointer that was never assigned. *)
Record ECS : Type := mkECS {
  entities : EntityPool;
  compDataCount : Z;                      (* uint8_t *)
  compData : list (option ComponentData); (* ComponentData * [ECS_MAX_COMPS] *)
  nextSystemID : Z;                       (* uint8_t *)
  systemCount : Z;                        (* uint8_t *)
  systems : list System                   (* System [ECS_MAX_SYSTEMS] *)
}.

(** A pointer into a component buffer: the block is the one [compData\[block\]]
    points to, the offset is counted in bytes from the start of its [data]. *)
Record pointer : Type := mkPointer {
  ptr_block : Z;
  ptr_offset : Z
}.

(** Field updates. *)
Definition set_freeCount (fc : Z) (p : EntityPool) : EntityPool :=
  mkEntityPool fc (freeList p) (data p).
Definition set_freeList (fl : list Z) (p : EntityPool) : EntityPool :=
  mkEntityPool (freeCount p) fl (data p).
Definition set_data (d : list EntityData) (p : EntityPool) : EntityPool :=
  mkEntityPool (freeCount p) (freeList p) d.
Definition set_entities (p : EntityPool) (ecs : ECS) : ECS :=
  mkECS p (compDataCount ecs) (compData ecs)
        (nextSystemID ecs) (systemCount ecs) (systems ecs).
Definition set_components (m : Z) (d : EntityData) : EntityData :=
  mkEntityData (info d) m.

(** ** Entity pool *)

Fixpoint initFreeList (n : nat) (i : Z) : list Z :=
  match n with
  | O => []
  | S n' => u16 (ECS_MAX_ENTITIES - (i + 1)) :: initFreeList n' (i + 1)
  end.

Definition initEntityPool : EntityPool :=
  {| freeCount := ECS_MAX_ENTITIES;
     data := replicate (Z.to_nat ECS_MAX_ENTITIES) (mkEntityData 0 0);
     freeList := initFreeList (Z.to_nat ECS_MAX_ENTITIES) 0 |}.

Definition newEntityFromPool (pool : EntityPool) : outcome (Z * EntityPool) :=
  _ ← ASSERT (negb (freeCount pool =? 0));
  let fc := u16 (freeCount pool - 1) in
  id ← load (freeList pool) fc;
  Done (id, set_freeCount fc pool).

Definition returnEntityToPool (pool : EntityPool) (id : Z) : outcome EntityPool :=
  _ ← ASSERT (freeCount pool <? ECS_MAX_ENTITIES);
  fl ← store (freeList pool) (freeCount pool) id;
  Done (set_freeCount (u16 (freeCount pool + 1)) (set_freeList fl pool)).

(** ** Handle utilities *)

Definition generation (d : EntityData) : Z := u8 (Z.land (info d) 0xffff).

Definition flags (d : EntityData) : Z :=
  u16 (Z.land (Z.shiftr (info d) 16) 0xffff).

(** The parameters are [uint16_t index] and [uint8_t generation]. *)
Definition createHandle (index gen : Z) : Entity :=
  Z.lor (Z.shiftl (u8 gen) 16) (u16 index).

(** The parameter is [uint8_t generation]. *)
Definition createEntityData (gen : Z) : EntityData :=
  {| info := u8 gen; components := 0 |}.

Definition entityIndex (handle : Entity) : Z := Z.land handle 0xffff.

Definition entityGen (handle : Entity) : Z :=
  Z.land (Z.shiftr handle 16) 0xffff.

(** ** Registry construction *)

(** [malloc] leaves [compData] and [systems] unset.  An unset entry of
    [compData] is [None], and going through it is [Undefined]; the entries
    of [systems] at or above [systemCount] are written before they are
    read, so the value they start with does not matter. *)
Definition newECS : ECS :=
  {| entities := initEntityPool;
     compDataCount := 0;
     compData := replicate (Z.to_nat ECS_MAX_COMPS) None;
     nextSystemID := 0;
     systemCount := 0;
     systems := replicate (Z.to_nat ECS_MAX_SYSTEMS) (mkSystem 0 0 0 0) |}.

(** ** Entity handling *)

Definition newEntity (ecs : ECS) : outcome (Entity * ECS) :=
  if freeCount (entities ecs) =? 0 then Abort
  else
    '(id, pool) ← newEntityFromPool (entities ecs);
    d ← load (data pool) id;
    let gen := generation d in
    dat ← store (data pool) id (createEntityData gen);
    Done (createHandle id gen, set_entities (set_data dat pool) ecs).

Definition newEntityWithArchetype (archetype : Z) (ecs : ECS)
  : outcome (Entity * ECS) :=
  '(e, ecs) ← newEntity ecs;
  let pool := entities ecs in
  d ← load (data pool) (entityIndex e);
  dat ← store (data pool) (entityIndex e) (set_components (cmask archetype) d);
  Done (e, set_entities (set_data dat pool) ecs).

(** [isEntityValid] takes a [const ECS *]: it is a function of the state. *)
Definition isEntityValid (ecs : ECS) (entity : Entity) : outcome bool :=
  let gen := entityGen entity in
  d ← load (data (entities ecs)) (entityIndex entity);
  Done (generation d =? gen).

Definition destroyEntity (entity : Entity) (ecs : ECS) : outcome (unit * ECS) :=
  valid ← isEntityValid ecs entity;
  if negb valid then Done (tt, ecs)
  else
    let id := entityIndex entity in
    let gen := entityGen entity in
    dat ← store (data (entities ecs)) id (createEntityData (gen + 1));
    pool ← returnEntityToPool (set_data dat (entities ecs)) id;
    Done (tt, set_entities pool ecs).

(** ** Component handling *)

(** The loop of [ecsComponentID]: [fuel] iterations are left, [i] is the
    loop counter. *)
Fixpoint ecsComponentID_from (fuel : nat) (i : Z) (ecs : ECS) (id : string)
  : outcome Z :=
  match fuel with
  | O => Done ECS_MAX_COMPS
  | S fuel' =>
      p ← load (compData ecs) i;
      match p with
      | None => Undefined
      | Some cd =>
          if String.eqb (cd_id cd) id then Done i
          else ecsComponentID_from fuel' (u8 (i + 1)) ecs id
      end
  end.

Definition ecsComponentID (ecs : ECS) (id : string) : outcome Z :=
  ecsComponentID_from (Z.to_nat (compDataCount ecs)) 0 ecs id.

(** [size_t] and [sizeof(ComponentData)] are those of an LP64 target: 64
    bits, and 8 bytes of [size] followed by [id\[64\]]. *)
Definition size_t (x : Z) : Z := x mod 2 ^ 64.

Definition sizeof_ComponentData : Z := 72.

(** [malloc] is taken to succeed.  Its argument
    [sizeof(ComponentData) + ECS_MAX_ENTITIES * size] is computed in
    [size_t] and wraps; so does the length given to [memset].  When the sum
    wraps, the block is shorter than the header and the bytes [memset]
    writes after it, which is undefined.  [strcpy] into [id\[64\]] needs
    room for the terminating byte. *)
Definition ecsDeclareComponent (compID : string) (size : Z) (ecs : ECS)
  : outcome (Z * ECS) :=
  let size := size_t size in
  id ← ecsComponentID ecs compID;
  if negb (id =? ECS_MAX_COMPS) then Done (id, ecs)
  else
    _ ← ASSERT (compDataCount ecs <? ECS_MAX_COMPS);
    let bytes := size_t (ECS_MAX_ENTITIES * size) in
    let block := size_t (sizeof_ComponentData + bytes) in
    if block <? sizeof_ComponentData + bytes then Undefined
    else if 64 <=? Z.of_nat (String.length compID) then Undefined
    else
      let data :=
        {| cd_size := size;
           cd_id := compID;
           cd_data := replicate (Z.to_nat bytes) 0 |} in
      cds ← store (compData ecs) (compDataCount ecs) (Some data);
      Done (compDataCount ecs,
            mkECS (entities ecs) (u8 (compDataCount ecs + 1)) cds
                  (nextSystemID ecs) (systemCount ecs) (systems ecs)).

(** [ecs->compData\[compID\]->data + compID * ecs->compData\[compID\]->size],
    the product taken in [size_t]. *)
Definition componentAddress (ecs : ECS) (compID : Z) : outcome pointer :=
  p ← load (compData ecs) compID;
  match p with
  | None => Undefined
  | Some cd => Done (mkPointer compID (size_t (compID * cd_size cd)))
  end.

Definition addComponentID (entity : Entity) (compID : Z) (ecs : ECS)
  : outcome (pointer * ECS) :=
  let compID := u8 compID in
  _ ← ASSERT (compID <? ECS_MAX_COMPS);
  valid ← isEntityValid ecs entity;
  _ ← ASSERT valid;
  let id := entityIndex entity in
  d ← load (data (entities ecs)) id;
  dat ← store (data (entities ecs)) id
          (set_components (cmask (Z.lor (components d) (Z.shiftl 1 compID))) d);
  let ecs := set_entities (set_data dat (entities ecs)) ecs in
  p ← componentAddress ecs compID;
  Done (p, ecs).

(** The result is [None] for [NULL]. *)
Definition getComponentID (entity : Entity) (compID : Z) (ecs : ECS)
  : outcome (option pointer * ECS) :=
  let compID := u8 compID in
  _ ← ASSERT (compID <? ECS_MAX_COMPS);
  valid ← isEntityValid ecs entity;
  _ ← ASSERT valid;
  let id := entityIndex entity in
  d ← load (data (entities ecs)) id;
  if Z.land (components d) (Z.shiftl 1 compID) =? 0 then Done (None, ecs)
  else
    p ← componentAddress ecs compID;
    Done (Some p, ecs).

Definition removeComponentID (entity : Entity) (compID : Z) (ecs : ECS)
  : outcome (unit * ECS) :=
  let compID := u8 compID in
  _ ← ASSERT (compID <? ECS_MAX_COMPS);
  valid ← isEntityValid ecs entity;
  _ ← ASSERT valid;
  let id := entityIndex entity in
  d ← load (data (entities ecs)) id;
  dat ← store (data (entities ecs)) id
          (set_components
             (cmask (Z.land (components d) (Z.lnot (Z.shiftl 1 compID)))) d);
  Done (tt, set_entities (set_data dat (entities ecs)) ecs).

(** ** Systems and matchers *)

Definition newSystem (mask : Z) (it : Z) (data : Z) (ecs : ECS)
  : outcome (Z * ECS) :=
  _ ← ASSERT (systemCount ecs <? ECS_MAX_SYSTEMS);
  _ ← ASSERT (negb (it =? 0));
  syss ← store (systems ecs) (systemCount ecs)
           {| sys_id := nextSystemID ecs;
              sys_mask := cmask mask;
              sys_func := it;
              sys_userData := data |};
  Done (0,
        mkECS (entities ecs) (compDataCount ecs) (compData ecs)
              (u8 (nextSystemID ecs + 1)) (u8 (systemCount ecs + 1)) syss).

(** The loop of [findSystem]; the result is the index of the entry the
    returned pointer designates, [None] for [NULL]. *)
Fixpoint findSystem_from (fuel : nat) (i : Z) (ecs : ECS) (id : Z)
  : outcome (option Z) :=
  match fuel with
  | O => Done None
  | S fuel' =>
      s ← load (systems ecs) i;
      if id =? sys_id s then Done (Some i)
      else findSystem_from fuel' (u8 (i + 1)) ecs id
  end.

Definition findSystem (ecs : ECS) (id : Z) : outcome (option Z) :=
  findSystem_from (Z.to_nat (systemCount ecs)) 0 ecs id.

Definition destroySystem (id : Z) (ecs : ECS) : outcome (unit * ECS) :=
  let id := u8 id in
  _ ← ASSERT (systemCount ecs >? 0);
  sys ← findSystem ecs id;
  match sys with
  | None => Done (tt, ecs)
  | Some sys =>
      let begin := sys + 1 in
      let end_ := systemCount ecs in
      syss ← memmove (systems ecs) begin sys (end_ - begin);
      Done (tt,
            mkECS (entities ecs) (compDataCount ecs) (compData ecs)
                  (nextSystemID ecs) (u8 (systemCount ecs - 1)) syss)
  end.

Section Callbacks.

(** [U] is the state of the host program: everything a callback can
    reach through its user pointer and its globals. *)
Context {U : Type}.

(** The function type [ECSIterator]: a callback receives the registry, the
    handle and the user pointer, and may change the registry and the host
    state. *)
Definition ECSIterator : Type := ECS → Entity → Z → U → outcome (ECS * U).

(** The loop of [matchEntities]: [fuel] iterations are left, [id] is the
    loop counter.  Each iteration reads the slot from the current state. *)
Fixpoint matchEntities_from (fuel : nat) (id : Z) (mask : Z)
    (it : ECSIterator) (userData : Z) (ecs : ECS) (u : U)
  : outcome (ECS * U) :=
  match fuel with
  | O => Done (ecs, u)
  | S fuel' =>
      d ← load (data (entities ecs)) id;
      if negb (Z.land (flags d) kEntityUnused =? 0)
      then matchEntities_from fuel' (u16 (id + 1)) mask it userData ecs u
      else if negb (Z.land (components d) mask =? mask)
      then matchEntities_from fuel' (u16 (id + 1)) mask it userData ecs u
      else
        '(ecs, u) ← it ecs (createHandle id (generation d)) userData u;
        matchEntities_from fuel' (u16 (id + 1)) mask it userData ecs u
  end.

Definition matchEntities (mask : Z) (it : ECSIterator) (userData : Z)
    (ecs : ECS) (u : U) : outcome (ECS * U) :=
  matchEntities_from (Z.to_nat ECS_MAX_ENTITIES) 0 (cmask mask) it userData
                     ecs u.

(** The loop of [ecsTick].  The counter is a [uint8_t] compared with the
    current [systemCount], so the body runs at most 255 times; [code]
    resolves a stored function pointer to the function it designates. *)
Fixpoint ecsTick_from (fuel : nat) (i : Z) (code : Z → ECSIterator)
    (ecs : ECS) (u : U) : outcome (ECS * U) :=
  match fuel with
  | O => Done (ecs, u)
  | S fuel' =>
      if i <? systemCount ecs then
        s ← load (systems ecs) i;
        '(ecs, u) ← matchEntities (sys_mask s) (code (sys_func s))
                      (sys_userData s) ecs u;
        ecsTick_from fuel' (u8 (i + 1)) code ecs u
      else Done (ecs, u)
  end.

Definition ecsTick (code : Z → ECSIterator) (ecs : ECS) (u : U)
  : outcome (ECS * U) :=
  ecsTick_from 256 0 code ecs u.

End Callbacks.

Arguments ECSIterator : clear implicits.

(** ** Host programs

    [struct ECS] is opaque to the host ([ecs.h] only declares it), so a host
    program reaches the registry through the functions above and through the
    pointers [addComponentID] / [getComponentID] hand out.  A host program is
    a tree of such calls; [code] gives the body of the host function behind
    a function pointer. *)

(** A byte written or read through a pointer into a component buffer. *)
Definition writeByte (p : pointer) (byte : Z) (ecs : ECS) : outcome ECS :=
  b ← load (compData ecs) (ptr_block p);
  match b with
  | None => Undefined
  | Some cd =>
      bytes ← store (cd_data cd) (ptr_offset p) (u8 byte);
      cds ← store (compData ecs) (ptr_block p)
              (Some (mkComponentData (cd_size cd) (cd_id cd) bytes));
      Done (mkECS (entities ecs) (compDataCount ecs) cds
                  (nextSystemID ecs) (systemCount ecs) (systems ecs))
  end.

Definition readByte (p : pointer) (ecs : ECS) : outcome Z :=
  b ← load (compData ecs) (ptr_block p);
  match b with
  | None => Undefined
  | Some cd => load (cd_data cd) (ptr_offset p)
  end.

Section Host.

Context {U : Type}.

Inductive client : Type :=
| Return
| Host (f : U → U) (k : U → client)
| WriteByte (p : pointer) (byte : Z) (k : client)
| ReadByte (p : pointer) (k : Z → client)
| CallDeclareComponent (name : string) (size : Z) (k : Z → client)
| CallComponentID (name : string) (k : Z → client)
| CallNewEntity (k : Entity → client)
| CallNewEntityWithArchetype (archetype : Z) (k : Entity → client)
| CallIsEntityValid (e : Entity) (k : bool → client)
| CallDestroyEntity (e : Entity) (k : client)
| CallAddComponentID (e : Entity) (compID : Z) (k : pointer → client)
| CallGetComponentID (e : Entity) (compID : Z) (k : option pointer → client)
| CallRemoveComponentID (e : Entity) (compID : Z) (k : client)
| CallNewSystem (mask it userData : Z) (k : Z → client)
| CallDestroySystem (id : Z) (k : client)
| CallTick (k : client)
| CallMatchEntities (mask it userData : Z) (k : client).

Variable code : Z → Entity → Z → client.

Fixpoint run (fuel : nat) (c : client) (ecs : ECS) (u : U)
  : outcome (ECS * U) :=
  match fuel with
  | O => OutOfFuel
  | S fuel' =>
      let callback : Z → ECSIterator U :=
        fun f ecs e d u => run fuel' (code f e d) ecs u in
      match c with
      | Return => Done (ecs, u)
      | Host f k => run fuel' (k (f u)) ecs (f u)
      | WriteByte p byte k =>
          ecs ← writeByte p byte ecs; run fuel' k ecs u
      | ReadByte p k =>
          b ← readByte p ecs; run fuel' (k b) ecs u
      | CallDeclareComponent name size k =>
          '(id, ecs) ← ecsDeclareComponent name size ecs;
          run fuel' (k id) ecs u
      | CallComponentID name k =>
          id ← ecsComponentID ecs name; run fuel' (k id) ecs u
      | CallNewEntity k =>
          '(e, ecs) ← newEntity ecs; run fuel' (k e) ecs u
      | CallNewEntityWithArchetype archetype k =>
          '(e, ecs) ← newEntityWithArchetype archetype ecs;
          run fuel' (k e) ecs u
      | CallIsEntityValid e k =>
          b ← isEntityValid ecs e; run fuel' (k b) ecs u
      | CallDestroyEntity e k =>
          '(_, ecs) ← destroyEntity e ecs; run fuel' k ecs u
      | CallAddComponentID e compID k =>
          '(p, ecs) ← addComponentID e compID ecs; run fuel' (k p) ecs u
      | CallGetComponentID e compID k =>
          '(p, ecs) ← getComponentID e compID ecs; run fuel' (k p) ecs u
      | CallRemoveComponentID e compID k =>
          '(_, ecs) ← removeComponentID e compID ecs; run fuel' k ecs u
      | CallNewSystem mask it userData k =>
          '(id, ecs) ← newSystem mask it userData ecs;
          run fuel' (k id) ecs u
      | CallDestroySystem id k =>
          '(_, ecs) ← destroySystem id ecs; run fuel' k ecs u
      | CallTick k =>
          '(ecs, u) ← ecsTick callback ecs u; run fuel' k ecs u
      | CallMatchEntities mask it userData k =>
          '(ecs, u) ← matchEntities mask (callback it) userData ecs u;
          run fuel' k ecs u
      end
  end.

End Host.

Arguments client : clear implicits.

(** The registry states a host program can bring about, starting from
    [newECS ()]. *)
Definition reachable (ecs : ECS) : Prop :=
  ∃ (U : Type) (code : Z → Entity → Z → client U) (fuel : nat)
    (c : client U) (u0 u : U),
    run code fuel c newECS u0 = Done (ecs, u).

(** A callback that only records the handles it is called with. *)
Definition recordCall : ECSIterator (list Entity) :=
  fun ecs e _ calls => Done (ecs, calls ++ [e]).

(** The slots on the free stack of the pool. *)
Definition freeSlots (ecs : ECS) : list Z :=
  take (Z.to_nat (freeCount (entities ecs))) (freeList (entities ecs)).

(** ** Sequences of [newEntity] / [destroyEntity] *)

Inductive entityOp : Type :=
| OpNew
| OpDestroy (h : Entity).

Definition stepEntityOp (o : entityOp) (ecs : ECS) : outcome ECS :=
  match o with
  | OpNew => '(_, ecs) ← newEntity ecs; Done ecs
  | OpDestroy h => '(_, ecs) ← destroyEntity h ecs; Done ecs
  end.

Fixpoint runEntityOps (ops : list entityOp) (ecs : ECS) : outcome ECS :=
  match ops with
  | [] => Done ecs
  | o :: ops' => ecs ← stepEntityOp o ecs; runEntityOps ops' ecs
  end.

(** Whether the step destroys the entity in slot [i]: a [destroyEntity] of a
    handle of that slot which is valid when the call is made. *)
Definition destroysSlot (i : Z) (o : entityOp) (ecs : ECS) : bool :=
  match o with
  | OpNew => false
  | OpDestroy h =>
      (entityIndex h =? i)
      && match isEntityValid ecs h with Done b => b | _ => false end
  end.

(** How often slot [i] is destroyed while [ops] runs from [ecs]. *)
Fixpoint slotDestroys (i : Z) (ops : list entityOp) (ecs : ECS) : Z :=
  match ops with
  | [] => 0
  | o :: ops' =>
      match stepEntityOp o ecs with
      | Done ecs' =>
          (if destroysSlot i o ecs then 1 else 0) + slotDestroys i ops' ecs'
      | _ => 0
      end
  end.

(** ** Vocabulary of the properties *)

(** The array sizes [struct ECS] declares. *)
Definition sized (ecs : ECS) : Prop :=
  length (freeList (entities ecs)) = Z.to_nat ECS_MAX_ENTITIES ∧
  length (data (entities ecs)) = Z.to_nat ECS_MAX_ENTITIES ∧
  length (compData ecs) = Z.to_nat ECS_MAX_COMPS ∧
  length (systems ecs) = Z.to_nat ECS_MAX_SYSTEMS.

(** The registry after the first [newEntity] on a new registry: slot 0 is
    handed out with generation 0. *)
Definition firstEntityECS : ECS :=
  set_entities
    (mkEntityPool 127 (freeList initEntityPool)
       (<[0%nat := createEntityData 0]> (data initEntityPool)))
    newECS.

(** [n] rounds of destroying the entity in slot 0 and creating the next
    one, starting with the handle of generation 0. *)
Definition churn (n : nat) : list entityOp :=
  flat_map (λ k, [OpDestroy (createHandle 0 (Z.of_nat k)); OpNew]) (seq 0 n).

(** The registry in which the membership mask of slot [i] is [m]. *)
Definition withComponents (i : Z) (m : Z) (ecs : ECS) : ECS :=
  match data (entities ecs) !! Z.to_nat i with
  | Some d =>
      set_entities
        (set_data (<[Z.to_nat i := set_components m d]> (data (entities ecs)))
                  (entities ecs))
        ecs
  | None => ecs
  end.

(** The registry with the components [Position] and [Speed] (8 bytes each)
    declared and two entities created, and the two handles. *)
Definition twoEntities : outcome (Entity * Entity * ECS) :=
  '(_, ecs) ← ecsDeclareComponent "Position" 8 newECS;
  '(_, ecs) ← ecsDeclareComponent "Speed" 8 ecs;
  '(e0, ecs) ← newEntity ecs;
  '(e1, ecs) ← newEntity ecs;
  Done (e0, e1, ecs).

Definition twoEntitiesECS : ECS :=
  match twoEntities with Done (_, _, ecs) => ecs | _ => newECS end.

(** No declared component is called [name]. *)
Definition unregistered (ecs : ECS) (name : string) : Prop :=
  ∀ j, 0 ≤ j < compDataCount ecs →
       ∃ cd, compData ecs !! Z.to_nat j = Some (Some cd) ∧ cd_id cd ≠ name.

(** The lookup finds [name], under the ID [id]. *)
Definition registeredAs (name : string) (id : Z) (ecs : ECS) : Prop :=
  ecsComponentID ecs name = Done id ∧ id ≠ ECS_MAX_COMPS.

(** The IDs of the registered systems, in table order. *)
Definition systemIDs (ecs : ECS) : list Z :=
  map sys_id (take (Z.to_nat (systemCount ecs)) (systems ecs)).

(** The registry after three registrations on a new registry. *)
Definition threeSystems : outcome ECS :=
  '(_, ecs) ← newSystem 1 1 0 newECS;
  '(_, ecs) ← newSystem 2 1 0 ecs;
  '(_, ecs) ← newSystem 4 1 0 ecs;
  Done ecs.

(** The handles [matchEntities] passes to the callback for the slots [l],
    the first of which has index [i]: those whose unused flag is clear and
    whose mask contains [mask]. *)
Fixpoint matchingHandles (mask : Z) (i : Z) (l : list EntityData)
  : list Entity :=
  match l with
  | [] => []
  | d :: l' =>
      (if (Z.land (flags d) kEntityUnused =? 0)
          && (Z.land (components d) mask =? mask)
       then [createHandle i (generation d)] else [])
      ++ matchingHandles mask (i + 1) l'
  end.

(** The same without the test of the unused flag. *)
Fixpoint supersetHandles (mask : Z) (i : Z) (l : list EntityData)
  : list Entity :=
  match l with
  | [] => []
  | d :: l' =>
      (if Z.land (components d) mask =? mask
       then [createHandle i (generation d)] else [])
      ++ supersetHandles mask (i + 1) l'
  end.

(** A property of the registry that every function of the interface and
    every write through a component pointer preserves. *)
Record api_invariant (P : ECS → Prop) : Prop := {
  inv_writeByte : ∀ p b ecs ecs',
    P ecs → writeByte p b ecs = Done ecs' → P ecs';
  inv_ecsDeclareComponent : ∀ name size ecs id ecs',
    P ecs → ecsDeclareComponent name size ecs = Done (id, ecs') → P ecs';
  inv_newEntity : ∀ ecs e ecs',
    P ecs → newEntity ecs = Done (e, ecs') → P ecs';
  inv_newEntityWithArchetype : ∀ m ecs e ecs',
    P ecs → newEntityWithArchetype m ecs = Done (e, ecs') → P ecs';
  inv_destroyEntity : ∀ e ecs x ecs',
    P ecs → destroyEntity e ecs = Done (x, ecs') → P ecs';
  inv_addComponentID : ∀ e X ecs p ecs',
    P ecs → addComponentID e X ecs = Done (p, ecs') → P ecs';
  inv_getComponentID : ∀ e X ecs p ecs',
    P ecs → getComponentID e X ecs = Done (p, ecs') → P ecs';
  inv_removeComponentID : ∀ e X ecs x ecs',
    P ecs → removeComponentID e X ecs = Done (x, ecs') → P ecs';
  inv_newSystem : ∀ m f d ecs id ecs',
    P ecs → newSystem m f d ecs = Done (id, ecs') → P ecs';
  inv_destroySystem : ∀ id ecs x ecs',
    P ecs → destroySystem id ecs = Done (x, ecs') → P ecs'
}.

(** A callback that preserves [P]. *)
Definition preserves {U : Type} (P : ECS → Prop) (it : ECSIterator U) : Prop :=
  ∀ ecs e d u ecs' u', P ecs → it ecs e d u = Done (ecs', u') → P ecs'.

(** The slot array has its declared size and every [info] holds just a
    generation byte. *)
Definition slotsOK (ecs : ECS) : Prop :=
  length (data (entities ecs)) = Z.to_nat ECS_MAX_ENTITIES ∧
  Forall (λ d, 0 ≤ info d < 256) (data (entities ecs)).

(** A host program that declares a component, creates an entity, attaches
    the component, writes to it, registers a system, ticks once and
    destroys the entity; the system's callback removes the component. *)
Definition demoCode : Z → Entity → Z → client unit :=
  fun _ e _ => CallRemoveComponentID e 0 Return.

Definition demoClient : client unit :=
  CallDeclareComponent "Position" 8 (fun X =>
  CallNewEntity (fun e =>
  CallAddComponentID e X (fun p =>
  WriteByte p 7 (
  CallNewSystem 1 1 0 (fun _ =>
  CallTick (
  CallDestroyEntity e Return)))))).

Definition demoECS : ECS :=
  match run demoCode 16 demoClient newECS tt with
  | Done (ecs, _) => ecs
  | _ => newECS
  end.

(** ** Further vocabulary *)

(** A new registry on which [newEntity] has been called [k] times. *)
Definition afterCreations (k : Z) : ECS :=
  set_entities (set_freeCount (ECS_MAX_ENTITIES - k) initEntityPool) newECS.

(** Declaring the names of a list, each with one byte per entity. *)
Fixpoint declareAll (names : list string) (ecs : ECS) : outcome ECS :=
  match names with
  | [] => Done ecs
  | name :: names' =>
      '(_, ecs) ← ecsDeclareComponent name 1 ecs; declareAll names' ecs
  end.

(** A registry with [ECS_MAX_COMPS] components declared. *)
Definition fullRegistryECS : ECS :=
  match declareAll ["A"; "B"; "C"; "D"; "E"; "F"; "G"; "H"] newECS with
  | Done ecs => ecs
  | _ => newECS
  end.

(** Parts of the registry two states can have in common. *)
Definition sameComponents (ecs ecs' : ECS) : Prop :=
  compDataCount ecs' = compDataCount ecs ∧ compData ecs' = compData ecs.

Definition sameSystems (ecs ecs' : ECS) : Prop :=
  nextSystemID ecs' = nextSystemID ecs ∧
  systemCount ecs' = systemCount ecs ∧
  systems ecs' = systems ecs.

Definition sameFreeStack (ecs ecs' : ECS) : Prop :=
  freeCount (entities ecs') = freeCount (entities ecs) ∧
  freeList (entities ecs') = freeList (entities ecs).

(** The pool is in order: arrays of the declared size, a free count within
    the capacity, and only slot indices on the free list. *)
Definition poolOK (ecs : ECS) : Prop :=
  length (freeList (entities ecs)) = Z.to_nat ECS_MAX_ENTITIES ∧
  length (data (entities ecs)) = Z.to_nat ECS_MAX_ENTITIES ∧
  0 ≤ freeCount (entities ecs) ≤ ECS_MAX_ENTITIES ∧
  Forall (λ x, 0 ≤ x < ECS_MAX_ENTITIES) (freeList (entities ecs)).

(** The component table is in order: the IDs below the count, and only
    those, have a buffer; each size is a [size_t]; each buffer has
    [ECS_MAX_ENTITIES * size] bytes, the product taken in [size_t], and fits
    [size_t] together with its header; each name fits [id\[64\]]; no two
    components share a name. *)
Definition compTableOK (ecs : ECS) : Prop :=
  length (compData ecs) = Z.to_nat ECS_MAX_COMPS ∧
  0 ≤ compDataCount ecs ≤ ECS_MAX_COMPS ∧
  (∀ j, (j < Z.to_nat (compDataCount ecs))%nat →
     ∃ cd, compData ecs !! j = Some (Some cd) ∧
           (0 ≤ cd_size cd < 2 ^ 64 ∧
            length (cd_data cd)
            = Z.to_nat (size_t (ECS_MAX_ENTITIES * cd_size cd)) ∧
            sizeof_ComponentData + size_t (ECS_MAX_ENTITIES * cd_size cd)
            < 2 ^ 64) ∧
           Z.of_nat (String.length (cd_id cd)) < 64) ∧
  (∀ j, (Z.to_nat (compDataCount ecs) ≤ j < Z.to_nat ECS_MAX_COMPS)%nat →
     compData ecs !! j = Some None) ∧
  (∀ j k cdj cdk,
     (j < Z.to_nat (compDataCount ecs))%nat →
     (k < Z.to_nat (compDataCount ecs))%nat →
     compData ecs !! j = Some (Some cdj) →
     compData ecs !! k = Some (Some cdk) →
     cd_id cdj = cd_id cdk → j = k).

(** The system table is in order: the count is within the capacity, the
    next ID is a byte, and every registered system has a callback. *)
Definition systemsOK (ecs : ECS) : Prop :=
  length (systems ecs) = Z.to_nat ECS_MAX_SYSTEMS ∧
  0 ≤ systemCount ecs ≤ ECS_MAX_SYSTEMS ∧
  0 ≤ nextSystemID ecs < 256 ∧
  (∀ j s, (j < Z.to_nat (systemCount ecs))%nat →
          systems ecs !! j = Some s →
          sys_func s ≠ 0 ∧ 0 ≤ sys_id s < 256 ∧
          0 ≤ sys_mask s < 2 ^ ComponentMask_bits).


(** A callback run under a log: every call is recorded, with the registry
    as it is when the call is made and the handle that is passed. *)
Definition logged {U : Type} (it : ECSIterator U)
  : ECSIterator (U * list (ECS * Entity)) :=
  fun ecs e d st =>
    '(ecs', u') ← it ecs e d st.1;
    Done (ecs', (u', st.2 ++ [(ecs, e)])).

(** A callback that changes the registry: called for the entity of slot 0,
    it destroys the entity of slot 1, creates an entity and attaches
    component 1 to it. *)
Definition respawnNext : ECSIterator unit :=
  fun ecs e _ u =>
    if entityIndex e =? 0 then
      '(_, ecs) ← destroyEntity (createHandle 1 0) ecs;
      '(e', ecs) ← newEntity ecs;
      '(_, ecs) ← addComponentID e' 1 ecs;
      Done (ecs, u)
    else Done (ecs, u).

(** The registry of [twoEntities] with [Position] and [Speed] attached to
    the first entity, [Speed] to the second, and two systems: callback 7
    over [Position] with user pointer 10, callback 9 over [Speed] with user
    pointer 20. *)
Definition twoSystems : outcome ECS :=
  '(e0, e1, ecs) ← twoEntities;
  '(_, ecs) ← addComponentID e0 0 ecs;
  '(_, ecs) ← addComponentID e0 1 ecs;
  '(_, ecs) ← addComponentID e1 1 ecs;
  '(_, ecs) ← newSystem 1 7 10 ecs;
  '(_, ecs) ← newSystem 2 9 20 ecs;
  Done ecs.

Definition twoSystemsECS : ECS :=
  match twoSystems with Done ecs => ecs | _ => newECS end.


(** ** [componentMask]

    The variadic arguments are the list [args]; reading past its end is
    undefined.  [unsigned] and [int] are taken to be 32 bits wide, so a
    shift of the [int] constant 1 by 31 or more is undefined. *)

Definition u32 (x : Z) : Z := x mod 2 ^ 32.

Fixpoint componentMask_from (fuel : nat) (i : Z) (args : list Z) (mask : Z)
  : outcome Z :=
  match fuel with
  | O => Done mask
  | S fuel' =>
      id ← load args i;
      let n := cmask id in
      if 31 <=? n then Undefined
      else componentMask_from fuel' (u32 (i + 1)) args
             (cmask (Z.lor mask (Z.shiftl 1 n)))
  end.

Definition componentMask (count : Z) (args : list Z) : outcome Z :=
  componentMask_from (Z.to_nat (u32 count)) 0 args 0.

(** * Properties *)

(** ** Inversion of calls that return *)

Lemma bind_Done {A B : Type} (m : outcome A) (k : A → outcome B) (b : B) :
  m ≫= k = Done b ↔ ∃ a, m = Done a ∧ k a = Done b.
Proof.
  destruct m as [a| | |]; simpl; split.
  - eauto.
  - intros (a' & Ha & Hk). by simplify_eq.
  - discriminate.
  - intros (? & ? & ?); discriminate.
  - discriminate.
  - intros (? & ? & ?); discriminate.
  - discriminate.
  - intros (? & ? & ?); discriminate.
Qed.

Lemma ASSERT_Done (b : bool) (x : unit) : ASSERT b = Done x ↔ b = true.
Proof. destruct b, x; simpl; split; congruence. Qed.

Lemma load_Done {A : Type} (l : list A) (i : Z) (x : A) :
  load l i = Done x ↔ 0 ≤ i ∧ l !! Z.to_nat i = Some x.
Proof.
  unfold load. destruct (Z.ltb_spec i 0).
  - split; [discriminate | lia].
  - destruct (l !! Z.to_nat i); split; intros; try discriminate;
      destruct_and?; simplify_eq; auto.
Qed.

Lemma store_Done {A : Type} (l l' : list A) (i : Z) (x : A) :
  store l i x = Done l' ↔
  0 ≤ i < Z.of_nat (length l) ∧ l' = <[Z.to_nat i := x]> l.
Proof.
  unfold store.
  destruct (Z.leb_spec 0 i), (Z.ltb_spec i (Z.of_nat (length l))); simpl;
    split; intros; try discriminate; destruct_and?; simplify_eq; auto; lia.
Qed.

Lemma load_lookup {A : Type} (l : list A) (i : Z) (x : A) :
  0 ≤ i → l !! Z.to_nat i = Some x → load l i = Done x.
Proof. intros. by apply load_Done. Qed.

Lemma store_lookup {A : Type} (l : list A) (i : Z) (x y : A) :
  0 ≤ i → l !! Z.to_nat i = Some y →
  store l i x = Done (<[Z.to_nat i := x]> l).
Proof.
  intros Hi Hy. apply store_Done. split; [|done].
  apply lookup_lt_Some in Hy. lia.
Qed.

(** Decompose a hypothesis stating that a sequence of calls returned. *)
Ltac inv_prim H :=
  first
    [ apply ASSERT_Done in H
    | apply load_Done in H; destruct H as [? H]
    | apply store_Done in H; destruct H as [? H]
    | idtac ].

Ltac inv_done H :=
  repeat match type of H with
  | _ ≫= _ = Done _ =>
      let a := fresh "a" in let Ha := fresh "Ha" in
      apply bind_Done in H; destruct H as (a & Ha & H); inv_prim Ha
  | (let '(_, _) := ?p in _) = Done _ => destruct p
  | (if ?b then _ else _) = Done _ =>
      let Hb := fresh "Hb" in
      destruct b eqn:Hb; try discriminate H; try discriminate Hb
  | match ?o with Some _ => _ | None => _ end = Done _ =>
      let Ho := fresh "Ho" in destruct o eqn:Ho; try discriminate H
  end;
  inv_prim H.

(** ** Machine arithmetic *)

Lemma u8_range (x : Z) : 0 ≤ u8 x < 256.
Proof. unfold u8. apply Z.mod_pos_bound. lia. Qed.

Lemma u16_range (x : Z) : 0 ≤ u16 x < 65536.
Proof. unfold u16. apply Z.mod_pos_bound. lia. Qed.

Lemma u8_id (x : Z) : 0 ≤ x < 256 → u8 x = x.
Proof. intros. unfold u8. apply Z.mod_small. lia. Qed.

Lemma u16_id (x : Z) : 0 ≤ x < 65536 → u16 x = x.
Proof. intros. unfold u16. apply Z.mod_small. lia. Qed.

Lemma land_0xffff (x : Z) : Z.land x 0xffff = u16 x.
Proof. change 0xffff with (Z.ones 16). by rewrite Z.land_ones. Qed.

Lemma testbit_high (x n k : Z) : 0 ≤ x < 2 ^ k → 0 ≤ k ≤ n → Z.testbit x n = false.
Proof.
  intros Hx Hk. destruct (decide (x = 0)) as [->|].
  - apply Z.bits_0.
  - apply Z.bits_above_log2; [lia|].
    assert (Z.log2 x < k) by (apply Z.log2_lt_pow2; lia). lia.
Qed.

Lemma generation_range (d : EntityData) : 0 ≤ generation d < 256.
Proof. apply u8_range. Qed.

Lemma generation_createEntityData (g : Z) :
  generation (createEntityData g) = u8 g.
Proof.
  unfold generation, createEntityData; simpl. rewrite land_0xffff.
  pose proof (u8_range g). rewrite (u16_id (u8 g)) by lia. by apply u8_id.
Qed.

Lemma entityIndex_createHandle (i g : Z) :
  entityIndex (createHandle i g) = u16 i.
Proof.
  unfold entityIndex, createHandle. change 0xffff with (Z.ones 16).
  pose proof (u16_range i) as Hi.
  apply Z.bits_inj'; intros n Hn.
  rewrite Z.land_spec, Z.lor_spec, Z.shiftl_spec by done.
  destruct (decide (n < 16)).
  - rewrite Z.ones_spec_low, Z.testbit_neg_r by lia. simpl.
    by rewrite andb_true_r.
  - rewrite Z.ones_spec_high, andb_false_r by lia.
    symmetry. apply (testbit_high _ _ 16); lia.
Qed.

Lemma entityGen_createHandle (i g : Z) :
  entityGen (createHandle i g) = u8 g.
Proof.
  unfold entityGen, createHandle. change 0xffff with (Z.ones 16).
  pose proof (u16_range i) as Hi. pose proof (u8_range g) as Hg.
  apply Z.bits_inj'; intros n Hn.
  rewrite Z.land_spec, Z.shiftr_spec, Z.lor_spec, Z.shiftl_spec by lia.
  replace (n + 16 - 16) with n by lia.
  rewrite (testbit_high (u16 i) (n + 16) 16), orb_false_r by lia.
  destruct (decide (n < 16)).
  - by rewrite Z.ones_spec_low, andb_true_r by lia.
  - rewrite Z.ones_spec_high, andb_false_r by lia.
    symmetry. apply (testbit_high _ _ 8); lia.
Qed.

Lemma entityIndex_range (h : Entity) : 0 ≤ entityIndex h < 65536.
Proof. unfold entityIndex. rewrite land_0xffff. apply u16_range. Qed.

Lemma entityGen_range (h : Entity) : 0 ≤ entityGen h < 65536.
Proof. unfold entityGen. rewrite land_0xffff. apply u16_range. Qed.

Lemma u8_add_u8_l (a b : Z) : u8 (u8 a + b) = u8 (a + b).
Proof. unfold u8. apply Z.add_mod_idemp_l. lia. Qed.

Lemma u8_add_wrap (g k : Z) : 0 ≤ g < 256 → 0 < k < 256 → u8 (g + k) ≠ g.
Proof.
  intros Hg Hk. unfold u8. destruct (decide (g + k < 256)).
  - rewrite Z.mod_small by lia. lia.
  - replace (g + k) with (g + k - 256 + 1 * 2 ^ 8) by lia.
    rewrite Z.mod_add by lia. rewrite Z.mod_small by lia. lia.
Qed.

Lemma flags_of_generation_byte (d : EntityData) :
  0 ≤ info d < 256 → flags d = 0.
Proof.
  intros Hd. unfold flags. rewrite Z.shiftr_div_pow2 by lia.
  rewrite Z.div_small by lia. done.
Qed.

(** Membership bits. *)

Lemma land_bit_eqb (m X : Z) :
  0 ≤ X → (Z.land m (Z.shiftl 1 X) =? 0) = negb (Z.testbit m X).
Proof.
  intros HX. rewrite Z.shiftl_1_l.
  destruct (Z.testbit m X) eqn:Hbit; simpl.
  - apply Z.eqb_neq. intros H0.
    assert (Z.testbit (Z.land m (2 ^ X)) X = true) as Hc.
    { by rewrite Z.land_spec, Hbit, Z.pow2_bits_true. }
    rewrite H0, Z.bits_0 in Hc. discriminate.
  - apply Z.eqb_eq. apply Z.bits_inj'; intros n Hn.
    rewrite Z.land_spec, Z.bits_0, Z.pow2_bits_eqb by done.
    destruct (Z.eqb_spec X n) as [->|]; [by rewrite Hbit|by rewrite andb_false_r].
Qed.

Lemma testbit_cmask (x n : Z) :
  0 ≤ n →
  Z.testbit (cmask x) n = (n <? ComponentMask_bits) && Z.testbit x n.
Proof.
  intros Hn. unfold cmask. change ComponentMask_bits with 8.
  destruct (Z.ltb_spec n 8).
  - by rewrite Z.mod_pow2_bits_low.
  - by rewrite Z.mod_pow2_bits_high.
Qed.

Lemma ECS_MAX_COMPS_bits : ECS_MAX_COMPS ≤ ComponentMask_bits.
Proof. by vm_compute. Qed.

Lemma testbit_set (c X : Z) :
  0 ≤ X < ECS_MAX_COMPS →
  Z.testbit (cmask (Z.lor c (Z.shiftl 1 X))) X = true.
Proof.
  intros HX. pose proof ECS_MAX_COMPS_bits.
  rewrite testbit_cmask, Z.lor_spec, Z.shiftl_1_l, Z.pow2_bits_true by lia.
  rewrite orb_true_r, andb_true_r. apply Z.ltb_lt. lia.
Qed.

Lemma testbit_cleared (c X : Z) :
  0 ≤ X →
  Z.testbit (cmask (Z.land c (Z.lnot (Z.shiftl 1 X)))) X = false.
Proof.
  intros HX.
  rewrite testbit_cmask, Z.land_spec, Z.lnot_spec, Z.shiftl_1_l,
    Z.pow2_bits_true by lia.
  simpl. by rewrite andb_false_r, andb_false_r.
Qed.

Lemma testbit_clear_other (c X j : Z) :
  0 ≤ X → 0 ≤ j < ComponentMask_bits → j ≠ X →
  Z.testbit (cmask (Z.land c (Z.lnot (Z.shiftl 1 X)))) j = Z.testbit c j.
Proof.
  intros HX Hj Hne.
  rewrite testbit_cmask, Z.land_spec, Z.lnot_spec, Z.shiftl_1_l,
    Z.pow2_bits_false by lia.
  simpl. rewrite andb_true_r.
  destruct (Z.ltb_spec j ComponentMask_bits); [done|lia].
Qed.

Lemma createHandle_range (i g : Z) : 0 ≤ createHandle i g < 2 ^ 24.
Proof.
  unfold createHandle.
  pose proof (u8_range g) as Hg. pose proof (u16_range i) as Hi.
  assert (Ha : 0 ≤ Z.shiftl (u8 g) 16 < 2 ^ 24).
  { rewrite Z.shiftl_mul_pow2 by lia. lia. }
  split; [apply Z.lor_nonneg; lia|].
  destruct (decide (Z.lor (Z.shiftl (u8 g) 16) (u16 i) = 0)) as [->|Hne]; [lia|].
  assert (0 ≤ Z.lor (Z.shiftl (u8 g) 16) (u16 i)) by (apply Z.lor_nonneg; lia).
  apply Z.log2_lt_pow2; [lia|].
  rewrite Z.log2_lor by lia.
  assert (Z.log2 (Z.shiftl (u8 g) 16) < 24).
  { destruct (decide (Z.shiftl (u8 g) 16 = 0)) as [->|]; [done|].
    apply Z.log2_lt_pow2; lia. }
  assert (Z.log2 (u16 i) < 24).
  { destruct (decide (u16 i = 0)) as [->|]; [done|].
    apply Z.log2_lt_pow2; lia. }
  lia.
Qed.

Lemma createHandle_decode (h : Z) :
  0 ≤ h < 2 ^ 24 → createHandle (entityIndex h) (entityGen h) = h.
Proof.
  intros Hh. unfold createHandle, entityIndex, entityGen.
  rewrite !land_0xffff.
  rewrite (u16_id (u16 h)) by apply u16_range.
  assert (Hg : u16 (Z.shiftr h 16) = Z.shiftr h 16).
  { apply u16_id. rewrite Z.shiftr_div_pow2 by lia. split.
    - apply Z.div_pos; lia.
    - apply Z.div_lt_upper_bound; lia. }
  rewrite Hg.
  assert (Hg8 : u8 (Z.shiftr h 16) = Z.shiftr h 16).
  { apply u8_id. rewrite Z.shiftr_div_pow2 by lia. split.
    - apply Z.div_pos; lia.
    - apply Z.div_lt_upper_bound; lia. }
  rewrite Hg8. unfold u16. rewrite <- Z.land_ones by lia.
  apply Z.bits_inj'; intros n Hn.
  rewrite Z.lor_spec, Z.shiftl_spec, Z.land_spec by lia.
  destruct (decide (n < 16)).
  - rewrite Z.testbit_neg_r, Z.ones_spec_low by lia. simpl.
    by rewrite andb_true_r.
  - rewrite Z.ones_spec_high, andb_false_r, orb_false_r by lia.
    rewrite Z.shiftr_spec by lia. f_equal. lia.
Qed.

Lemma cmask_range (x : Z) : 0 ≤ cmask x < 2 ^ ComponentMask_bits.
Proof. unfold cmask. apply Z.mod_pos_bound. by vm_compute. Qed.

Lemma cmask_id (x : Z) : 0 ≤ x < 2 ^ ComponentMask_bits → cmask x = x.
Proof. intros. unfold cmask. by apply Z.mod_small. Qed.

Lemma cmask_idemp (x : Z) : cmask (cmask x) = cmask x.
Proof. apply cmask_id, cmask_range. Qed.

Lemma u16_pred_succ (x : Z) : 0 ≤ x < 65535 → u16 (u16 (x + 1) - 1) = x.
Proof.
  intros. rewrite (u16_id (x + 1)) by lia.
  replace (x + 1 - 1) with x by lia. apply u16_id. lia.
Qed.

Lemma u8_idemp (x : Z) : u8 (u8 x) = u8 x.
Proof. apply u8_id, u8_range. Qed.

Lemma createHandle_u8 (i g : Z) : createHandle i (u8 g) = createHandle i g.
Proof. unfold createHandle. by rewrite u8_idemp. Qed.

Lemma u32_id (x : Z) : 0 ≤ x < 2 ^ 32 → u32 x = x.
Proof. intros. unfold u32. by apply Z.mod_small. Qed.

Lemma size_t_range (x : Z) : 0 ≤ size_t x < 2 ^ 64.
Proof. unfold size_t. apply Z.mod_pos_bound. lia. Qed.

Lemma size_t_id (x : Z) : 0 ≤ x < 2 ^ 64 → size_t x = x.
Proof. intros. unfold size_t. by apply Z.mod_small. Qed.

Lemma size_t_idemp (x : Z) : size_t (size_t x) = size_t x.
Proof. apply size_t_id, size_t_range. Qed.

(** The sum of two sizes wraps exactly when it does not fit [size_t]. *)
Lemma size_t_sum_fits (a b : Z) :
  0 ≤ a → 0 ≤ b →
  (size_t (a + b) <? a + b) = false ↔ a + b < 2 ^ 64.
Proof.
  intros Ha Hb. rewrite Z.ltb_ge. split; intros H.
  - pose proof (size_t_range (a + b)). lia.
  - rewrite size_t_id; lia.
Qed.

Lemma matchEntities_unfold {U : Type} (mask : Z) (it : ECSIterator U)
    (ud : Z) (ecs : ECS) (u : U) :
  matchEntities mask it ud ecs u
  = matchEntities_from (Z.to_nat ECS_MAX_ENTITIES) 0 (cmask mask) it ud ecs u.
Proof. reflexivity. Qed.

Lemma ecsTick_unfold {U : Type} (code : Z → ECSIterator U) (ecs : ECS) (u : U) :
  ecsTick code ecs u = ecsTick_from 256 0 code ecs u.
Proof. reflexivity. Qed.

(** From here on machine arithmetic and the two loops over all slots and
    all systems are used through the lemmas about them. *)
#[local] Opaque u8 u16 size_t cmask generation flags createHandle
  entityIndex entityGen kEntityUnused matchEntities ecsTick.

(** ** Entity life cycle *)

Lemma newEntity_Done (ecs ecs' : ECS) (h : Entity) :
  newEntity ecs = Done (h, ecs') →
  ∃ id d,
    0 ≤ id < Z.of_nat (length (data (entities ecs))) ∧
    data (entities ecs) !! Z.to_nat id = Some d ∧
    h = createHandle id (generation d) ∧
    ecs' = set_entities
             (mkEntityPool
                (u16 (freeCount (entities ecs) - 1))
                (freeList (entities ecs))
                (<[Z.to_nat id := createEntityData (generation d)]>
                   (data (entities ecs))))
             ecs.
Proof.
  unfold newEntity, newEntityFromPool. intros H. inv_done H.
  inv_done Ha. simplify_eq. simpl in *. eauto 10.
Qed.

Lemma isEntityValid_Done (ecs : ECS) (h : Entity) (b : bool) :
  isEntityValid ecs h = Done b ↔
  ∃ d, data (entities ecs) !! Z.to_nat (entityIndex h) = Some d ∧
       b = (generation d =? entityGen h).
Proof.
  unfold isEntityValid. split.
  - intros H. inv_done H. simplify_eq. eauto.
  - intros (d & Hd & ->). pose proof (entityIndex_range h).
    apply bind_Done. exists d. split; [|done]. apply load_Done. split; [lia|done].
Qed.

Lemma destroyEntity_Done (ecs ecs' : ECS) (h : Entity) (x : unit) :
  destroyEntity h ecs = Done (x, ecs') →
  ∃ d, data (entities ecs) !! Z.to_nat (entityIndex h) = Some d ∧
    ((generation d =? entityGen h) = false ∧ ecs' = ecs
     ∨ (generation d =? entityGen h) = true ∧
       data (entities ecs') =
         <[Z.to_nat (entityIndex h) := createEntityData (entityGen h + 1)]>
           (data (entities ecs))).
Proof.
  unfold destroyEntity. intros H.
  apply bind_Done in H as (b & Hv & H).
  apply isEntityValid_Done in Hv as (d & Hd & ->). exists d. split; [done|].
  destruct (generation d =? entityGen h); simpl in H.
  - right. split; [done|]. inv_done H.
    unfold returnEntityToPool in Ha0. inv_done Ha0. by simplify_eq.
  - left. by simplify_eq.
Qed.

Lemma stepEntityOp_slot (i : Z) (o : entityOp) (ecs ecs' : ECS) (d : EntityData) :
  stepEntityOp o ecs = Done ecs' → 0 ≤ i →
  data (entities ecs) !! Z.to_nat i = Some d →
  ∃ d', data (entities ecs') !! Z.to_nat i = Some d' ∧
        generation d' =
          u8 (generation d + (if destroysSlot i o ecs then 1 else 0)).
Proof.
  intros H Hi Hd. pose proof (generation_range d) as Hg.
  destruct o as [|h]; simpl in H; inv_done H; simplify_eq.
  - apply newEntity_Done in Ha as (id & d0 & Hid & Hd0 & -> & ->). simpl.
    rewrite Z.add_0_r, u8_id by done.
    destruct (decide (Z.to_nat id = Z.to_nat i)) as [Heq|Hne].
    + rewrite Heq in *. assert (d0 = d) as -> by congruence.
      rewrite list_lookup_insert_eq by (apply lookup_lt_Some in Hd; lia).
      eexists; split; [done|]. rewrite generation_createEntityData.
      by apply u8_id.
    + rewrite list_lookup_insert_ne by done. eauto.
  - apply destroyEntity_Done in Ha as (d0 & Hd0 & [[Hv ->]|[Hv Hdat]]).
    + exists d. split; [done|]. simpl.
      rewrite (proj2 (isEntityValid_Done ecs h _)) by eauto.
      rewrite Hv, andb_false_r, Z.add_0_r. by rewrite u8_id.
    + rewrite Hdat. simpl.
      rewrite (proj2 (isEntityValid_Done ecs h _)) by eauto.
      rewrite Hv, andb_true_r. pose proof (entityIndex_range h).
      destruct (Z.eqb_spec (entityIndex h) i) as [Heq|Hne].
      * rewrite Heq in *. assert (d0 = d) as -> by congruence.
        rewrite list_lookup_insert_eq by (apply lookup_lt_Some in Hd; lia).
        eexists; split; [done|]. rewrite generation_createEntityData.
        apply Z.eqb_eq in Hv. by rewrite Hv.
      * rewrite list_lookup_insert_ne by lia.
        exists d. split; [done|]. by rewrite Z.add_0_r, u8_id.
Qed.

Lemma slotDestroys_nonneg (i : Z) (ops : list entityOp) :
  ∀ ecs, 0 ≤ slotDestroys i ops ecs.
Proof.
  induction ops as [|o ops IH]; intros ecs; simpl; [lia|].
  destruct (stepEntityOp o ecs) as [ecs'| | |]; try lia.
  specialize (IH ecs'). destruct (destroysSlot i o ecs); lia.
Qed.

(** The generation of a slot advances by one, modulo 256, each time the
    slot is destroyed, and changes in no other way. *)
Lemma runEntityOps_generation (i : Z) (ops : list entityOp) :
  ∀ ecs ecs' d,
    runEntityOps ops ecs = Done ecs' → 0 ≤ i →
    data (entities ecs) !! Z.to_nat i = Some d →
    ∃ d', data (entities ecs') !! Z.to_nat i = Some d' ∧
          generation d' = u8 (generation d + slotDestroys i ops ecs).
Proof.
  induction ops as [|o ops IH]; intros ecs ecs' d H Hi Hd; simpl in *.
  - simplify_eq. exists d. split; [done|].
    rewrite Z.add_0_r. symmetry. apply u8_id, generation_range.
  - apply bind_Done in H as (ecs1 & Hstep & H). rewrite Hstep.
    destruct (stepEntityOp_slot i o ecs ecs1 d Hstep Hi Hd) as (d1 & Hd1 & Hg1).
    destruct (IH ecs1 ecs' d1 H Hi Hd1) as (d' & Hd' & Hg').
    exists d'. split; [done|]. rewrite Hg', Hg1, u8_add_u8_l.
    f_equal. lia.
Qed.

(** Once a handle has been passed to [destroyEntity], its slot has been
    destroyed at least once. *)
Lemma slotDestroys_after_destroy (h : Entity) (ops : list entityOp) :
  ∀ ecs ecs' d,
    runEntityOps ops ecs = Done ecs' →
    data (entities ecs) !! Z.to_nat (entityIndex h) = Some d →
    generation d = entityGen h →
    In (OpDestroy h) ops →
    1 ≤ slotDestroys (entityIndex h) ops ecs.
Proof.
  pose proof (entityIndex_range h) as Hi.
  induction ops as [|o ops IH]; intros ecs ecs' d H Hd Hg Hin; [by destruct Hin|].
  simpl in *. apply bind_Done in H as (ecs1 & Hstep & H). rewrite Hstep.
  pose proof (slotDestroys_nonneg (entityIndex h) ops ecs1).
  destruct (destroysSlot (entityIndex h) o ecs) eqn:Hds; [lia|].
  destruct Hin as [->|Hin].
  - simpl in Hds. rewrite Z.eqb_refl in Hds.
    rewrite (proj2 (isEntityValid_Done ecs h _)) in Hds by eauto.
    rewrite Hg, Z.eqb_refl in Hds. discriminate.
  - destruct (stepEntityOp_slot _ o ecs ecs1 d Hstep (proj1 Hi) Hd)
      as (d1 & Hd1 & Hg1).
    rewrite Hds, Z.add_0_r, u8_id in Hg1 by apply generation_range.
    specialize (IH ecs1 ecs' d1 H Hd1). rewrite Hg1 in IH.
    specialize (IH Hg Hin). lia.
Qed.

Lemma sized_newECS : sized newECS.
Proof. by repeat split. Qed.

(** C5. A handle returned by [newEntity] is valid right after the call.
    Once it has been passed to [destroyEntity] it is invalid, and it stays
    invalid in every later state reached by [newEntity] / [destroyEntity]
    calls, also when its slot is handed out again, as long as the slot has
    been destroyed fewer than 256 times since the handle was created. *)
Theorem handle_valid_then_permanently_invalid (ecs0 ecs1 : ECS) (h : Entity) :
  sized ecs0 →
  newEntity ecs0 = Done (h, ecs1) →
  isEntityValid ecs1 h = Done true ∧
  ∀ ops ecs2,
    runEntityOps ops ecs1 = Done ecs2 →
    In (OpDestroy h) ops →
    slotDestroys (entityIndex h) ops ecs1 < 256 →
    isEntityValid ecs2 h = Done false.
Proof.
  intros (_ & Hlen & _ & _) Hnew.
  apply newEntity_Done in Hnew as (id & d & Hid & Hd & -> & ->).
  assert (Hidx : entityIndex (createHandle id (generation d)) = id).
  { rewrite entityIndex_createHandle. apply u16_id.
    rewrite Hlen in Hid. unfold ECS_MAX_ENTITIES in Hid. lia. }
  assert (Hgen : entityGen (createHandle id (generation d)) = generation d).
  { rewrite entityGen_createHandle. apply u8_id, generation_range. }
  set (h := createHandle id (generation d)) in *.
  set (ecs1 := set_entities _ ecs0).
  assert (Hd1 : data (entities ecs1) !! Z.to_nat (entityIndex h)
                = Some (createEntityData (generation d))).
  { rewrite Hidx. simpl. apply list_lookup_insert_eq. lia. }
  assert (Hg1 : generation (createEntityData (generation d)) = entityGen h).
  { rewrite generation_createEntityData, Hgen. apply u8_id, generation_range. }
  split.
  - apply isEntityValid_Done. eexists. split; [exact Hd1|].
    rewrite Hg1. by rewrite Z.eqb_refl.
  - intros ops ecs2 Hrun Hin Hlt.
    pose proof (entityIndex_range h) as Hi.
    pose proof (slotDestroys_after_destroy h ops _ _ _ Hrun Hd1 Hg1 Hin) as Hge.
    destruct (runEntityOps_generation _ ops _ _ _ Hrun (proj1 Hi) Hd1)
      as (d2 & Hd2 & Hg2).
    apply isEntityValid_Done. exists d2. split; [done|].
    symmetry. apply Z.eqb_neq. rewrite Hg2, Hg1, Hgen.
    apply u8_add_wrap; [apply generation_range|lia].
Qed.

Lemma newEntity_newECS : newEntity newECS = Done (createHandle 0 0, firstEntityECS).
Proof. vm_compute. reflexivity. Qed.

Lemma handle_valid_then_permanently_invalid_witness :
  sized newECS ∧
  newEntity newECS = Done (createHandle 0 0, firstEntityECS) ∧
  isEntityValid firstEntityECS (createHandle 0 0) = Done true ∧
  ∃ ecs2,
    runEntityOps [OpDestroy (createHandle 0 0); OpNew;
                  OpDestroy (createHandle 0 0)] firstEntityECS = Done ecs2 ∧
    isEntityValid ecs2 (createHandle 0 0) = Done false.
Proof.
  split; [exact sized_newECS|].
  split; [exact newEntity_newECS|].
  destruct (handle_valid_then_permanently_invalid
              newECS firstEntityECS (createHandle 0 0)
              sized_newECS newEntity_newECS) as [Hvalid Hlater].
  split; [exact Hvalid|].
  eexists. split; [vm_compute; reflexivity|].
  apply (Hlater [OpDestroy (createHandle 0 0); OpNew;
                 OpDestroy (createHandle 0 0)]).
  - vm_compute. reflexivity.
  - simpl. tauto.
  - vm_compute. reflexivity.
Defined.

(** The bound of 256 is exact: after 256 rounds of destroying and reusing
    slot 0 the generation byte is back at 0 and the first handle is valid
    again. *)
Lemma first_handle_valid_again_after_256_rounds :
  slotDestroys 0 (churn 256) firstEntityECS = 256 ∧
  (ecs ← runEntityOps (churn 256) firstEntityECS;
   isEntityValid ecs (createHandle 0 0)) = Done true.
Proof. split; vm_compute; reflexivity. Qed.

(** C8. [destroyEntity] with a handle that [isEntityValid] rejects returns
    at once: the registry (generations, masks, free list, free count and
    everything else) is the one it was given. *)
Theorem destroyEntity_invalid_noop (ecs : ECS) (h : Entity) :
  isEntityValid ecs h = Done false →
  destroyEntity h ecs = Done (tt, ecs).
Proof. intros Hinv. unfold destroyEntity. by rewrite Hinv. Qed.

Lemma destroyEntity_invalid_noop_witness :
  isEntityValid newECS (createHandle 0 1) = Done false ∧
  destroyEntity (createHandle 0 1) newECS = Done (tt, newECS).
Proof.
  split; [vm_compute; reflexivity|].
  apply destroyEntity_invalid_noop. vm_compute; reflexivity.
Defined.

(** ** Attaching, reading and removing components *)

Section Attach.

Variables (ecs : ECS) (e : Entity) (X : Z) (d : EntityData).
Hypothesis Hvalid : isEntityValid ecs e = Done true.
Hypothesis HX : 0 ≤ X < ECS_MAX_COMPS.
Hypothesis Hd : data (entities ecs) !! Z.to_nat (entityIndex e) = Some d.

Lemma u8_compID : u8 X = X.
Proof using HX. apply u8_id. unfold ECS_MAX_COMPS in HX. lia. Qed.

Lemma compID_in_range : (X <? ECS_MAX_COMPS) = true.
Proof using HX. apply Z.ltb_lt. lia. Qed.

Lemma addComponentID_returns (cd : ComponentData) :
  compData ecs !! Z.to_nat X = Some (Some cd) →
  addComponentID e X ecs =
  Done (mkPointer X (size_t (X * cd_size cd)),
        withComponents (entityIndex e)
          (cmask (Z.lor (components d) (Z.shiftl 1 X))) ecs).
Proof using Hvalid HX Hd.
  intros Hcd. pose proof (entityIndex_range e).
  unfold addComponentID, withComponents, componentAddress.
  rewrite u8_compID, compID_in_range, Hvalid, Hd. simpl.
  rewrite (load_lookup _ _ d) by (done || lia). simpl.
  rewrite (store_lookup _ _ _ d) by (done || lia). simpl.
  by rewrite (load_lookup _ _ (Some cd)) by (done || lia).
Qed.

Lemma getComponentID_returns_set (cd : ComponentData) :
  compData ecs !! Z.to_nat X = Some (Some cd) →
  Z.testbit (components d) X = true →
  getComponentID e X ecs
  = Done (Some (mkPointer X (size_t (X * cd_size cd))), ecs).
Proof using Hvalid HX Hd.
  intros Hcd Hbit. pose proof (entityIndex_range e).
  unfold getComponentID, componentAddress.
  rewrite u8_compID, compID_in_range, Hvalid. simpl.
  rewrite (load_lookup _ _ d) by (done || lia). simpl.
  rewrite land_bit_eqb, Hbit by lia. simpl.
  by rewrite (load_lookup _ _ (Some cd)) by (done || lia).
Qed.

Lemma getComponentID_returns_clear :
  Z.testbit (components d) X = false →
  getComponentID e X ecs = Done (None, ecs).
Proof using Hvalid HX Hd.
  intros Hbit. pose proof (entityIndex_range e).
  unfold getComponentID.
  rewrite u8_compID, compID_in_range, Hvalid. simpl.
  rewrite (load_lookup _ _ d) by (done || lia). simpl.
  by rewrite land_bit_eqb, Hbit by lia.
Qed.

Lemma removeComponentID_returns :
  removeComponentID e X ecs =
  Done (tt, withComponents (entityIndex e)
              (cmask (Z.land (components d) (Z.lnot (Z.shiftl 1 X)))) ecs).
Proof using Hvalid HX Hd.
  pose proof (entityIndex_range e).
  unfold removeComponentID, withComponents.
  rewrite u8_compID, compID_in_range, Hvalid, Hd. simpl.
  rewrite (load_lookup _ _ d) by (done || lia). simpl.
  by rewrite (store_lookup _ _ _ d) by (done || lia).
Qed.

End Attach.

Lemma isEntityValid_withComponents (ecs : ECS) (i m : Z) (e : Entity) :
  isEntityValid (withComponents i m ecs) e = isEntityValid ecs e.
Proof.
  unfold withComponents.
  destruct (data (entities ecs) !! Z.to_nat i) as [d|] eqn:Hd; [|done].
  unfold isEntityValid. simpl. unfold load.
  destruct (entityIndex e <? 0); [done|].
  destruct (decide (Z.to_nat i = Z.to_nat (entityIndex e))) as [Heq|Hne].
  - rewrite <- Heq, Hd.
    by rewrite list_lookup_insert_eq by (by apply lookup_lt_Some in Hd).
  - by rewrite list_lookup_insert_ne.
Qed.

Lemma lookup_withComponents (ecs : ECS) (i m : Z) (d : EntityData) :
  data (entities ecs) !! Z.to_nat i = Some d →
  data (entities (withComponents i m ecs)) !! Z.to_nat i
  = Some (set_components m d).
Proof.
  intros Hd. unfold withComponents. rewrite Hd. simpl.
  apply list_lookup_insert_eq. by apply lookup_lt_Some in Hd.
Qed.

(** The address [addComponentID] returns is determined by the component
    alone. *)
Lemma addComponentID_address (ecs ecs1 : ECS) (e : Entity) (X : Z) (p : pointer) :
  0 ≤ X < ECS_MAX_COMPS →
  addComponentID e X ecs = Done (p, ecs1) →
  ∃ cd, compData ecs !! Z.to_nat X = Some (Some cd) ∧
        p = mkPointer X (size_t (X * cd_size cd)).
Proof.
  intros HX H. unfold addComponentID in H. rewrite (u8_compID X HX) in H.
  inv_done H. simplify_eq.
  unfold componentAddress in Ha4. simpl in Ha4. inv_done Ha4.
  simplify_eq. eauto.
Qed.

(** C6. For a valid handle [e] and a component ID [X] below
    [ECS_MAX_COMPS]: once [addComponentID] has returned, [e] is still
    valid, [getComponentID] returns the same pointer (not [NULL]) and bit
    [X] of the slot's mask is set; [addComponentID] does return when [X]'s
    storage has been declared.  [removeComponentID] returns a registry that
    differs from the given one only in the mask of [e]'s slot, where bit [X]
    is clear and every other bit is as before (the component buffers are
    the same), and [getComponentID] then returns [NULL]. *)
Theorem attach_get_remove (ecs : ECS) (e : Entity) (X : Z) :
  isEntityValid ecs e = Done true →
  0 ≤ X < ECS_MAX_COMPS →
  ∃ d, data (entities ecs) !! Z.to_nat (entityIndex e) = Some d ∧
    (∀ p ecs1,
       addComponentID e X ecs = Done (p, ecs1) →
       isEntityValid ecs1 e = Done true ∧
       getComponentID e X ecs1 = Done (Some p, ecs1) ∧
       ∃ d1, data (entities ecs1) !! Z.to_nat (entityIndex e) = Some d1 ∧
             Z.testbit (components d1) X = true) ∧
    (∀ cd, compData ecs !! Z.to_nat X = Some (Some cd) →
           ∃ p ecs1, addComponentID e X ecs = Done (p, ecs1)) ∧
    (∃ m ecs2,
       removeComponentID e X ecs = Done (tt, ecs2) ∧
       ecs2 = set_entities
                (set_data (<[Z.to_nat (entityIndex e) := set_components m d]>
                             (data (entities ecs)))
                          (entities ecs))
                ecs ∧
       Z.testbit m X = false ∧
       (∀ j, 0 ≤ j < ComponentMask_bits → j ≠ X →
             Z.testbit m j = Z.testbit (components d) j) ∧
       getComponentID e X ecs2 = Done (None, ecs2)).
Proof.
  intros Hvalid HX.
  destruct (proj1 (isEntityValid_Done _ _ _) Hvalid) as (d & Hd & _).
  exists d. split; [done|]. split; [|split].
  - intros p ecs1 Hadd.
    destruct (addComponentID_address _ _ _ _ _ HX Hadd) as (cd & Hcd & _).
    rewrite (addComponentID_returns ecs e X d Hvalid HX Hd cd Hcd) in Hadd.
    set (m := cmask (Z.lor (components d) (Z.shiftl 1 X))) in *.
    assert (p = mkPointer X (size_t (X * cd_size cd))) as -> by congruence.
    assert (ecs1 = withComponents (entityIndex e) m ecs) as -> by congruence.
    set (ecs1 := withComponents (entityIndex e) m ecs).
    assert (Hvalid1 : isEntityValid ecs1 e = Done true)
      by (unfold ecs1; by rewrite isEntityValid_withComponents).
    assert (Hd1 : data (entities ecs1) !! Z.to_nat (entityIndex e)
                  = Some (set_components m d))
      by (by apply lookup_withComponents).
    assert (Hcd1 : compData ecs1 !! Z.to_nat X = Some (Some cd)).
    { unfold ecs1, withComponents. by rewrite Hd. }
    assert (Hbit : Z.testbit (components (set_components m d)) X = true)
      by (by apply testbit_set).
    split; [done|]. split; [|eauto].
    by apply (getComponentID_returns_set ecs1 e X _ Hvalid1 HX Hd1 cd).
  - intros cd Hcd. eexists _, _. by apply addComponentID_returns.
  - set (m := cmask (Z.land (components d) (Z.lnot (Z.shiftl 1 X)))).
    set (ecs2 := withComponents (entityIndex e) m ecs).
    assert (Hvalid2 : isEntityValid ecs2 e = Done true)
      by (unfold ecs2; by rewrite isEntityValid_withComponents).
    assert (Hd2 : data (entities ecs2) !! Z.to_nat (entityIndex e)
                  = Some (set_components m d))
      by (by apply lookup_withComponents).
    exists m, ecs2.
    split; [by apply removeComponentID_returns|].
    split; [unfold ecs2, withComponents; by rewrite Hd|].
    split; [apply testbit_cleared; lia|].
    split; [intros j Hj Hne; apply testbit_clear_other; lia|].
    apply (getComponentID_returns_clear ecs2 e X _ Hvalid2 HX Hd2).
    apply testbit_cleared; lia.
Qed.

Lemma twoEntities_Done :
  twoEntities = Done (createHandle 0 0, createHandle 1 0, twoEntitiesECS).
Proof. vm_compute. reflexivity. Qed.

Lemma attach_get_remove_witness :
  isEntityValid twoEntitiesECS (createHandle 1 0) = Done true ∧
  (∃ p ecs1,
     addComponentID (createHandle 1 0) 1 twoEntitiesECS = Done (p, ecs1) ∧
     getComponentID (createHandle 1 0) 1 ecs1 = Done (Some p, ecs1)) ∧
  (∃ ecs2,
     removeComponentID (createHandle 1 0) 1 twoEntitiesECS = Done (tt, ecs2) ∧
     getComponentID (createHandle 1 0) 1 ecs2 = Done (None, ecs2)).
Proof.
  assert (Hvalid : isEntityValid twoEntitiesECS (createHandle 1 0) = Done true)
    by (vm_compute; reflexivity).
  assert (HX : 0 ≤ 1 < ECS_MAX_COMPS) by (unfold ECS_MAX_COMPS; lia).
  destruct (attach_get_remove twoEntitiesECS (createHandle 1 0) 1 Hvalid HX)
    as (d & _ & Hafter & Hadd & (m & ecs2 & Hrem & _ & _ & _ & Hget)).
  split; [exact Hvalid|]. split.
  - destruct (Hadd (mkComponentData 8 "Speed" (replicate 1024 0)))
      as (p & ecs1 & Ha); [vm_compute; reflexivity|].
    destruct (Hafter p ecs1 Ha) as (_ & Hg & _).
    by exists p, ecs1.
  - by exists ecs2.
Defined.

(** C10. [getComponentID] leaves the registry as it is: whenever it returns,
    the registry it returns is the one it was given; and it does return for
    a valid handle and the ID of a declared component.  ([isEntityValid]
    receives the registry through a pointer to [const] and is a function of
    the registry state.) *)
Theorem getComponentID_isEntityValid_read_only (ecs : ECS) (e : Entity) (X : Z) :
  (∀ r ecs', getComponentID e X ecs = Done (r, ecs') → ecs' = ecs) ∧
  (∀ b, isEntityValid ecs e = Done b →
        ∃ d, data (entities ecs) !! Z.to_nat (entityIndex e) = Some d ∧
             b = (generation d =? entityGen e)) ∧
  (isEntityValid ecs e = Done true →
   0 ≤ X < ECS_MAX_COMPS →
   (∃ cd, compData ecs !! Z.to_nat X = Some (Some cd)) →
   ∃ r, getComponentID e X ecs = Done (r, ecs)).
Proof.
  split; [|split].
  - intros r ecs' H. unfold getComponentID in H. inv_done H; by simplify_eq.
  - intros b H. by apply isEntityValid_Done.
  - intros Hvalid HX (cd & Hcd).
    destruct (proj1 (isEntityValid_Done _ _ _) Hvalid) as (d & Hd & _).
    destruct (Z.testbit (components d) X) eqn:Hbit.
    + eexists. by apply (getComponentID_returns_set ecs e X d Hvalid HX Hd cd).
    + eexists. by apply (getComponentID_returns_clear ecs e X d Hvalid HX Hd).
Qed.

Lemma getComponentID_isEntityValid_read_only_witness :
  isEntityValid twoEntitiesECS (createHandle 1 0) = Done true ∧
  getComponentID (createHandle 1 0) 1 twoEntitiesECS
  = Done (None, twoEntitiesECS).
Proof.
  split; [vm_compute; reflexivity|].
  destruct (getComponentID_isEntityValid_read_only
              twoEntitiesECS (createHandle 1 0) 1) as (Hsame & _ & _).
  assert (∃ r ecs', getComponentID (createHandle 1 0) 1 twoEntitiesECS
                    = Done (r, ecs') ∧ r = None) as (r & ecs' & Hget & ->).
  { eexists _, _. split; vm_compute; reflexivity. }
  by rewrite Hget, (Hsame _ _ Hget).
Defined.

(** C1 (the code differs).  [addComponentID] and [getComponentID] compute
    the offset from the component ID, not from the slot index: in a
    registry with two components of 8 bytes and the entities of slots 0 and
    1, both entities get offset 0 in the buffer of component 0 and offset 8
    in the buffer of component 1. *)
Theorem component_address_ignores_slot :
  ('(e0, e1, ecs) ← twoEntities;
   '(p0, ecs) ← addComponentID e0 0 ecs;
   '(p1, ecs) ← addComponentID e1 0 ecs;
   '(q0, ecs) ← addComponentID e0 1 ecs;
   '(q1, ecs) ← addComponentID e1 1 ecs;
   '(g0, ecs) ← getComponentID e0 1 ecs;
   '(g1, ecs) ← getComponentID e1 1 ecs;
   Done (entityIndex e0, entityIndex e1, [p0; p1], [q0; q1], [g0; g1]))
  = Done (0, 1,
          [mkPointer 0 0; mkPointer 0 0],
          [mkPointer 1 8; mkPointer 1 8],
          [Some (mkPointer 1 8); Some (mkPointer 1 8)]).
Proof. vm_compute. reflexivity. Qed.

(** ** Component registry *)

Lemma ecsComponentID_from_sentinel (ecs : ECS) (name : string) (fuel : nat) :
  ∀ i, 0 ≤ i → i + Z.of_nat fuel ≤ 256 →
    (∀ j, i ≤ j < i + Z.of_nat fuel →
       ∃ cd, compData ecs !! Z.to_nat j = Some (Some cd) ∧ cd_id cd ≠ name) →
    ecsComponentID_from fuel i ecs name = Done ECS_MAX_COMPS.
Proof.
  induction fuel as [|fuel IH]; intros i Hi Hle Hall; [done|].
  simpl. destruct (Hall i) as (cd & Hcd & Hne); [lia|].
  rewrite (load_lookup _ _ (Some cd)) by done. simpl.
  apply String.eqb_neq in Hne. rewrite Hne.
  destruct fuel as [|fuel']; [done|].
  rewrite u8_id by lia. apply IH; [lia|lia|].
  intros j Hj. apply Hall. lia.
Qed.

Lemma ecsComponentID_from_found (ecs : ECS) (name : string) (fuel : nat) :
  ∀ i k cd, 0 ≤ i ≤ k → k < i + Z.of_nat fuel → k < 256 →
    (∀ j, i ≤ j < k →
       ∃ cd', compData ecs !! Z.to_nat j = Some (Some cd') ∧ cd_id cd' ≠ name) →
    compData ecs !! Z.to_nat k = Some (Some cd) → cd_id cd = name →
    ecsComponentID_from fuel i ecs name = Done k.
Proof.
  induction fuel as [|fuel IH]; intros i k cd Hi Hk Hk' Hall Hcd Hname; [lia|].
  simpl. destruct (decide (i = k)) as [->|Hne].
  - rewrite (load_lookup _ _ (Some cd)) by (done || lia). simpl.
    apply String.eqb_eq in Hname. by rewrite Hname.
  - destruct (Hall i) as (cd' & Hcd' & Hne'); [lia|].
    rewrite (load_lookup _ _ (Some cd')) by (done || lia). simpl.
    apply String.eqb_neq in Hne'. rewrite Hne'.
    rewrite u8_id by lia. apply (IH _ k cd); try done; try lia.
    intros j Hj. apply Hall. lia.
Qed.

Lemma ecsComponentID_from_sentinel_inv (ecs : ECS) (name : string) (fuel : nat) :
  ∀ i, 0 ≤ i → i + Z.of_nat fuel ≤ ECS_MAX_COMPS →
    ecsComponentID_from fuel i ecs name = Done ECS_MAX_COMPS →
    ∀ j, i ≤ j < i + Z.of_nat fuel →
      ∃ cd, compData ecs !! Z.to_nat j = Some (Some cd) ∧ cd_id cd ≠ name.
Proof.
  unfold ECS_MAX_COMPS.
  induction fuel as [|fuel IH]; intros i Hi Hle H j Hj; [lia|].
  simpl in H. inv_done H; [simplify_eq; lia|].
  apply String.eqb_neq in Hb.
  rewrite u8_id in H by lia.
  destruct (decide (j = i)) as [->|]; [eauto|].
  apply (IH (i + 1)); try done; lia.
Qed.

Lemma ecsDeclareComponent_inv (ecs ecs1 : ECS) (name : string) (size id : Z) :
  ecsDeclareComponent name size ecs = Done (id, ecs1) →
  (ecsComponentID ecs name = Done id ∧ id ≠ ECS_MAX_COMPS ∧ ecs1 = ecs) ∨
  (ecsComponentID ecs name = Done ECS_MAX_COMPS ∧
   id = compDataCount ecs ∧
   0 ≤ compDataCount ecs < ECS_MAX_COMPS ∧
   Z.of_nat (String.length name) < 64 ∧
   compDataCount ecs < Z.of_nat (length (compData ecs)) ∧
   sizeof_ComponentData + size_t (ECS_MAX_ENTITIES * size_t size) < 2 ^ 64 ∧
   ecs1 = mkECS (entities ecs) (compDataCount ecs + 1)
            (<[Z.to_nat (compDataCount ecs) :=
                 Some (mkComponentData (size_t size) name
                         (replicate
                            (Z.to_nat (size_t (ECS_MAX_ENTITIES * size_t size)))
                            0))]>
               (compData ecs))
            (nextSystemID ecs) (systemCount ecs) (systems ecs)).
Proof.
  unfold ecsDeclareComponent. intros H.
  apply bind_Done in H as (id0 & Hscan & H).
  destruct (Z.eqb_spec id0 ECS_MAX_COMPS) as [->|Hne]; simpl in H.
  - right. apply bind_Done in H as ([] & Hassert & H).
    apply ASSERT_Done in Hassert. apply Z.ltb_lt in Hassert.
    destruct (size_t (sizeof_ComponentData + _) <? _) eqn:Hblock;
      [discriminate|].
    apply size_t_sum_fits in Hblock;
      [|by vm_compute|apply size_t_range].
    destruct (Z.leb_spec 64 (Z.of_nat (String.length name))) as [|Hname];
      [discriminate|].
    apply bind_Done in H as (cds & Hstore & H).
    apply store_Done in Hstore as [Hidx ->].
    simplify_eq. unfold ECS_MAX_COMPS in *. rewrite u8_id by lia.
    repeat split; try done; lia.
  - left. by simplify_eq.
Qed.

Lemma ecsComponentID_from_extend
    (ecs ecs1 : ECS) (name : string) (cd : ComponentData) (fuel : nat) :
  compData ecs1
  = <[Z.to_nat (compDataCount ecs) := Some cd]> (compData ecs) →
  cd_id cd ≠ name →
  0 ≤ compDataCount ecs < ECS_MAX_COMPS →
  compDataCount ecs < Z.of_nat (length (compData ecs)) →
  (∀ j, 0 ≤ j < compDataCount ecs →
        ∃ cd', compData ecs !! Z.to_nat j = Some (Some cd')) →
  ∀ i, 0 ≤ i → i + Z.of_nat fuel = compDataCount ecs →
    ecsComponentID_from (S fuel) i ecs1 name
    = ecsComponentID_from fuel i ecs name.
Proof.
  unfold ECS_MAX_COMPS. intros Hcds Hne Hcount Hlen Hall.
  induction fuel as [|fuel IH]; intros i Hi Hsum.
  - simpl. rewrite Hcds.
    assert (i = compDataCount ecs) as -> by lia.
    rewrite (load_lookup _ _ (Some cd));
      [|lia|apply list_lookup_insert_eq; lia].
    simpl. apply String.eqb_neq in Hne. by rewrite Hne.
  - destruct (Hall i) as (cd' & Hcd'); [lia|].
    assert (Hcd1 : compData ecs1 !! Z.to_nat i = Some (Some cd'))
      by (rewrite Hcds; rewrite list_lookup_insert_ne; [done|lia]).
    change (ecsComponentID_from (S (S fuel)) i ecs1 name)
      with (p ← load (compData ecs1) i;
            match p with
            | None => Undefined
            | Some cd0 =>
                if String.eqb (cd_id cd0) name then Done i
                else ecsComponentID_from (S fuel) (u8 (i + 1)) ecs1 name
            end).
    rewrite (load_lookup (compData ecs1) i (Some cd')) by done.
    simpl. rewrite (load_lookup (compData ecs) i (Some cd')) by done. simpl.
    destruct (String.eqb (cd_id cd') name); [done|].
    rewrite u8_id by lia. apply IH; lia.
Qed.

(** The lookup reads the count and the names of the table and nothing
    else. *)
Lemma ecsComponentID_from_names (ecs ecs' : ECS) (name : string) (fuel : nat) :
  (option_map cd_id <$> compData ecs') = (option_map cd_id <$> compData ecs) →
  ∀ i, ecsComponentID_from fuel i ecs' name
       = ecsComponentID_from fuel i ecs name.
Proof.
  intros Hnames. induction fuel as [|fuel IH]; intros i; [done|].
  simpl. unfold load. destruct (i <? 0); [done|].
  assert (Hi : (option_map cd_id <$> compData ecs') !! Z.to_nat i
               = (option_map cd_id <$> compData ecs) !! Z.to_nat i)
    by (by rewrite Hnames).
  rewrite !list_lookup_fmap in Hi.
  destruct (compData ecs' !! Z.to_nat i) as [[cd'|]|],
           (compData ecs !! Z.to_nat i) as [[cd|]|];
    simpl in *; try done.
  assert (cd_id cd' = cd_id cd) as -> by congruence.
  destruct (String.eqb (cd_id cd) name); [done|]. apply IH.
Qed.

Lemma ecsComponentID_same (ecs ecs' : ECS) (name : string) :
  compDataCount ecs' = compDataCount ecs →
  (option_map cd_id <$> compData ecs') = (option_map cd_id <$> compData ecs) →
  ecsComponentID ecs' name = ecsComponentID ecs name.
Proof.
  intros Hc Hn. unfold ecsComponentID. rewrite Hc.
  by apply ecsComponentID_from_names.
Qed.

(** After a declaration the name is found under the ID that was returned. *)
Lemma ecsDeclareComponent_registers
    (ecs ecs1 : ECS) (name : string) (size id : Z) :
  ecsDeclareComponent name size ecs = Done (id, ecs1) →
  registeredAs name id ecs1.
Proof.
  intros Hdecl. unfold registeredAs.
  destruct (ecsDeclareComponent_inv _ _ _ _ _ Hdecl)
    as [(Hscan & Hne & ->)|(Hscan & -> & Hcount & Hname & Hlen & _ & ->)];
    [done|].
  split; [|lia].
  set (cd := mkComponentData (size_t size) name _).
  unfold ecsComponentID. simpl.
  apply (ecsComponentID_from_found _ _ _ _ _ cd); simpl; try done;
    try (unfold ECS_MAX_COMPS in *; lia).
  - intros j Hj.
    destruct (ecsComponentID_from_sentinel_inv ecs name
                (Z.to_nat (compDataCount ecs)) 0) with (j := j)
      as (cd' & Hcd' & Hne'); try done; try lia.
    exists cd'. split; [|done]. rewrite list_lookup_insert_ne; [done|lia].
  - apply list_lookup_insert_eq. lia.
Qed.

(** A declaration leaves the lookup of every other name as it was. *)
Lemma ecsDeclareComponent_other
    (ecs ecs1 : ECS) (name other : string) (size id : Z) :
  ecsDeclareComponent name size ecs = Done (id, ecs1) →
  other ≠ name →
  ecsComponentID ecs1 other = ecsComponentID ecs other.
Proof.
  intros Hdecl Hother.
  destruct (ecsDeclareComponent_inv _ _ _ _ _ Hdecl)
    as [(Hscan & Hne & ->)|(Hscan & -> & Hcount & Hname & Hlen & _ & ->)];
    [done|].
  set (cd := mkComponentData (size_t size) name _).
  unfold ecsComponentID. simpl.
  replace (Z.to_nat (compDataCount ecs + 1))
    with (S (Z.to_nat (compDataCount ecs))) by lia.
  apply (ecsComponentID_from_extend ecs _ other cd); simpl; try done;
    try lia.
  intros j Hj.
  destruct (ecsComponentID_from_sentinel_inv ecs name
              (Z.to_nat (compDataCount ecs)) 0) with (j := j)
    as (cd' & Hcd' & _); try done; try lia.
  by exists cd'.
Qed.

(** A name that is found is declared again without any effect. *)
Lemma registeredAs_redeclare (ecs : ECS) (name : string) (size id : Z) :
  registeredAs name id ecs →
  ecsDeclareComponent name size ecs = Done (id, ecs).
Proof.
  intros [Hscan Hne]. unfold ecsDeclareComponent. rewrite Hscan. simpl.
  by destruct (Z.eqb_spec id ECS_MAX_COMPS).
Qed.

Lemma ecsComponentID_unregistered (ecs : ECS) (name : string) :
  unregistered ecs name →
  0 ≤ compDataCount ecs ≤ ECS_MAX_COMPS →
  ecsComponentID ecs name = Done ECS_MAX_COMPS.
Proof.
  unfold ECS_MAX_COMPS at 1. intros Hun Hcount. unfold ecsComponentID.
  apply ecsComponentID_from_sentinel; [lia|lia|].
  intros j Hj. apply Hun. lia.
Qed.

(** ** System table *)

Lemma newSystem_result (mask it ud id : Z) (ecs ecs' : ECS) :
  newSystem mask it ud ecs = Done (id, ecs') →
  id = 0 ∧
  systems ecs' !! Z.to_nat (systemCount ecs)
  = Some (mkSystem (nextSystemID ecs) (cmask mask) it ud).
Proof.
  unfold newSystem. intros H. inv_done H. simplify_eq. split; [done|].
  simpl. apply list_lookup_insert_eq. lia.
Qed.

(** C3 (the code differs).  [newSystem] returns 0 whatever ID it stored in
    the new entry: of two registrations on a new registry both return 0,
    while the entries carry the IDs 0 and 1. *)
Theorem newSystem_returns_zero :
  ('(r0, ecs) ← newSystem 1 1 0 newECS;
   '(r1, ecs) ← newSystem 2 1 0 ecs;
   Done (r0, r1, systemIDs ecs))
  = Done (0, 0, [0; 1]).
Proof. vm_compute. reflexivity. Qed.

(** Whenever [destroySystem] finds the ID, the entry it found is still in
    its place afterwards. *)
Lemma destroySystem_found_stays (ecs ecs' : ECS) (id k : Z) (x : unit) :
  findSystem ecs (u8 id) = Done (Some k) →
  destroySystem id ecs = Done (x, ecs') →
  systems ecs' !! Z.to_nat k = systems ecs !! Z.to_nat k ∧
  systemCount ecs' = u8 (systemCount ecs - 1).
Proof.
  intros Hfind H. unfold destroySystem in H. rewrite Hfind in H.
  simpl in H. inv_done H. unfold memmove in Ha0. inv_done Ha0.
  simplify_eq. simpl. split; [|done].
  rewrite lookup_app_l by (rewrite length_take; lia).
  apply lookup_take_lt. lia.
Qed.

(** C4 (the code differs).  [destroySystem] moves the entries from the found
    one onwards up by one instead of moving the later ones down: on the
    table with IDs 0, 1, 2 removing 0 leaves 0, 0 and removing 1 leaves
    0, 1; only the last entry is removed as described, and an ID that is
    not in the table leaves the registry as it is. *)
Theorem destroySystem_keeps_found_entry :
  (ecs ← threeSystems;
   '(_, a) ← destroySystem 0 ecs;
   '(_, b) ← destroySystem 1 ecs;
   '(_, c) ← destroySystem 2 ecs;
   '(_, d) ← destroySystem 7 ecs;
   Done (systemIDs ecs,
         (systemCount a, systemIDs a), (systemCount b, systemIDs b),
         (systemCount c, systemIDs c), (systemCount d, systemIDs d)))
  = Done ([0; 1; 2], (2, [0; 0]), (2, [0; 1]), (2, [0; 1]), (3, [0; 1; 2])).
Proof. vm_compute. reflexivity. Qed.

(** ** Matching *)

Lemma matchEntities_from_record (mask ud : Z) (ecs : ECS) (fuel : nat) :
  ∀ i calls,
    0 ≤ i → i + Z.of_nat fuel ≤ 65536 →
    (Z.to_nat i + fuel ≤ length (data (entities ecs)))%nat →
    matchEntities_from fuel i mask recordCall ud ecs calls
    = Done (ecs, calls ++ matchingHandles mask i
                   (take fuel (drop (Z.to_nat i) (data (entities ecs))))).
Proof.
  induction fuel as [|fuel IH]; intros i calls Hi Hle Hlen.
  - simpl. by rewrite app_nil_r.
  - destruct (lookup_lt_is_Some_2 (data (entities ecs)) (Z.to_nat i))
      as [d Hd]; [lia|].
    rewrite (drop_S _ d) by done. simpl.
    rewrite (load_lookup _ _ d) by done. simpl.
    assert (Hnext : drop (S (Z.to_nat i)) (data (entities ecs))
                    = drop (Z.to_nat (i + 1)) (data (entities ecs)))
      by (f_equal; lia).
    assert (Hrec : ∀ calls',
      matchEntities_from fuel (u16 (i + 1)) mask recordCall ud ecs calls'
      = Done (ecs, calls' ++ matchingHandles mask (i + 1)
                     (take fuel (drop (S (Z.to_nat i)) (data (entities ecs)))))).
    { intros calls'. destruct fuel as [|fuel'].
      - simpl. by rewrite app_nil_r.
      - rewrite u16_id, Hnext by lia. apply IH; lia. }
    destruct (Z.land (flags d) kEntityUnused =? 0); simpl; [|apply Hrec].
    destruct (Z.land (components d) mask =? mask); simpl; [|apply Hrec].
    rewrite Hrec. by rewrite <- app_assoc.
Qed.

Lemma matchEntities_record (mask ud : Z) (ecs : ECS) (calls : list Entity) :
  length (data (entities ecs)) = Z.to_nat ECS_MAX_ENTITIES →
  matchEntities mask recordCall ud ecs calls
  = Done (ecs, calls ++ matchingHandles (cmask mask) 0 (data (entities ecs))).
Proof.
  intros Hlen. rewrite matchEntities_unfold.
  rewrite matchEntities_from_record; unfold ECS_MAX_ENTITIES in *; try lia.
  rewrite <- Hlen. change (Z.to_nat 0) with 0%nat. by rewrite drop_0, firstn_all.
Qed.

(** C2 (the code differs).  The unused flag is tested but never set, so
    [matchEntities] visits every slot whose mask contains [mask], used or
    not: with the empty mask on a registry whose single entity has been
    destroyed, all 128 slots are on the free stack and the callback is
    still called once for each of them, first with the current handle of
    the destroyed slot. *)
Theorem matchEntities_visits_free_slots :
  ('(e, ecs) ← newEntity newECS;
   '(_, ecs) ← destroyEntity e ecs;
   '(_, calls) ← matchEntities 0 recordCall 0 ecs [];
   Done (e, freeSlots ecs, calls))
  = Done (createHandle 0 0,
          map Z.of_nat (rev (seq 0 128)),
          createHandle 0 1
            :: map (λ i, createHandle (Z.of_nat i) 0) (seq 1 127)).
Proof. vm_compute. reflexivity. Qed.

(** ** Invariants of host programs *)

Section Invariant.

Context {U : Type}.
Variable P : ECS → Prop.
Hypothesis HP : api_invariant P.

Lemma matchEntities_from_invariant (it : ECSIterator U) (mask ud : Z) :
  preserves P it →
  ∀ fuel i ecs u ecs' u',
    P ecs →
    matchEntities_from fuel i mask it ud ecs u = Done (ecs', u') → P ecs'.
Proof.
  intros Hit. induction fuel as [|fuel IH]; intros i ecs u ecs' u' HPe H.
  - simpl in H. by simplify_eq.
  - simpl in H. apply bind_Done in H as (d & _ & H).
    destruct (negb (Z.land (flags d) kEntityUnused =? 0)); [by eapply IH|].
    destruct (negb (Z.land (components d) mask =? mask)); [by eapply IH|].
    apply bind_Done in H as ([ecs1 u1] & Hcall & H).
    eapply IH; [|exact H]. by eapply Hit.
Qed.

Lemma matchEntities_invariant (it : ECSIterator U) (mask ud : Z) :
  preserves P it →
  ∀ ecs u ecs' u',
    P ecs → matchEntities mask it ud ecs u = Done (ecs', u') → P ecs'.
Proof.
  intros Hit ecs u ecs' u'. rewrite matchEntities_unfold.
  apply matchEntities_from_invariant, Hit.
Qed.

Lemma ecsTick_from_invariant (callback : Z → ECSIterator U) :
  (∀ f, preserves P (callback f)) →
  ∀ fuel i ecs u ecs' u',
    P ecs → ecsTick_from fuel i callback ecs u = Done (ecs', u') → P ecs'.
Proof.
  intros Hcb. induction fuel as [|fuel IH]; intros i ecs u ecs' u' HPe H.
  - simpl in H. by simplify_eq.
  - simpl in H. destruct (i <? systemCount ecs); [|by simplify_eq].
    apply bind_Done in H as (s & _ & H).
    apply bind_Done in H as ([ecs1 u1] & Hmatch & H).
    eapply IH; [|exact H]. eapply matchEntities_invariant; [apply Hcb|done..].
Qed.

Lemma ecsTick_invariant (callback : Z → ECSIterator U) :
  (∀ f, preserves P (callback f)) →
  ∀ ecs u ecs' u',
    P ecs → ecsTick callback ecs u = Done (ecs', u') → P ecs'.
Proof.
  intros Hcb ecs u ecs' u'. rewrite ecsTick_unfold.
  by apply ecsTick_from_invariant.
Qed.

Variable code : Z → Entity → Z → client U.

Lemma run_invariant (fuel : nat) :
  ∀ c ecs u ecs' u',
    P ecs → run code fuel c ecs u = Done (ecs', u') → P ecs'.
Proof.
  induction fuel as [|fuel IH]; intros c ecs u ecs' u' HPe H; [discriminate|].
  assert (Hcb : ∀ f,
    preserves P (λ ecs e d u, run code fuel (code f e d) ecs u)).
  { intros f ecs0 e d u0 ecs1 u1. apply IH. }
  destruct c; simpl in H;
    try (apply bind_Done in H as (a & Hcall & H); try destruct a as [a1 a2]).
  - by simplify_eq.
  - by eapply IH.
  - eapply IH; [|exact H]. by eapply inv_writeByte.
  - by eapply IH.
  - eapply IH; [|exact H]. by eapply inv_ecsDeclareComponent.
  - by eapply IH.
  - eapply IH; [|exact H]. by eapply inv_newEntity.
  - eapply IH; [|exact H]. by eapply inv_newEntityWithArchetype.
  - by eapply IH.
  - eapply IH; [|exact H]. by eapply inv_destroyEntity.
  - eapply IH; [|exact H]. by eapply inv_addComponentID.
  - eapply IH; [|exact H]. by eapply inv_getComponentID.
  - eapply IH; [|exact H]. by eapply inv_removeComponentID.
  - eapply IH; [|exact H]. by eapply inv_newSystem.
  - eapply IH; [|exact H]. by eapply inv_destroySystem.
  - eapply IH; [|exact H]. eapply ecsTick_invariant; [exact Hcb|done..].
  - eapply IH; [|exact H]. eapply matchEntities_invariant; [apply Hcb|done..].
Qed.

End Invariant.

Lemma reachable_invariant (P : ECS → Prop) (ecs : ECS) :
  api_invariant P → P newECS → reachable ecs → P ecs.
Proof.
  intros HP Hnew (U & code & fuel & c & u0 & u & Hrun).
  by eapply (run_invariant P HP code fuel).
Qed.

(** ** The flags of reachable registries *)

Lemma slotsOK_insert (ecs : ECS) (pool : EntityPool) (i : nat) (d : EntityData) :
  slotsOK ecs → 0 ≤ info d < 256 →
  data pool = <[i := d]> (data (entities ecs)) →
  slotsOK (set_entities pool ecs).
Proof.
  intros [Hlen Hall] Hd Hpool. unfold slotsOK. simpl. rewrite Hpool.
  split; [by rewrite length_insert|]. by apply Forall_insert.
Qed.

Lemma slotsOK_same_slots (ecs ecs' : ECS) :
  data (entities ecs') = data (entities ecs) → slotsOK ecs → slotsOK ecs'.
Proof. unfold slotsOK. by intros ->. Qed.

Lemma slotsOK_lookup (ecs : ECS) (i : nat) (d : EntityData) :
  slotsOK ecs → data (entities ecs) !! i = Some d → 0 ≤ info d < 256.
Proof. intros [_ Hall] Hd. by apply (Forall_lookup_1 _ _ _ _ Hall Hd). Qed.

Lemma slotsOK_newECS : slotsOK newECS.
Proof.
  split; [done|].
  change (data (entities newECS))
    with (replicate (Z.to_nat ECS_MAX_ENTITIES) (mkEntityData 0 0)).
  apply Forall_replicate. simpl. lia.
Qed.

Lemma slotsOK_api : api_invariant slotsOK.
Proof.
  split.
  - intros p b ecs ecs' HP H. unfold writeByte in H. inv_done H.
    simplify_eq. by eapply slotsOK_same_slots.
  - intros name size ecs id ecs' HP H. unfold ecsDeclareComponent in H.
    inv_done H; simplify_eq; [done|]. by eapply slotsOK_same_slots.
  - intros ecs e ecs' HP H.
    apply newEntity_Done in H as (id & d & _ & _ & _ & ->).
    eapply slotsOK_insert; [done| |done]. simpl. apply u8_range.
  - intros m ecs e ecs' HP H. unfold newEntityWithArchetype in H.
    inv_done H. simplify_eq.
    apply newEntity_Done in Ha as (id & d & _ & _ & _ & ->).
    assert (HP1 : slotsOK
      (set_entities
         (mkEntityPool (u16 (freeCount (entities ecs) - 1))
            (freeList (entities ecs))
            (<[Z.to_nat id := createEntityData (generation d)]>
               (data (entities ecs)))) ecs)).
    { eapply slotsOK_insert; [done| |done]. simpl. apply u8_range. }
    eapply slotsOK_insert; [exact HP1| |done].
    simpl. by eapply slotsOK_lookup.
  - intros e ecs x ecs' HP H.
    apply destroyEntity_Done in H as (d & _ & [[_ ->]|[_ Hdat]]); [done|].
    destruct HP as [Hlen Hall]. unfold slotsOK. rewrite Hdat.
    split; [by rewrite length_insert|].
    apply Forall_insert; [done|]. simpl. apply u8_range.
  - intros e X ecs p ecs' HP H. unfold addComponentID in H.
    inv_done H. simplify_eq.
    eapply slotsOK_insert; [done| |done]. simpl. by eapply slotsOK_lookup.
  - intros e X ecs p ecs' HP H. unfold getComponentID in H.
    inv_done H; by simplify_eq.
  - intros e X ecs x ecs' HP H. unfold removeComponentID in H.
    inv_done H. simplify_eq.
    eapply slotsOK_insert; [done| |done]. simpl. by eapply slotsOK_lookup.
  - intros m f d ecs id ecs' HP H. unfold newSystem in H.
    inv_done H. simplify_eq. by eapply slotsOK_same_slots.
  - intros id ecs x ecs' HP H. unfold destroySystem in H.
    inv_done H; simplify_eq; [|done].
    unfold memmove in Ha1. inv_done Ha1. simplify_eq.
    by eapply slotsOK_same_slots.
Qed.

Lemma matchingHandles_flags_clear (mask : Z) (l : list EntityData) :
  Forall (λ d, 0 ≤ info d < 256) l →
  ∀ i, matchingHandles mask i l = supersetHandles mask i l.
Proof.
  induction 1 as [|d l Hd Hl IH]; intros i; [done|].
  simpl. rewrite IH, flags_of_generation_byte by done. done.
Qed.

(** C9. In every registry a host program can reach from [newECS ()], the
    flags of every slot (bits 16 to 31 of [info]) are zero; so the test of
    [kEntityUnused] in [matchEntities] excludes no slot, and the callback is
    called for exactly the slots whose mask contains the requested one. *)
Theorem flags_always_zero (ecs : ECS) :
  reachable ecs →
  (∀ i d, data (entities ecs) !! i = Some d →
          flags d = 0 ∧ Z.land (flags d) kEntityUnused = 0) ∧
  (∀ mask ud calls,
     matchEntities mask recordCall ud ecs calls
     = Done (ecs, calls ++ supersetHandles (cmask mask) 0
                             (data (entities ecs)))).
Proof.
  intros Hreach.
  assert (Hok : slotsOK ecs)
    by (apply (reachable_invariant slotsOK);
        [apply slotsOK_api | apply slotsOK_newECS | done]).
  split.
  - intros i d Hd.
    rewrite flags_of_generation_byte by (by eapply slotsOK_lookup). done.
  - intros mask ud calls. destruct Hok as [Hlen Hall].
    rewrite matchEntities_record by done.
    by rewrite matchingHandles_flags_clear.
Qed.

Lemma demoECS_reachable : reachable demoECS.
Proof.
  exists unit, demoCode, 16%nat, demoClient, tt, tt.
  vm_compute. reflexivity.
Qed.

Lemma flags_always_zero_witness :
  reachable demoECS ∧
  (∀ i d, data (entities demoECS) !! i = Some d →
          flags d = 0 ∧ Z.land (flags d) kEntityUnused = 0) ∧
  (∀ mask ud calls,
     matchEntities mask recordCall ud demoECS calls
     = Done (demoECS, calls ++ supersetHandles (cmask mask) 0
                                 (data (entities demoECS)))).
Proof.
  split; [exact demoECS_reachable|].
  exact (flags_always_zero demoECS demoECS_reachable).
Defined.

(** * Further properties *)

(** ** Handles *)

(** X1. Handles are an exact encoding of (index, generation) pairs: a
    16-bit index and a generation byte are read back from the handle built
    from them, every such handle fits in 24 bits, and a value below [2^24]
    is the handle of its own index and generation. *)
Theorem handle_round_trip (i g h : Z) :
  0 ≤ i < 65536 → 0 ≤ g < 256 → 0 ≤ h < 2 ^ 24 →
  entityIndex (createHandle i g) = i ∧
  entityGen (createHandle i g) = g ∧
  0 ≤ createHandle i g < 2 ^ 24 ∧
  createHandle (entityIndex h) (entityGen h) = h.
Proof.
  intros Hi Hg Hh.
  rewrite entityIndex_createHandle, entityGen_createHandle.
  rewrite (u16_id i), (u8_id g) by lia.
  repeat split; try apply createHandle_range. by apply createHandle_decode.
Qed.

Lemma handle_round_trip_witness :
  entityIndex (createHandle 5 3) = 5 ∧
  entityGen (createHandle 5 3) = 3 ∧
  0 ≤ createHandle 5 3 < 2 ^ 24 ∧
  createHandle (entityIndex 196613) (entityGen 196613) = 196613.
Proof. apply handle_round_trip; lia. Defined.

(** ** The slot pool *)

(** X2. The pool is a stack.  Returning the index just taken restores the
    pool exactly; taking an index right after one was returned yields that
    index and the free count from before. *)
Theorem pool_is_lifo (pool : EntityPool) (id : Z) :
  0 ≤ freeCount pool ≤ ECS_MAX_ENTITIES →
  (∀ pool', newEntityFromPool pool = Done (id, pool') →
            returnEntityToPool pool' id = Done pool) ∧
  (∀ pool', returnEntityToPool pool id = Done pool' →
            newEntityFromPool pool'
            = Done (id, set_freeCount (freeCount pool) pool')).
Proof.
  unfold ECS_MAX_ENTITIES. intros Hfc. split; intros pool' H.
  - unfold newEntityFromPool in H. inv_done H. simplify_eq.
    apply negb_true_iff, Z.eqb_neq in Ha.
    rewrite u16_id in * by lia.
    unfold returnEntityToPool. simpl.
    destruct (Z.ltb_spec (freeCount pool - 1) ECS_MAX_ENTITIES);
      [|unfold ECS_MAX_ENTITIES in *; lia].
    simpl. rewrite (store_lookup _ _ _ id) by (done || lia). simpl.
    rewrite list_insert_id by done.
    replace (freeCount pool - 1 + 1) with (freeCount pool) by lia.
    rewrite u16_id by lia. by destruct pool.
  - unfold returnEntityToPool in H. inv_done H. simplify_eq.
    apply Z.ltb_lt in Ha. unfold ECS_MAX_ENTITIES in Ha.
    unfold newEntityFromPool. simpl.
    rewrite (u16_id (freeCount pool + 1)) by lia.
    destruct (Z.eqb_spec (freeCount pool + 1) 0); [lia|]. simpl.
    replace (freeCount pool + 1 - 1) with (freeCount pool) by lia.
    rewrite u16_id by lia.
    rewrite (load_lookup _ _ id); [done|lia|].
    apply list_lookup_insert_eq. lia.
Qed.

Lemma pool_is_lifo_witness :
  returnEntityToPool
    (set_freeCount 127 initEntityPool) 0 = Done initEntityPool ∧
  newEntityFromPool initEntityPool
  = Done (0, set_freeCount 127 initEntityPool).
Proof.
  assert (Hfc : 0 ≤ freeCount initEntityPool ≤ ECS_MAX_ENTITIES)
    by (by vm_compute).
  assert (Hpop : newEntityFromPool initEntityPool
                 = Done (0, set_freeCount 127 initEntityPool))
    by (vm_compute; reflexivity).
  split; [|exact Hpop].
  exact (proj1 (pool_is_lifo initEntityPool 0 Hfc) _ Hpop).
Defined.

Lemma initFreeList_lookup (n : nat) :
  ∀ i j, (j < n)%nat →
    initFreeList n i !! j = Some (u16 (ECS_MAX_ENTITIES - (i + Z.of_nat j + 1))).
Proof.
  induction n as [|n IH]; intros i j Hj; [lia|].
  destruct j as [|j]; simpl.
  - do 2 f_equal. lia.
  - rewrite IH by lia. do 3 f_equal. lia.
Qed.

Lemma initFreeList_length (n : nat) : ∀ i, length (initFreeList n i) = n.
Proof. induction n as [|n IH]; intros i; simpl; [done|]. by rewrite IH. Qed.

Lemma generation_zero : generation (mkEntityData 0 0) = 0.
Proof. by vm_compute. Qed.

Lemma createEntityData_zero : createEntityData 0 = mkEntityData 0 0.
Proof. by vm_compute. Qed.

Lemma newEntity_returns (ecs : ECS) (id : Z) (d : EntityData) :
  0 < freeCount (entities ecs) ≤ 65536 →
  freeList (entities ecs) !! Z.to_nat (freeCount (entities ecs) - 1) = Some id →
  0 ≤ id →
  data (entities ecs) !! Z.to_nat id = Some d →
  newEntity ecs
  = Done (createHandle id (generation d),
          set_entities
            (mkEntityPool (freeCount (entities ecs) - 1)
               (freeList (entities ecs))
               (<[Z.to_nat id := createEntityData (generation d)]>
                  (data (entities ecs))))
            ecs).
Proof.
  intros Hfc Hfl Hid Hd. unfold newEntity, newEntityFromPool.
  destruct (Z.eqb_spec (freeCount (entities ecs)) 0); [lia|]. simpl.
  rewrite (u16_id (freeCount (entities ecs) - 1)) by lia.
  rewrite (load_lookup _ _ id) by (done || lia). simpl.
  rewrite (load_lookup _ _ d) by (done || lia). simpl.
  by rewrite (store_lookup _ _ _ d) by (done || lia).
Qed.

Lemma newEntity_afterCreations (k : Z) :
  0 ≤ k < ECS_MAX_ENTITIES →
  newEntity (afterCreations k)
  = Done (createHandle k 0, afterCreations (k + 1)).
Proof.
  unfold ECS_MAX_ENTITIES. intros Hk.
  assert (Hfc : freeCount (entities (afterCreations k)) = 128 - k) by done.
  assert (Hfl : freeList (entities (afterCreations k)) !! Z.to_nat (128 - k - 1)
                = Some k).
  { change (freeList (entities (afterCreations k)))
      with (initFreeList 128 0).
    rewrite initFreeList_lookup by lia. change ECS_MAX_ENTITIES with 128.
    f_equal. rewrite u16_id by lia. lia. }
  assert (Hd : data (entities (afterCreations k)) !! Z.to_nat k
               = Some (mkEntityData 0 0)).
  { change (data (entities (afterCreations k)))
      with (replicate 128 (mkEntityData 0 0)).
    apply lookup_replicate_2. lia. }
  rewrite (newEntity_returns _ k (mkEntityData 0 0)); rewrite ?Hfc; try done;
    try lia.
  rewrite generation_zero, createEntityData_zero.
  rewrite list_insert_id by done.
  unfold afterCreations, set_entities, set_freeCount.
  change ECS_MAX_ENTITIES with 128.
  replace (128 - (k + 1)) with (128 - k - 1) by lia. done.
Qed.

(** X3. A new registry hands out the slots 0, 1, ..., 127 in this order,
    each with generation 0, and the call after the 128th stops in
    [abort()]. *)
Theorem new_registry_hands_out_slots_in_order (k : nat) :
  (k ≤ 128)%nat →
  runEntityOps (replicate k OpNew) newECS = Done (afterCreations (Z.of_nat k)) ∧
  newEntity (afterCreations (Z.of_nat k))
  = if (k <? 128)%nat
    then Done (createHandle (Z.of_nat k) 0, afterCreations (Z.of_nat k + 1))
    else Abort.
Proof.
  intros Hk. split.
  - assert (Hgen : ∀ n i, (i + n ≤ 128)%nat →
      runEntityOps (replicate n OpNew) (afterCreations (Z.of_nat i))
      = Done (afterCreations (Z.of_nat (i + n)))).
    { induction n as [|n IH]; intros i Hi; simpl.
      - by rewrite Nat.add_0_r.
      - rewrite newEntity_afterCreations by (unfold ECS_MAX_ENTITIES; lia).
        simpl. replace (Z.of_nat i + 1) with (Z.of_nat (S i)) by lia.
        rewrite IH by lia. do 2 f_equal. lia. }
    apply (Hgen k 0%nat). lia.
  - destruct (Nat.ltb_spec k 128).
    + apply newEntity_afterCreations. unfold ECS_MAX_ENTITIES. lia.
    + assert (k = 128%nat) as -> by lia. by vm_compute.
Qed.

Lemma new_registry_hands_out_slots_in_order_witness :
  runEntityOps (replicate 3 OpNew) newECS = Done (afterCreations 3) ∧
  newEntity (afterCreations 3) = Done (createHandle 3 0, afterCreations 4).
Proof. apply (new_registry_hands_out_slots_in_order 3). lia. Defined.

(** ** Creating and destroying entities *)

Lemma newEntity_inv (ecs ecs' : ECS) (h : Entity) :
  newEntity ecs = Done (h, ecs') →
  ∃ id d,
    freeCount (entities ecs) ≠ 0 ∧
    0 ≤ id < Z.of_nat (length (data (entities ecs))) ∧
    freeList (entities ecs) !! Z.to_nat (u16 (freeCount (entities ecs) - 1))
    = Some id ∧
    data (entities ecs) !! Z.to_nat id = Some d ∧
    h = createHandle id (generation d) ∧
    ecs' = set_entities
             (mkEntityPool
                (u16 (freeCount (entities ecs) - 1))
                (freeList (entities ecs))
                (<[Z.to_nat id := createEntityData (generation d)]>
                   (data (entities ecs))))
             ecs.
Proof.
  unfold newEntity, newEntityFromPool. intros H. inv_done H.
  inv_done Ha. simplify_eq. simpl in *.
  apply Z.eqb_neq in Hb. eauto 10.
Qed.

Lemma destroyEntity_returns (ecs : ECS) (h : Entity) :
  isEntityValid ecs h = Done true →
  0 ≤ freeCount (entities ecs) < ECS_MAX_ENTITIES →
  (Z.to_nat (freeCount (entities ecs)) < length (freeList (entities ecs)))%nat →
  destroyEntity h ecs
  = Done (tt,
          set_entities
            (mkEntityPool
               (freeCount (entities ecs) + 1)
               (<[Z.to_nat (freeCount (entities ecs)) := entityIndex h]>
                  (freeList (entities ecs)))
               (<[Z.to_nat (entityIndex h) := createEntityData (entityGen h + 1)]>
                  (data (entities ecs))))
            ecs).
Proof.
  intros Hvalid Hfc Hlen. pose proof (entityIndex_range h).
  destruct (proj1 (isEntityValid_Done _ _ _) Hvalid) as (d & Hd & _).
  unfold destroyEntity. rewrite Hvalid. simpl.
  rewrite (store_lookup _ _ _ d) by (done || lia). simpl.
  unfold returnEntityToPool. simpl.
  destruct (Z.ltb_spec (freeCount (entities ecs)) ECS_MAX_ENTITIES); [|lia].
  simpl. unfold store.
  destruct (Z.leb_spec 0 (freeCount (entities ecs))); [|lia].
  destruct (Z.ltb_spec (freeCount (entities ecs))
              (Z.of_nat (length (freeList (entities ecs))))); [|lia].
  simpl. unfold ECS_MAX_ENTITIES in *. by rewrite u16_id by lia.
Qed.

(** X4. Destroying a valid handle while the pool is not full advances the
    generation byte of its slot by one, empties the slot's mask and puts the
    slot on top of the free stack; no other slot and nothing else in the
    registry changes. *)
Theorem destroyEntity_releases_slot (ecs : ECS) (h : Entity) :
  sized ecs →
  isEntityValid ecs h = Done true →
  0 ≤ freeCount (entities ecs) < ECS_MAX_ENTITIES →
  ∃ ecs',
    destroyEntity h ecs = Done (tt, ecs') ∧
    data (entities ecs') !! Z.to_nat (entityIndex h)
    = Some (mkEntityData (u8 (entityGen h + 1)) 0) ∧
    (∀ j, j ≠ Z.to_nat (entityIndex h) →
          data (entities ecs') !! j = data (entities ecs) !! j) ∧
    freeSlots ecs' = freeSlots ecs ++ [entityIndex h] ∧
    compDataCount ecs' = compDataCount ecs ∧
    compData ecs' = compData ecs ∧
    nextSystemID ecs' = nextSystemID ecs ∧
    systemCount ecs' = systemCount ecs ∧
    systems ecs' = systems ecs.
Proof.
  intros (Hfl & Hdat & _ & _) Hvalid Hfc.
  destruct (proj1 (isEntityValid_Done _ _ _) Hvalid) as (d & Hd & _).
  assert (Hlen : (Z.to_nat (freeCount (entities ecs))
                  < length (freeList (entities ecs)))%nat)
    by (rewrite Hfl; unfold ECS_MAX_ENTITIES in *; lia).
  eexists. split; [by apply destroyEntity_returns|]. simpl.
  split; [apply list_lookup_insert_eq; by apply lookup_lt_Some in Hd|].
  split; [intros j Hj; by apply list_lookup_insert_ne|].
  split; [|done].
  unfold freeSlots. simpl.
  replace (Z.to_nat (freeCount (entities ecs) + 1))
    with (S (Z.to_nat (freeCount (entities ecs)))) by lia.
  rewrite (take_S_r _ _ (entityIndex h))
    by (by apply list_lookup_insert_eq).
  by rewrite take_insert_ge by lia.
Qed.

Lemma destroyEntity_releases_slot_witness :
  ∃ ecs',
    destroyEntity (createHandle 0 0) firstEntityECS = Done (tt, ecs') ∧
    data (entities ecs') !! 0%nat = Some (mkEntityData 1 0) ∧
    freeSlots ecs' = freeSlots firstEntityECS ++ [0].
Proof.
  destruct (destroyEntity_releases_slot firstEntityECS (createHandle 0 0))
    as (ecs' & Hd & Hslot & _ & Hfree & _).
  - by repeat split.
  - vm_compute. reflexivity.
  - by vm_compute.
  - exists ecs'. split; [exact Hd|]. split; [exact Hslot|exact Hfree].
Defined.

(** X5. When every slot is on the free stack, [destroyEntity] of a handle
    that [isEntityValid] accepts stops in the assertion of the pool
    instead of returning. *)
Theorem destroyEntity_full_pool_aborts (ecs : ECS) (h : Entity) :
  isEntityValid ecs h = Done true →
  ECS_MAX_ENTITIES ≤ freeCount (entities ecs) →
  destroyEntity h ecs = Abort.
Proof.
  intros Hvalid Hfc. pose proof (entityIndex_range h).
  destruct (proj1 (isEntityValid_Done _ _ _) Hvalid) as (d & Hd & _).
  unfold destroyEntity. rewrite Hvalid. simpl.
  rewrite (store_lookup _ _ _ d) by (done || lia). simpl.
  unfold returnEntityToPool. simpl.
  by destruct (Z.ltb_spec (freeCount (entities ecs)) ECS_MAX_ENTITIES); [lia|].
Qed.

Lemma destroyEntity_full_pool_aborts_witness :
  isEntityValid newECS (createHandle 5 0) = Done true ∧
  destroyEntity (createHandle 5 0) newECS = Abort.
Proof.
  split; [vm_compute; reflexivity|].
  apply destroyEntity_full_pool_aborts; [vm_compute; reflexivity|].
  by vm_compute.
Defined.

(** X6. [isEntityValid] compares generations only and does not look at the
    free stack: right after a handle was destroyed, the handle with the
    slot's next generation is accepted although the slot is free; and on a
    new registry, where no entity exists, the handle of generation 0 of
    every slot is accepted. *)
Theorem isEntityValid_accepts_free_slots (ecs ecs' : ECS) (h : Entity) (i : Z) :
  sized ecs →
  isEntityValid ecs h = Done true →
  0 ≤ freeCount (entities ecs) < ECS_MAX_ENTITIES →
  destroyEntity h ecs = Done (tt, ecs') →
  0 ≤ i < ECS_MAX_ENTITIES →
  entityIndex h ∈ freeSlots ecs' ∧
  isEntityValid ecs' (createHandle (entityIndex h) (entityGen h + 1))
  = Done true ∧
  freeCount (entities newECS) = ECS_MAX_ENTITIES ∧
  isEntityValid newECS (createHandle i 0) = Done true.
Proof.
  intros Hsized Hvalid Hfc Hdestroy Hi.
  destruct (proj1 (isEntityValid_Done _ _ _) Hvalid) as (d & Hd & _).
  assert (Hlen : (Z.to_nat (freeCount (entities ecs))
                  < length (freeList (entities ecs)))%nat)
    by (destruct Hsized as [-> _]; unfold ECS_MAX_ENTITIES in *; lia).
  rewrite (destroyEntity_returns ecs h Hvalid Hfc Hlen) in Hdestroy.
  assert (Hslot : data (entities ecs') !! Z.to_nat (entityIndex h)
                  = Some (createEntityData (entityGen h + 1))).
  { simplify_eq. simpl. apply list_lookup_insert_eq.
    by apply lookup_lt_Some in Hd. }
  assert (Hfree : freeSlots ecs' = freeSlots ecs ++ [entityIndex h]).
  { simplify_eq. unfold freeSlots. simpl.
    replace (Z.to_nat (freeCount (entities ecs) + 1))
      with (S (Z.to_nat (freeCount (entities ecs)))) by lia.
    rewrite (take_S_r _ _ (entityIndex h))
      by (by apply list_lookup_insert_eq).
    by rewrite take_insert_ge by lia. }
  pose proof (entityIndex_range h) as Hidx.
  assert (Hlt : entityIndex h < 65536) by lia.
  split; [rewrite Hfree; apply elem_of_app; right; apply list_elem_of_here|].
  split; [|split; [done|]].
  - apply isEntityValid_Done. eexists. split.
    + rewrite entityIndex_createHandle, u16_id by lia. exact Hslot.
    + rewrite entityGen_createHandle. symmetry. apply Z.eqb_eq.
      by rewrite generation_createEntityData.
  - unfold ECS_MAX_ENTITIES in Hi. apply isEntityValid_Done.
    exists (mkEntityData 0 0). split.
    + rewrite entityIndex_createHandle, u16_id by lia.
      change (data (entities newECS)) with (replicate 128 (mkEntityData 0 0)).
      apply lookup_replicate_2. lia.
    + rewrite entityGen_createHandle, generation_zero. by vm_compute.
Qed.

Lemma isEntityValid_accepts_free_slots_witness :
  ∃ ecs',
    destroyEntity (createHandle 0 0) firstEntityECS = Done (tt, ecs') ∧
    0 ∈ freeSlots ecs' ∧
    isEntityValid ecs' (createHandle 0 1) = Done true ∧
    isEntityValid newECS (createHandle 7 0) = Done true.
Proof.
  assert (Hs : sized firstEntityECS) by (by repeat split).
  assert (Hv : isEntityValid firstEntityECS (createHandle 0 0) = Done true)
    by (vm_compute; reflexivity).
  assert (Hfc : 0 ≤ freeCount (entities firstEntityECS) < ECS_MAX_ENTITIES)
    by (by vm_compute).
  assert (∃ ecs', destroyEntity (createHandle 0 0) firstEntityECS
                    = Done (tt, ecs')) as (ecs' & Hd).
  { eexists. apply destroyEntity_returns; [exact Hv|exact Hfc|].
    by vm_compute. }
  assert (Hi : 0 ≤ 7 < ECS_MAX_ENTITIES) by (by vm_compute).
  destruct (isEntityValid_accepts_free_slots
              firstEntityECS ecs' (createHandle 0 0) 7 Hs Hv Hfc Hd Hi)
    as (Hin & Hvalid & _ & Hnew).
  exists ecs'. split; [exact Hd|]. split; [exact Hin|].
  split; [exact Hvalid|exact Hnew].
Defined.

(** X7. The slot destroyed last is the slot handed out next: after
    [destroyEntity] of a valid handle, [newEntity] returns the handle with
    the same index and the next generation. *)
Theorem destroyed_slot_is_reused_first (ecs ecs' : ECS) (h : Entity) :
  sized ecs →
  isEntityValid ecs h = Done true →
  0 ≤ freeCount (entities ecs) < ECS_MAX_ENTITIES →
  destroyEntity h ecs = Done (tt, ecs') →
  ∃ ecs'',
    newEntity ecs'
    = Done (createHandle (entityIndex h) (entityGen h + 1), ecs'').
Proof.
  intros Hsized Hvalid Hfc Hdestroy.
  destruct (proj1 (isEntityValid_Done _ _ _) Hvalid) as (d & Hd & _).
  pose proof (entityIndex_range h) as Hidx.
  assert (Hlen : (Z.to_nat (freeCount (entities ecs))
                  < length (freeList (entities ecs)))%nat)
    by (destruct Hsized as [-> _]; unfold ECS_MAX_ENTITIES in *; lia).
  rewrite (destroyEntity_returns ecs h Hvalid Hfc Hlen) in Hdestroy.
  simplify_eq. eexists.
  rewrite (newEntity_returns _ (entityIndex h)
             (createEntityData (entityGen h + 1))); simpl.
  - by rewrite generation_createEntityData, createHandle_u8.
  - unfold ECS_MAX_ENTITIES in Hfc. lia.
  - replace (freeCount (entities ecs) + 1 - 1)
      with (freeCount (entities ecs)) by lia.
    by apply list_lookup_insert_eq.
  - lia.
  - apply list_lookup_insert_eq. by apply lookup_lt_Some in Hd.
Qed.

Lemma destroyed_slot_is_reused_first_witness :
  ∃ ecs' ecs'',
    destroyEntity (createHandle 0 0) firstEntityECS = Done (tt, ecs') ∧
    newEntity ecs' = Done (createHandle 0 1, ecs'').
Proof.
  assert (Hs : sized firstEntityECS) by (by repeat split).
  assert (Hv : isEntityValid firstEntityECS (createHandle 0 0) = Done true)
    by (vm_compute; reflexivity).
  assert (Hfc : 0 ≤ freeCount (entities firstEntityECS) < ECS_MAX_ENTITIES)
    by (by vm_compute).
  assert (∃ ecs', destroyEntity (createHandle 0 0) firstEntityECS
                    = Done (tt, ecs')) as (ecs' & Hd).
  { eexists. apply destroyEntity_returns; [exact Hv|exact Hfc|].
    by vm_compute. }
  destruct (destroyed_slot_is_reused_first
              firstEntityECS ecs' (createHandle 0 0) Hs Hv Hfc Hd)
    as (ecs'' & Hnew).
  exists ecs', ecs''. split; [exact Hd|exact Hnew].
Defined.

Lemma newEntity_slot (ecs ecs1 : ECS) (h : Entity) :
  sized ecs →
  newEntity ecs = Done (h, ecs1) →
  ∃ d,
    freeCount (entities ecs) ≠ 0 ∧
    0 ≤ entityIndex h < ECS_MAX_ENTITIES ∧
    data (entities ecs) !! Z.to_nat (entityIndex h) = Some d ∧
    entityGen h = generation d ∧
    ecs1 = set_entities
             (mkEntityPool
                (u16 (freeCount (entities ecs) - 1))
                (freeList (entities ecs))
                (<[Z.to_nat (entityIndex h) := createEntityData (generation d)]>
                   (data (entities ecs))))
             ecs ∧
    isEntityValid ecs1 h = Done true.
Proof.
  intros (_ & Hlen & _ & _) Hnew.
  apply newEntity_inv in Hnew as (id & d & Hfc & Hid & _ & Hd & -> & ->).
  rewrite Hlen in Hid. unfold ECS_MAX_ENTITIES in *.
  assert (Hidx : entityIndex (createHandle id (generation d)) = id)
    by (rewrite entityIndex_createHandle; apply u16_id; lia).
  assert (Hgen : entityGen (createHandle id (generation d)) = generation d)
    by (rewrite entityGen_createHandle; apply u8_id, generation_range).
  rewrite Hidx, Hgen. exists d. repeat split; try done; try lia.
  apply isEntityValid_Done. exists (createEntityData (generation d)).
  rewrite Hidx, Hgen. split.
  - simpl. apply list_lookup_insert_eq. by apply lookup_lt_Some in Hd.
  - rewrite generation_createEntityData.
    rewrite u8_id by apply generation_range. by rewrite Z.eqb_refl.
Qed.

(** X8. A new entity has no component: its mask is empty and
    [getComponentID] returns [NULL] for every component ID below
    [ECS_MAX_COMPS], whatever the slot held before.  Creating it takes one
    slot from the pool and changes no other slot and nothing outside the
    pool. *)
Theorem newEntity_has_no_components (ecs ecs' : ECS) (h : Entity) (X : Z) :
  sized ecs →
  0 ≤ freeCount (entities ecs) ≤ ECS_MAX_ENTITIES →
  newEntity ecs = Done (h, ecs') →
  0 ≤ X < ECS_MAX_COMPS →
  (∃ d', data (entities ecs') !! Z.to_nat (entityIndex h) = Some d' ∧
         components d' = 0) ∧
  getComponentID h X ecs' = Done (None, ecs') ∧
  (∀ j, j ≠ Z.to_nat (entityIndex h) →
        data (entities ecs') !! j = data (entities ecs) !! j) ∧
  freeCount (entities ecs') = freeCount (entities ecs) - 1 ∧
  freeList (entities ecs') = freeList (entities ecs) ∧
  compDataCount ecs' = compDataCount ecs ∧
  compData ecs' = compData ecs ∧
  nextSystemID ecs' = nextSystemID ecs ∧
  systemCount ecs' = systemCount ecs ∧
  systems ecs' = systems ecs.
Proof.
  intros Hsized Hfc Hnew HX.
  destruct (newEntity_slot _ _ _ Hsized Hnew)
    as (d & Hne & Hidx & Hd & Hgen & Hecs & Hvalid).
  assert (Hd' : data (entities ecs') !! Z.to_nat (entityIndex h)
                = Some (createEntityData (generation d))).
  { rewrite Hecs. simpl. apply list_lookup_insert_eq.
    by apply lookup_lt_Some in Hd. }
  split; [eauto|]. split.
  - apply (getComponentID_returns_clear ecs' h X _ Hvalid HX Hd').
    simpl. apply Z.bits_0.
  - rewrite Hecs. simpl. repeat split; try done.
    + intros j Hj. by apply list_lookup_insert_ne.
    + unfold ECS_MAX_ENTITIES in Hfc. apply u16_id. lia.
Qed.

Lemma newEntity_has_no_components_witness :
  (∃ d', data (entities firstEntityECS) !! Z.to_nat (entityIndex (createHandle 0 0))
         = Some d' ∧ components d' = 0) ∧
  getComponentID (createHandle 0 0) 3 firstEntityECS
  = Done (None, firstEntityECS).
Proof.
  destruct (newEntity_has_no_components newECS firstEntityECS (createHandle 0 0) 3)
    as (Hmask & Hget & _).
  - exact sized_newECS.
  - by vm_compute.
  - exact newEntity_newECS.
  - by vm_compute.
  - split; [exact Hmask|exact Hget].
Defined.

Lemma newEntityWithArchetype_inv (ecs ecs' : ECS) (a : Z) (e : Entity) :
  newEntityWithArchetype a ecs = Done (e, ecs') →
  ∃ ecs1, newEntity ecs = Done (e, ecs1) ∧
          ecs' = withComponents (entityIndex e) (cmask a) ecs1.
Proof.
  unfold newEntityWithArchetype. intros H.
  apply bind_Done in H as ([e1 ecs1] & Hnew & H).
  apply bind_Done in H as (d & Hload & H). apply load_Done in Hload as [_ Hd].
  apply bind_Done in H as (dat & Hstore & H).
  apply store_Done in Hstore as [_ ->]. simplify_eq.
  exists ecs1. split; [done|]. unfold withComponents. by rewrite Hd.
Qed.

(** X9. [newEntityWithArchetype] returns a valid handle whose mask is the
    archetype (cut to the width of [ComponentMask]).  No storage is touched:
    for a declared component, [getComponentID] returns [NULL] if the
    archetype lacks the bit and the component's address if it has it,
    although nothing was attached. *)
Theorem newEntityWithArchetype_sets_mask
    (ecs ecs' : ECS) (a : Z) (e : Entity) (X : Z) (cd : ComponentData) :
  sized ecs →
  newEntityWithArchetype a ecs = Done (e, ecs') →
  0 ≤ X < ECS_MAX_COMPS →
  compData ecs !! Z.to_nat X = Some (Some cd) →
  isEntityValid ecs' e = Done true ∧
  (∃ d', data (entities ecs') !! Z.to_nat (entityIndex e) = Some d' ∧
         components d' = cmask a) ∧
  compData ecs' = compData ecs ∧
  getComponentID e X ecs'
  = Done (if Z.testbit a X
          then Some (mkPointer X (size_t (X * cd_size cd))) else None,
          ecs').
Proof.
  intros Hsized H HX Hcd.
  apply newEntityWithArchetype_inv in H as (ecs1 & Hnew & ->).
  destruct (newEntity_slot _ _ _ Hsized Hnew)
    as (d & _ & Hidx & Hd & Hgen & Hecs & Hvalid).
  assert (Hd1 : data (entities ecs1) !! Z.to_nat (entityIndex e)
                = Some (createEntityData (generation d))).
  { rewrite Hecs. simpl. apply list_lookup_insert_eq.
    by apply lookup_lt_Some in Hd. }
  set (ecs' := withComponents (entityIndex e) (cmask a) ecs1).
  assert (Hvalid' : isEntityValid ecs' e = Done true)
    by (unfold ecs'; by rewrite isEntityValid_withComponents).
  assert (Hd' : data (entities ecs') !! Z.to_nat (entityIndex e)
                = Some (set_components (cmask a)
                          (createEntityData (generation d))))
    by (by apply lookup_withComponents).
  assert (Hcd' : compData ecs' = compData ecs).
  { unfold ecs', withComponents. rewrite Hd1. simpl. by rewrite Hecs. }
  split; [done|]. split; [eauto|]. split; [done|].
  pose proof ECS_MAX_COMPS_bits.
  assert (Hbit : Z.testbit (cmask a) X = Z.testbit a X).
  { rewrite testbit_cmask by lia.
    destruct (Z.ltb_spec X ComponentMask_bits); [done|lia]. }
  destruct (Z.testbit a X) eqn:Ha.
  - apply (getComponentID_returns_set ecs' e X _ Hvalid' HX Hd' cd);
      [by rewrite Hcd'|done].
  - by apply (getComponentID_returns_clear ecs' e X _ Hvalid' HX Hd').
Qed.

Lemma newEntityWithArchetype_sets_mask_witness :
  ∃ e ecs',
    newEntityWithArchetype 2 twoEntitiesECS = Done (e, ecs') ∧
    isEntityValid ecs' e = Done true ∧
    getComponentID e 1 ecs' = Done (Some (mkPointer 1 8), ecs').
Proof.
  assert (∃ e ecs', newEntityWithArchetype 2 twoEntitiesECS = Done (e, ecs'))
    as (e & ecs' & Hnew).
  { eexists _, _. vm_compute. reflexivity. }
  destruct (newEntityWithArchetype_sets_mask twoEntitiesECS ecs' 2 e 1
              (mkComponentData 8 "Speed" (replicate 1024 0)))
    as (Hvalid & _ & _ & Hget).
  - by repeat split.
  - exact Hnew.
  - by vm_compute.
  - vm_compute. reflexivity.
  - exists e, ecs'. split; [exact Hnew|]. split; [exact Hvalid|exact Hget].
Defined.

(** ** Membership masks *)

Lemma withComponents_twice (ecs : ECS) (i m1 m2 : Z) :
  withComponents i m2 (withComponents i m1 ecs) = withComponents i m2 ecs.
Proof.
  unfold withComponents at 2.
  destruct (data (entities ecs) !! Z.to_nat i) as [d|] eqn:Hd; [|done].
  unfold withComponents. simpl.
  rewrite list_lookup_insert_eq by (by apply lookup_lt_Some in Hd).
  rewrite Hd. simpl. by rewrite list_insert_insert_eq.
Qed.

Lemma withComponents_same (ecs : ECS) (i : Z) (d : EntityData) :
  data (entities ecs) !! Z.to_nat i = Some d →
  withComponents i (components d) ecs = ecs.
Proof.
  intros Hd. unfold withComponents. rewrite Hd.
  replace (set_components (components d) d) with d by (by destruct d).
  rewrite list_insert_id by done.
  destruct ecs as [[fc fl dat] ? ? ? ? ?]. done.
Qed.

Lemma cmask_set_twice (c X : Z) :
  0 ≤ X →
  cmask (Z.lor (cmask (Z.lor c (Z.shiftl 1 X))) (Z.shiftl 1 X))
  = cmask (Z.lor c (Z.shiftl 1 X)).
Proof.
  intros HX. apply Z.bits_inj'; intros n Hn.
  rewrite !testbit_cmask, !Z.lor_spec, testbit_cmask, Z.lor_spec by done.
  destruct (n <? ComponentMask_bits), (Z.testbit c n),
    (Z.testbit (Z.shiftl 1 X) n); done.
Qed.

Lemma cmask_set_other (c X j : Z) :
  0 ≤ X → 0 ≤ j < ComponentMask_bits → j ≠ X →
  Z.testbit (cmask (Z.lor c (Z.shiftl 1 X))) j = Z.testbit c j.
Proof.
  intros HX Hj Hne.
  rewrite testbit_cmask, Z.lor_spec, Z.shiftl_1_l, Z.pow2_bits_false by lia.
  rewrite orb_false_r.
  destruct (Z.ltb_spec j ComponentMask_bits); [done|lia].
Qed.

Lemma cmask_set_clear (c X : Z) :
  0 ≤ X → 0 ≤ c < 2 ^ ComponentMask_bits → Z.testbit c X = false →
  cmask (Z.land (cmask (Z.lor c (Z.shiftl 1 X))) (Z.lnot (Z.shiftl 1 X))) = c.
Proof.
  intros HX Hc Hbit. rewrite <- (cmask_id c) at 2 by done.
  apply Z.bits_inj'; intros n Hn.
  rewrite !testbit_cmask, Z.land_spec, testbit_cmask, Z.lor_spec,
    Z.lnot_spec, Z.shiftl_1_l by done.
  destruct (decide (n = X)) as [->|Hne].
  - rewrite Z.pow2_bits_true, Hbit by done.
    by destruct (X <? ComponentMask_bits).
  - rewrite Z.pow2_bits_false by lia.
    by destruct (n <? ComponentMask_bits), (Z.testbit c n).
Qed.

Lemma cmask_clear_set (c X : Z) :
  0 ≤ X → 0 ≤ c < 2 ^ ComponentMask_bits → Z.testbit c X = true →
  cmask (Z.lor (cmask (Z.land c (Z.lnot (Z.shiftl 1 X)))) (Z.shiftl 1 X)) = c.
Proof.
  intros HX Hc Hbit. rewrite <- (cmask_id c) at 2 by done.
  apply Z.bits_inj'; intros n Hn.
  rewrite !testbit_cmask, Z.lor_spec, testbit_cmask, Z.land_spec,
    Z.lnot_spec, Z.shiftl_1_l by done.
  destruct (decide (n = X)) as [->|Hne].
  - rewrite Z.pow2_bits_true, Hbit by done.
    by destruct (X <? ComponentMask_bits).
  - rewrite Z.pow2_bits_false by lia.
    by destruct (n <? ComponentMask_bits), (Z.testbit c n).
Qed.

(** X10. [addComponentID] on a declared component changes the registry only
    in the mask of the entity's slot, where it sets bit [X] and leaves every
    other bit as it was; attaching the same component again returns the
    same pointer and changes nothing any more. *)
Theorem addComponentID_sets_only_its_bit
    (ecs : ECS) (e : Entity) (X : Z) (cd : ComponentData) :
  isEntityValid ecs e = Done true →
  0 ≤ X < ECS_MAX_COMPS →
  compData ecs !! Z.to_nat X = Some (Some cd) →
  ∃ d m ecs1,
    data (entities ecs) !! Z.to_nat (entityIndex e) = Some d ∧
    addComponentID e X ecs
    = Done (mkPointer X (size_t (X * cd_size cd)), ecs1) ∧
    ecs1 = set_entities
             (set_data (<[Z.to_nat (entityIndex e) := set_components m d]>
                          (data (entities ecs)))
                       (entities ecs))
             ecs ∧
    Z.testbit m X = true ∧
    (∀ j, 0 ≤ j < ComponentMask_bits → j ≠ X →
          Z.testbit m j = Z.testbit (components d) j) ∧
    addComponentID e X ecs1
    = Done (mkPointer X (size_t (X * cd_size cd)), ecs1).
Proof.
  intros Hvalid HX Hcd.
  destruct (proj1 (isEntityValid_Done _ _ _) Hvalid) as (d & Hd & _).
  set (m := cmask (Z.lor (components d) (Z.shiftl 1 X))).
  set (ecs1 := withComponents (entityIndex e) m ecs).
  assert (Hvalid1 : isEntityValid ecs1 e = Done true)
    by (unfold ecs1; by rewrite isEntityValid_withComponents).
  assert (Hd1 : data (entities ecs1) !! Z.to_nat (entityIndex e)
                = Some (set_components m d))
    by (by apply lookup_withComponents).
  assert (Hcd1 : compData ecs1 !! Z.to_nat X = Some (Some cd)).
  { unfold ecs1, withComponents. by rewrite Hd. }
  exists d, m, ecs1. split; [done|].
  split; [by apply addComponentID_returns|].
  split; [unfold ecs1, withComponents; by rewrite Hd|].
  split; [by apply testbit_set|].
  split; [intros j Hj Hne; apply cmask_set_other; lia|].
  rewrite (addComponentID_returns ecs1 e X _ Hvalid1 HX Hd1 cd Hcd1).
  do 2 f_equal. simpl. unfold m at 1. rewrite cmask_set_twice by lia.
  unfold ecs1. apply withComponents_twice.
Qed.

Lemma addComponentID_sets_only_its_bit_witness :
  ∃ ecs1,
    addComponentID (createHandle 1 0) 1 twoEntitiesECS
    = Done (mkPointer 1 8, ecs1) ∧
    addComponentID (createHandle 1 0) 1 ecs1 = Done (mkPointer 1 8, ecs1).
Proof.
  destruct (addComponentID_sets_only_its_bit twoEntitiesECS (createHandle 1 0) 1
              (mkComponentData 8 "Speed" (replicate 1024 0)))
    as (d & m & ecs1 & _ & Hadd & _ & _ & _ & Hagain).
  - vm_compute. reflexivity.
  - by vm_compute.
  - vm_compute. reflexivity.
  - exists ecs1. split; [exact Hadd|exact Hagain].
Defined.

(** X11. On a slot whose mask fits [ComponentMask], attaching a component
    the entity does not have and removing it again gives back the registry
    exactly, and so does removing a component the entity has and attaching
    it again. *)
Theorem add_remove_round_trip
    (ecs : ECS) (e : Entity) (X : Z) (cd : ComponentData) (d : EntityData) :
  isEntityValid ecs e = Done true →
  0 ≤ X < ECS_MAX_COMPS →
  compData ecs !! Z.to_nat X = Some (Some cd) →
  data (entities ecs) !! Z.to_nat (entityIndex e) = Some d →
  0 ≤ components d < 2 ^ ComponentMask_bits →
  (Z.testbit (components d) X = false →
   ('(_, ecs1) ← addComponentID e X ecs; removeComponentID e X ecs1)
   = Done (tt, ecs)) ∧
  (Z.testbit (components d) X = true →
   ('(_, ecs1) ← removeComponentID e X ecs; addComponentID e X ecs1)
   = Done (mkPointer X (size_t (X * cd_size cd)), ecs)).
Proof.
  intros Hvalid HX Hcd Hd Hc.
  split; intros Hbit.
  - rewrite (addComponentID_returns ecs e X d Hvalid HX Hd cd Hcd). simpl.
    set (m := cmask (Z.lor (components d) (Z.shiftl 1 X))).
    set (ecs1 := withComponents (entityIndex e) m ecs).
    assert (Hvalid1 : isEntityValid ecs1 e = Done true)
      by (unfold ecs1; by rewrite isEntityValid_withComponents).
    assert (Hd1 : data (entities ecs1) !! Z.to_nat (entityIndex e)
                  = Some (set_components m d))
      by (by apply lookup_withComponents).
    rewrite (removeComponentID_returns ecs1 e X _ Hvalid1 HX Hd1).
    do 2 f_equal. simpl. unfold m, ecs1.
    rewrite cmask_set_clear, withComponents_twice by (done || lia).
    by apply withComponents_same.
  - rewrite (removeComponentID_returns ecs e X d Hvalid HX Hd). simpl.
    set (m := cmask (Z.land (components d) (Z.lnot (Z.shiftl 1 X)))).
    set (ecs1 := withComponents (entityIndex e) m ecs).
    assert (Hvalid1 : isEntityValid ecs1 e = Done true)
      by (unfold ecs1; by rewrite isEntityValid_withComponents).
    assert (Hd1 : data (entities ecs1) !! Z.to_nat (entityIndex e)
                  = Some (set_components m d))
      by (by apply lookup_withComponents).
    assert (Hcd1 : compData ecs1 !! Z.to_nat X = Some (Some cd)).
    { unfold ecs1, withComponents. by rewrite Hd. }
    rewrite (addComponentID_returns ecs1 e X _ Hvalid1 HX Hd1 cd Hcd1).
    do 2 f_equal. simpl. unfold m, ecs1.
    rewrite cmask_clear_set, withComponents_twice by (done || lia).
    by apply withComponents_same.
Qed.

Lemma add_remove_round_trip_witness :
  ('(_, ecs1) ← addComponentID (createHandle 1 0) 1 twoEntitiesECS;
   removeComponentID (createHandle 1 0) 1 ecs1)
  = Done (tt, twoEntitiesECS).
Proof.
  destruct (add_remove_round_trip twoEntitiesECS (createHandle 1 0) 1
              (mkComponentData 8 "Speed" (replicate 1024 0))
              (mkEntityData 0 0)) as [Hround _].
  - vm_compute. reflexivity.
  - by vm_compute.
  - vm_compute. reflexivity.
  - vm_compute. reflexivity.
  - by vm_compute.
  - apply Hround. reflexivity.
Defined.

(** ** Component registry *)

(** X12. After [ecsDeclareComponent] has returned an ID for a name,
    [ecsComponentID] finds that ID under the name, and the lookup of every
    other name gives what it gave before the declaration. *)
Theorem declared_component_is_found
    (ecs ecs1 : ECS) (name other : string) (size id : Z) :
  ecsDeclareComponent name size ecs = Done (id, ecs1) →
  other ≠ name →
  ecsComponentID ecs1 name = Done id ∧
  id ≠ ECS_MAX_COMPS ∧
  ecsComponentID ecs1 other = ecsComponentID ecs other.
Proof.
  intros Hdecl Hother.
  destruct (ecsDeclareComponent_registers _ _ _ _ _ Hdecl) as [Hfound Hne].
  split; [done|]. split; [done|].
  by apply (ecsDeclareComponent_other ecs ecs1 name other size id).
Qed.

Lemma declared_component_is_found_witness :
  ∃ ecs1,
    ecsDeclareComponent "Speed" 8 newECS = Done (0, ecs1) ∧
    ecsComponentID ecs1 "Speed" = Done 0 ∧
    ecsComponentID ecs1 "Position" = ecsComponentID newECS "Position".
Proof.
  assert (∃ ecs1, ecsDeclareComponent "Speed" 8 newECS = Done (0, ecs1))
    as (ecs1 & Hdecl) by (eexists; vm_compute; reflexivity).
  destruct (declared_component_is_found newECS ecs1 "Speed" "Position" 8 0 Hdecl)
    as (Hfound & _ & Hother); [done|].
  exists ecs1. split; [exact Hdecl|]. split; [exact Hfound|exact Hother].
Defined.

(** X13. When [ECS_MAX_COMPS] components are declared, declaring a name
    that is not among them stops in the assertion. *)
Theorem declare_beyond_capacity_aborts (ecs : ECS) (name : string) (size : Z) :
  compDataCount ecs = ECS_MAX_COMPS →
  unregistered ecs name →
  ecsDeclareComponent name size ecs = Abort.
Proof.
  intros Hcount Hun. unfold ecsDeclareComponent.
  rewrite (ecsComponentID_unregistered ecs name Hun)
    by (rewrite Hcount; unfold ECS_MAX_COMPS; lia).
  simpl. rewrite Hcount. by rewrite Z.ltb_irrefl.
Qed.

Lemma declare_beyond_capacity_aborts_witness :
  compDataCount fullRegistryECS = ECS_MAX_COMPS ∧
  ecsDeclareComponent "I" 4 fullRegistryECS = Abort.
Proof.
  split; [by vm_compute|].
  apply declare_beyond_capacity_aborts; [by vm_compute|].
  intros j Hj. change (compDataCount fullRegistryECS) with 8 in Hj.
  assert (j = 0 ∨ j = 1 ∨ j = 2 ∨ j = 3 ∨ j = 4 ∨ j = 5 ∨ j = 6 ∨ j = 7)
    as Hcases by lia.
  destruct Hcases as [->|[->|[->|[->|[->|[->|[->| ->]]]]]]];
    (eexists; split; [vm_compute; reflexivity|discriminate]).
Defined.

(** ** What each function leaves alone *)

Lemma destroyEntity_inv (ecs ecs' : ECS) (h : Entity) (x : unit) :
  destroyEntity h ecs = Done (x, ecs') →
  ecs' = ecs ∨
  (isEntityValid ecs h = Done true ∧
   0 ≤ freeCount (entities ecs) < ECS_MAX_ENTITIES ∧
   freeCount (entities ecs) < Z.of_nat (length (freeList (entities ecs))) ∧
   0 ≤ entityIndex h < Z.of_nat (length (data (entities ecs))) ∧
   ecs' = set_entities
            (mkEntityPool
               (u16 (freeCount (entities ecs) + 1))
               (<[Z.to_nat (freeCount (entities ecs)) := entityIndex h]>
                  (freeList (entities ecs)))
               (<[Z.to_nat (entityIndex h) := createEntityData (entityGen h + 1)]>
                  (data (entities ecs))))
            ecs).
Proof.
  unfold destroyEntity. intros H.
  apply bind_Done in H as (b & Hv & H).
  destruct b; simpl in H; [|left; by simplify_eq].
  right. apply bind_Done in H as (dat & Hstore & H).
  apply store_Done in Hstore as [Hidx ->].
  apply bind_Done in H as (pool & Hret & H).
  unfold returnEntityToPool in Hret.
  apply bind_Done in Hret as (u & Hassert & Hret).
  apply ASSERT_Done, Z.ltb_lt in Hassert.
  apply bind_Done in Hret as (fl & Hfl & Hret).
  apply store_Done in Hfl as [Hfc ->]. simpl in *. simplify_eq.
  repeat split; try done; lia.
Qed.

Lemma newEntity_frame (ecs ecs' : ECS) (e : Entity) :
  newEntity ecs = Done (e, ecs') →
  sameComponents ecs ecs' ∧ sameSystems ecs ecs'.
Proof.
  intros H. apply newEntity_inv in H as (id & d & _ & _ & _ & _ & _ & ->).
  by repeat split.
Qed.

Lemma withComponents_frame (ecs : ECS) (i m : Z) :
  sameComponents ecs (withComponents i m ecs) ∧
  sameSystems ecs (withComponents i m ecs) ∧
  sameFreeStack ecs (withComponents i m ecs).
Proof.
  unfold withComponents.
  destruct (data (entities ecs) !! Z.to_nat i); by repeat split.
Qed.

Lemma newEntityWithArchetype_frame (ecs ecs' : ECS) (a : Z) (e : Entity) :
  newEntityWithArchetype a ecs = Done (e, ecs') →
  sameComponents ecs ecs' ∧ sameSystems ecs ecs'.
Proof.
  intros H. apply newEntityWithArchetype_inv in H as (ecs1 & Hnew & ->).
  destruct (newEntity_frame _ _ _ Hnew) as ((? & ?) & (? & ? & ?)).
  destruct (withComponents_frame ecs1 (entityIndex e) (cmask a))
    as ((? & ?) & (? & ? & ?) & _).
  repeat split; congruence.
Qed.

Lemma destroyEntity_frame (ecs ecs' : ECS) (h : Entity) (x : unit) :
  destroyEntity h ecs = Done (x, ecs') →
  sameComponents ecs ecs' ∧ sameSystems ecs ecs'.
Proof.
  intros H. apply destroyEntity_inv in H as [->|(_ & _ & _ & _ & ->)];
    by repeat split.
Qed.

Lemma addComponentID_inv (ecs ecs' : ECS) (e : Entity) (X : Z) (p : pointer) :
  addComponentID e X ecs = Done (p, ecs') →
  ∃ m, ecs' = withComponents (entityIndex e) m ecs ∧
       isEntityValid ecs e = Done true.
Proof.
  unfold addComponentID. intros H.
  apply bind_Done in H as (u1 & _ & H).
  apply bind_Done in H as (b & Hv & H).
  apply bind_Done in H as (u2 & Hb & H). apply ASSERT_Done in Hb as ->.
  apply bind_Done in H as (d & Hd & H). apply load_Done in Hd as [_ Hd].
  apply bind_Done in H as (dat & Hdat & H). apply store_Done in Hdat as [_ ->].
  apply bind_Done in H as (q & _ & H). simplify_eq.
  eexists. split; [|done]. unfold withComponents. by rewrite Hd.
Qed.

Lemma removeComponentID_inv (ecs ecs' : ECS) (e : Entity) (X : Z) (x : unit) :
  removeComponentID e X ecs = Done (x, ecs') →
  ∃ m, ecs' = withComponents (entityIndex e) m ecs ∧
       isEntityValid ecs e = Done true.
Proof.
  unfold removeComponentID. intros H.
  apply bind_Done in H as (u1 & _ & H).
  apply bind_Done in H as (b & Hv & H).
  apply bind_Done in H as (u2 & Hb & H). apply ASSERT_Done in Hb as ->.
  apply bind_Done in H as (d & Hd & H). apply load_Done in Hd as [_ Hd].
  apply bind_Done in H as (dat & Hdat & H). apply store_Done in Hdat as [_ ->].
  simplify_eq. eexists. split; [|done]. unfold withComponents. by rewrite Hd.
Qed.

Lemma getComponentID_inv (ecs ecs' : ECS) (e : Entity) (X : Z)
    (p : option pointer) :
  getComponentID e X ecs = Done (p, ecs') → ecs' = ecs.
Proof.
  unfold getComponentID. intros H. inv_done H; by simplify_eq.
Qed.

Lemma writeByte_inv (ecs ecs' : ECS) (p : pointer) (b : Z) :
  writeByte p b ecs = Done ecs' →
  ∃ cd,
    0 ≤ ptr_block p ∧
    compData ecs !! Z.to_nat (ptr_block p) = Some (Some cd) ∧
    0 ≤ ptr_offset p < Z.of_nat (length (cd_data cd)) ∧
    ecs' = mkECS (entities ecs) (compDataCount ecs)
             (<[Z.to_nat (ptr_block p) :=
                  Some (mkComponentData (cd_size cd) (cd_id cd)
                          (<[Z.to_nat (ptr_offset p) := u8 b]> (cd_data cd)))]>
                (compData ecs))
             (nextSystemID ecs) (systemCount ecs) (systems ecs).
Proof.
  unfold writeByte. intros H.
  apply bind_Done in H as (o & Hb & H). apply load_Done in Hb as [Hblock Hb].
  destruct o as [cd|]; [|discriminate].
  apply bind_Done in H as (bytes & Hbytes & H).
  apply store_Done in Hbytes as [Hoff ->].
  apply bind_Done in H as (cds & Hcds & H).
  apply store_Done in Hcds as [_ ->]. simplify_eq. eauto 10.
Qed.

Lemma newSystem_inv (ecs ecs' : ECS) (mask it ud id : Z) :
  newSystem mask it ud ecs = Done (id, ecs') →
  id = 0 ∧ it ≠ 0 ∧
  0 ≤ systemCount ecs < ECS_MAX_SYSTEMS ∧
  systemCount ecs < Z.of_nat (length (systems ecs)) ∧
  ecs' = mkECS (entities ecs) (compDataCount ecs) (compData ecs)
           (u8 (nextSystemID ecs + 1)) (u8 (systemCount ecs + 1))
           (<[Z.to_nat (systemCount ecs) :=
                mkSystem (nextSystemID ecs) (cmask mask) it ud]>
              (systems ecs)).
Proof.
  unfold newSystem. intros H.
  apply bind_Done in H as (u1 & Hcount & H).
  apply ASSERT_Done, Z.ltb_lt in Hcount.
  apply bind_Done in H as (u2 & Hit & H).
  apply ASSERT_Done, negb_true_iff, Z.eqb_neq in Hit.
  apply bind_Done in H as (syss & Hsyss & H).
  apply store_Done in Hsyss as [Hlen ->]. simplify_eq.
  repeat split; try done; lia.
Qed.

Lemma destroySystem_inv (ecs ecs' : ECS) (id : Z) (x : unit) :
  destroySystem id ecs = Done (x, ecs') →
  0 < systemCount ecs ∧
  ((findSystem ecs (u8 id) = Done None ∧ ecs' = ecs) ∨
   ∃ k,
     findSystem ecs (u8 id) = Done (Some k) ∧
     0 ≤ k ∧ k + 1 ≤ systemCount ecs ∧
     systemCount ecs ≤ Z.of_nat (length (systems ecs)) ∧
     ecs' = mkECS (entities ecs) (compDataCount ecs) (compData ecs)
              (nextSystemID ecs) (u8 (systemCount ecs - 1))
              (take (Z.to_nat (k + 1)) (systems ecs)
               ++ take (Z.to_nat (systemCount ecs - (k + 1)))
                       (drop (Z.to_nat k) (systems ecs))
               ++ drop (Z.to_nat (k + 1 + (systemCount ecs - (k + 1))))
                       (systems ecs))).
Proof.
  unfold destroySystem. intros H.
  apply bind_Done in H as (u & Hassert & H). apply ASSERT_Done in Hassert.
  apply Z.gtb_lt in Hassert. split; [done|].
  apply bind_Done in H as (r & Hfind & H). destruct r as [k|].
  - right. exists k. apply bind_Done in H as (syss & Hmove & H).
    unfold memmove in Hmove.
    destruct (0 <=? k + 1) eqn:E1; [|discriminate].
    destruct (0 <=? k) eqn:E2; [|discriminate].
    destruct (0 <=? systemCount ecs - (k + 1)) eqn:E3; [|discriminate].
    destruct (k + 1 + (systemCount ecs - (k + 1))
              <=? Z.of_nat (length (systems ecs))) eqn:E4; [|discriminate].
    destruct (k + (systemCount ecs - (k + 1))
              <=? Z.of_nat (length (systems ecs))) eqn:E5; [|discriminate].
    simpl in Hmove. simplify_eq.
    apply Z.leb_le in E2, E3, E4. repeat split; try done; lia.
  - left. by simplify_eq.
Qed.

(** ** Invariants of reachable registries *)

Lemma poolOK_withComponents (ecs : ECS) (i m : Z) :
  poolOK ecs → poolOK (withComponents i m ecs).
Proof.
  intros (Hfl & Hdat & Hfc & Hall). unfold withComponents.
  destruct (data (entities ecs) !! Z.to_nat i); [|done].
  repeat split; simpl; try done; try lia. by rewrite length_insert.
Qed.

Lemma poolOK_newEntity (ecs ecs' : ECS) (e : Entity) :
  poolOK ecs → newEntity ecs = Done (e, ecs') → poolOK ecs'.
Proof.
  intros (Hfl & Hdat & Hfc & Hall) H.
  apply newEntity_inv in H as (id & d & Hne & _ & _ & _ & _ & ->).
  unfold poolOK, ECS_MAX_ENTITIES in *.
  repeat split; simpl; try done.
  - by rewrite length_insert.
  - rewrite u16_id by lia. lia.
  - rewrite u16_id by lia. lia.
Qed.

Lemma poolOK_api : api_invariant poolOK.
Proof.
  split.
  - intros p b ecs ecs' HP H.
    by apply writeByte_inv in H as (cd & _ & _ & _ & ->).
  - intros name size ecs id ecs' HP H.
    by apply ecsDeclareComponent_inv in H
      as [(_ & _ & ->)|(_ & _ & _ & _ & _ & _ & ->)].
  - intros ecs e ecs' HP H. by eapply poolOK_newEntity.
  - intros m ecs e ecs' HP H.
    apply newEntityWithArchetype_inv in H as (ecs1 & Hnew & ->).
    apply poolOK_withComponents. by eapply poolOK_newEntity.
  - intros e ecs x ecs' HP H.
    apply destroyEntity_inv in H as [->|(_ & Hfc & _ & Hidx & ->)]; [done|].
    destruct HP as (Hfl & Hdat & _ & Hall).
    unfold poolOK, ECS_MAX_ENTITIES in *.
    repeat split; simpl; try (by rewrite length_insert).
    + rewrite u16_id by lia. lia.
    + rewrite u16_id by lia. lia.
    + apply Forall_insert; [done|]. lia.
  - intros e X ecs p ecs' HP H.
    apply addComponentID_inv in H as (m & -> & _).
    by apply poolOK_withComponents.
  - intros e X ecs p ecs' HP H. by apply getComponentID_inv in H as ->.
  - intros e X ecs x ecs' HP H.
    apply removeComponentID_inv in H as (m & -> & _).
    by apply poolOK_withComponents.
  - intros m f d ecs id ecs' HP H.
    by apply newSystem_inv in H as (_ & _ & _ & _ & ->).
  - intros id ecs x ecs' HP H.
    by apply destroySystem_inv in H
      as (_ & [(_ & ->)|(k & _ & _ & _ & _ & ->)]).
Qed.

Lemma poolOK_newECS : poolOK newECS.
Proof.
  repeat split; try done.
  change (freeList (entities newECS)) with (initFreeList 128 0).
  apply Forall_lookup_2. intros j x Hx.
  assert (Hj : (j < 128)%nat).
  { apply lookup_lt_Some in Hx. by rewrite initFreeList_length in Hx. }
  rewrite initFreeList_lookup in Hx by done. simplify_eq.
  unfold ECS_MAX_ENTITIES. rewrite u16_id by lia. lia.
Qed.

(** X14. In every registry a host program can reach, the pool is in order,
    so [newEntity] never leaves the arrays: with no free slot it stops in
    [abort()], otherwise it returns a handle of a slot below
    [ECS_MAX_ENTITIES] that [isEntityValid] accepts. *)
Theorem newEntity_on_reachable (ecs : ECS) :
  reachable ecs →
  poolOK ecs ∧
  if freeCount (entities ecs) =? 0
  then newEntity ecs = Abort
  else ∃ h ecs',
         newEntity ecs = Done (h, ecs') ∧
         0 ≤ entityIndex h < ECS_MAX_ENTITIES ∧
         isEntityValid ecs' h = Done true.
Proof.
  intros Hreach.
  assert (Hok : poolOK ecs)
    by (apply (reachable_invariant poolOK);
        [apply poolOK_api | apply poolOK_newECS | done]).
  split; [done|]. destruct Hok as (Hfl & Hdat & Hfc & Hall).
  destruct (Z.eqb_spec (freeCount (entities ecs)) 0) as [Hz|Hnz].
  - unfold newEntity. by rewrite Hz.
  - unfold ECS_MAX_ENTITIES in *.
    destruct (lookup_lt_is_Some_2 (freeList (entities ecs))
                (Z.to_nat (freeCount (entities ecs) - 1))) as [id Hid]; [lia|].
    pose proof (Forall_lookup_1 _ _ _ _ Hall Hid) as Hrange. simpl in Hrange.
    destruct (lookup_lt_is_Some_2 (data (entities ecs)) (Z.to_nat id))
      as [d Hd]; [lia|].
    eexists _, _.
    split; [apply (newEntity_returns ecs id d); (done || lia)|].
    assert (Hidx : entityIndex (createHandle id (generation d)) = id)
      by (rewrite entityIndex_createHandle; apply u16_id; lia).
    assert (Hgen : entityGen (createHandle id (generation d)) = generation d)
      by (rewrite entityGen_createHandle; apply u8_id, generation_range).
    rewrite Hidx. split; [lia|].
    apply isEntityValid_Done. exists (createEntityData (generation d)).
    rewrite Hidx, Hgen. split.
    + simpl. apply list_lookup_insert_eq. by apply lookup_lt_Some in Hd.
    + rewrite generation_createEntityData.
      rewrite u8_id by apply generation_range. by rewrite Z.eqb_refl.
Qed.

Lemma newEntity_on_reachable_witness :
  reachable demoECS ∧
  ∃ h ecs', newEntity demoECS = Done (h, ecs') ∧
            isEntityValid ecs' h = Done true.
Proof.
  split; [exact demoECS_reachable|].
  destruct (newEntity_on_reachable demoECS demoECS_reachable) as [_ Hnew].
  assert (Hfc : (freeCount (entities demoECS) =? 0) = false)
    by (vm_compute; reflexivity).
  rewrite Hfc in Hnew.
  destruct Hnew as (h & ecs' & Hn & _ & Hv).
  exists h, ecs'. split; [exact Hn|exact Hv].
Defined.

(** ** Declaring a name again *)

Lemma registeredAs_same (ecs ecs' : ECS) (name : string) (id : Z) :
  sameComponents ecs ecs' → registeredAs name id ecs → registeredAs name id ecs'.
Proof.
  intros [Hc Hd] [Hscan Hne]. split; [|done]. rewrite <- Hscan.
  apply ecsComponentID_same; [done|]. by rewrite Hd.
Qed.

Lemma registeredAs_writeByte
    (ecs ecs' : ECS) (name : string) (id : Z) (p : pointer) (b : Z) :
  registeredAs name id ecs → writeByte p b ecs = Done ecs' →
  registeredAs name id ecs'.
Proof.
  intros [Hscan Hne] H.
  apply writeByte_inv in H as (cd & Hblock & Hcd & Hoff & ->).
  split; [|done]. rewrite <- Hscan. apply ecsComponentID_same; [done|].
  simpl. rewrite list_fmap_insert. apply list_insert_id.
  rewrite list_lookup_fmap, Hcd. done.
Qed.

Lemma registeredAs_declare
    (ecs ecs' : ECS) (name other : string) (id size id' : Z) :
  registeredAs name id ecs →
  ecsDeclareComponent other size ecs = Done (id', ecs') →
  registeredAs name id ecs'.
Proof.
  intros [Hscan Hne] H.
  destruct (decide (other = name)) as [->|Hother].
  - rewrite (registeredAs_redeclare ecs name size id) in H by done.
    by simplify_eq.
  - split; [|done]. rewrite <- Hscan.
    by apply (ecsDeclareComponent_other ecs ecs' other name size id').
Qed.

Lemma registeredAs_api (name : string) (id : Z) :
  api_invariant (registeredAs name id).
Proof.
  split.
  - intros p b ecs ecs' HP H. by eapply registeredAs_writeByte.
  - intros other size ecs id' ecs' HP H. by eapply registeredAs_declare.
  - intros ecs e ecs' HP H.
    eapply registeredAs_same; [|done]. by eapply newEntity_frame.
  - intros m ecs e ecs' HP H.
    eapply registeredAs_same; [|done]. by eapply newEntityWithArchetype_frame.
  - intros e ecs x ecs' HP H.
    eapply registeredAs_same; [|done]. by eapply destroyEntity_frame.
  - intros e X ecs p ecs' HP H.
    apply addComponentID_inv in H as (m & -> & _).
    eapply registeredAs_same; [|done]. apply withComponents_frame.
  - intros e X ecs p ecs' HP H. by apply getComponentID_inv in H as ->.
  - intros e X ecs x ecs' HP H.
    apply removeComponentID_inv in H as (m & -> & _).
    eapply registeredAs_same; [|done]. apply withComponents_frame.
  - intros m f d ecs id' ecs' HP H.
    apply newSystem_inv in H as (_ & _ & _ & _ & ->).
    eapply registeredAs_same; [|done]. by split.
  - intros id' ecs x ecs' HP H.
    apply destroySystem_inv in H
      as (_ & [(_ & ->)|(k & _ & _ & _ & _ & ->)]); [done|].
    eapply registeredAs_same; [|done]. by split.
Qed.

(** C7. Once [ecsDeclareComponent] has returned an ID for a name, every
    later declaration of that name returns the same ID and the registry
    unchanged, so no further buffer is allocated: right away, and after
    whatever a host program does in between, declarations of other names
    included.  The first declaration of a name returns the component count
    as its ID, stores the new zero-filled buffer under it and increments
    the count; the size and the length of the buffer are computed in
    [size_t].  [ecsComponentID] on a name that was not declared returns
    [ECS_MAX_COMPS] (it receives the registry through a pointer to [const]
    and is a function of the registry state). *)
Theorem declare_idempotent_lookup_sentinel (ecs : ECS) (name : string) (size : Z) :
  (∀ id ecs1,
     ecsDeclareComponent name size ecs = Done (id, ecs1) →
     (∀ size', ecsDeclareComponent name size' ecs1 = Done (id, ecs1)) ∧
     ∀ (U : Type) (code : Z → Entity → Z → client U) (fuel : nat)
       (c : client U) (u u' : U) (ecs2 : ECS),
       run code fuel c ecs1 u = Done (ecs2, u') →
       ∀ size', ecsDeclareComponent name size' ecs2 = Done (id, ecs2)) ∧
  (unregistered ecs name →
   0 ≤ compDataCount ecs < ECS_MAX_COMPS →
   length (compData ecs) = Z.to_nat ECS_MAX_COMPS →
   Z.of_nat (String.length name) < 64 →
   sizeof_ComponentData + size_t (ECS_MAX_ENTITIES * size_t size) < 2 ^ 64 →
   ecsComponentID ecs name = Done ECS_MAX_COMPS ∧
   ecsDeclareComponent name size ecs =
   Done (compDataCount ecs,
         mkECS (entities ecs) (compDataCount ecs + 1)
               (<[Z.to_nat (compDataCount ecs) :=
                    Some (mkComponentData (size_t size) name
                            (replicate
                               (Z.to_nat
                                  (size_t (ECS_MAX_ENTITIES * size_t size)))
                               0))]>
                  (compData ecs))
               (nextSystemID ecs) (systemCount ecs) (systems ecs))) ∧
  (unregistered ecs name →
   0 ≤ compDataCount ecs ≤ ECS_MAX_COMPS →
   ecsComponentID ecs name = Done ECS_MAX_COMPS).
Proof.
  split; [|split].
  - intros id ecs1 H.
    pose proof (ecsDeclareComponent_registers _ _ _ _ _ H) as Hreg.
    split.
    + intros size'. by apply registeredAs_redeclare.
    + intros U code fuel c u u' ecs2 Hrun size'.
      apply registeredAs_redeclare.
      by apply (run_invariant (registeredAs name id)
                  (registeredAs_api name id) code fuel c ecs1 u ecs2 u').
  - intros Hun Hcount Hlen Hname Hfit.
    assert (Hscan : ecsComponentID ecs name = Done ECS_MAX_COMPS)
      by (apply ecsComponentID_unregistered; [done|lia]).
    split; [done|].
    unfold ecsDeclareComponent. rewrite Hscan. simpl.
    destruct (Z.ltb_spec (compDataCount ecs) ECS_MAX_COMPS); [|lia]. simpl.
    pose proof (size_t_range (ECS_MAX_ENTITIES * size_t size)) as Hbytes.
    rewrite (proj2 (size_t_sum_fits sizeof_ComponentData
                      (size_t (ECS_MAX_ENTITIES * size_t size))
                      ltac:(by vm_compute) ltac:(lia)) Hfit).
    destruct (Z.leb_spec 64 (Z.of_nat (String.length name))); [lia|].
    unfold store. rewrite Hlen.
    destruct (Z.leb_spec 0 (compDataCount ecs)); [|lia].
    destruct (Z.ltb_spec (compDataCount ecs) (Z.of_nat (Z.to_nat ECS_MAX_COMPS)));
      [|unfold ECS_MAX_COMPS in *; lia].
    simpl. unfold ECS_MAX_COMPS in Hcount. by rewrite u8_id by lia.
  - apply ecsComponentID_unregistered.
Qed.

Lemma declare_idempotent_lookup_sentinel_witness :
  unregistered newECS "Speed" ∧
  ecsComponentID newECS "Speed" = Done ECS_MAX_COMPS ∧
  ∃ ecs1 ecs2,
    ecsDeclareComponent "Speed" 4 newECS = Done (0, ecs1) ∧
    ecsDeclareComponent "Speed" 4 ecs1 = Done (0, ecs1) ∧
    ecsDeclareComponent "Position" 8 ecs1 = Done (1, ecs2) ∧
    ecsDeclareComponent "Speed" 4 ecs2 = Done (0, ecs2) ∧
    compDataCount ecs2 = 2.
Proof.
  assert (Hun : unregistered newECS "Speed").
  { intros j Hj. simpl in Hj. lia. }
  destruct (declare_idempotent_lookup_sentinel newECS "Speed" 4)
    as (Hidem & Hfirst & Hlookup).
  destruct Hfirst as [Hscan Hdecl];
    [exact Hun | simpl; unfold ECS_MAX_COMPS; lia | reflexivity
    | simpl; lia | by vm_compute |].
  split; [done|]. split; [done|].
  destruct (Hidem _ _ Hdecl) as [Hnow Hlater].
  assert (∃ ecs2,
    run (λ _ _ _, Return) 2
        (CallDeclareComponent "Position" 8 (λ _, Return))
        (mkECS (entities newECS) (compDataCount newECS + 1)
           (<[Z.to_nat (compDataCount newECS) :=
                Some (mkComponentData (size_t 4) "Speed"
                        (replicate
                           (Z.to_nat (size_t (ECS_MAX_ENTITIES * size_t 4)))
                           0))]>
              (compData newECS))
           (nextSystemID newECS) (systemCount newECS) (systems newECS))
        tt = Done (ecs2, tt) ∧
    ecsDeclareComponent "Position" 8
        (mkECS (entities newECS) (compDataCount newECS + 1)
           (<[Z.to_nat (compDataCount newECS) :=
                Some (mkComponentData (size_t 4) "Speed"
                        (replicate
                           (Z.to_nat (size_t (ECS_MAX_ENTITIES * size_t 4)))
                           0))]>
              (compData newECS))
           (nextSystemID newECS) (systemCount newECS) (systems newECS))
      = Done (1, ecs2) ∧
    compDataCount ecs2 = 2) as (ecs2 & Hrun & Hpos & Hcount).
  { eexists. split; [vm_compute; reflexivity|].
    split; vm_compute; reflexivity. }
  eexists _, ecs2. split; [exact Hdecl|]. split; [apply Hnow|].
  split; [exact Hpos|]. split; [|exact Hcount].
  exact (Hlater unit _ _ _ _ _ _ Hrun 4).
Defined.

Lemma compTableOK_same (ecs ecs' : ECS) :
  sameComponents ecs ecs' → compTableOK ecs → compTableOK ecs'.
Proof. intros [Hc Hd]. unfold compTableOK. by rewrite Hc, Hd. Qed.

Lemma compTableOK_writeByte (ecs ecs' : ECS) (p : pointer) (b : Z) :
  compTableOK ecs → writeByte p b ecs = Done ecs' → compTableOK ecs'.
Proof.
  intros (Hlen & Hcount & Hbelow & Habove & Huniq) H.
  apply writeByte_inv in H as (cd & Hblock & Hcd & Hoff & ->).
  set (n := Z.to_nat (ptr_block p)) in *.
  set (cd' := mkComponentData (cd_size cd) (cd_id cd) _).
  assert (Hn : (n < Z.to_nat (compDataCount ecs))%nat).
  { destruct (decide (n < Z.to_nat (compDataCount ecs))%nat); [done|].
    assert (Hlt : (n < length (compData ecs))%nat)
      by (by apply lookup_lt_Some in Hcd).
    rewrite Habove in Hcd by lia. discriminate. }
  assert (Hsame : ∀ j c, <[n := Some cd']> (compData ecs) !! j = Some (Some c) →
            ∃ c0, compData ecs !! j = Some (Some c0) ∧ cd_id c0 = cd_id c ∧
                  cd_size c0 = cd_size c ∧
                  length (cd_data c0) = length (cd_data c)).
  { intros j c Hj. destruct (decide (j = n)) as [->|Hne].
    - rewrite list_lookup_insert_eq in Hj by (by apply lookup_lt_Some in Hcd).
      simplify_eq. exists cd. repeat split; try done.
      simpl. by rewrite length_insert.
    - rewrite list_lookup_insert_ne in Hj by done. eauto. }
  unfold compTableOK. simpl. split; [by rewrite length_insert|].
  split; [done|]. split; [|split].
  - intros j Hj. destruct (Hbelow j Hj) as (c0 & Hc0 & Hl0 & Hn0).
    destruct (decide (j = n)) as [->|Hne].
    + exists cd'. assert (c0 = cd) as -> by congruence.
      split; [apply list_lookup_insert_eq; by apply lookup_lt_Some in Hcd|].
      split; [|done]. simpl. by rewrite length_insert.
    + exists c0. by rewrite list_lookup_insert_ne by done.
  - intros j Hj. rewrite list_lookup_insert_ne by lia. by apply Habove.
  - intros j k cdj cdk Hj Hk Hcj Hck Hid.
    destruct (Hsame _ _ Hcj) as (cj0 & Hcj0 & Hidj & _).
    destruct (Hsame _ _ Hck) as (ck0 & Hck0 & Hidk & _).
    apply (Huniq j k cj0 ck0); try done. congruence.
Qed.

Lemma compTableOK_declare (ecs ecs' : ECS) (name : string) (size id : Z) :
  compTableOK ecs →
  ecsDeclareComponent name size ecs = Done (id, ecs') →
  compTableOK ecs'.
Proof.
  intros (Hlen & Hcount & Hbelow & Habove & Huniq) H.
  apply ecsDeclareComponent_inv in H
    as [(_ & _ & ->)|(Hscan & -> & Hc & Hname & Hl & Hfit & ->)]; [done|].
  set (n := Z.to_nat (compDataCount ecs)) in *.
  set (cd := mkComponentData (size_t size) name _).
  assert (Hfresh : ∀ j c, (j < n)%nat → compData ecs !! j = Some (Some c) →
                          cd_id c ≠ name).
  { intros j c Hj Hcj.
    destruct (ecsComponentID_from_sentinel_inv ecs name n 0) with (j := Z.of_nat j)
      as (c' & Hc' & Hne'); try done; try lia.
    rewrite Nat2Z.id in Hc'. congruence. }
  unfold compTableOK, ECS_MAX_COMPS in *. simpl.
  replace (Z.to_nat (compDataCount ecs + 1)) with (S n) by lia.
  split; [by rewrite length_insert|]. split; [lia|]. split; [|split].
  - intros j Hj. destruct (decide (j = n)) as [->|Hne].
    + exists cd. split; [apply list_lookup_insert_eq; lia|].
      split; [|done]. simpl.
      split; [apply size_t_range|]. split; [apply length_replicate|done].
    + destruct (Hbelow j) as (c0 & Hc0 & Hrest); [lia|].
      exists c0. by rewrite list_lookup_insert_ne by done.
  - intros j Hj. rewrite list_lookup_insert_ne by lia. apply Habove. lia.
  - intros j k cdj cdk Hj Hk Hcj Hck Hid.
    destruct (decide (j = n)) as [->|Hjn], (decide (k = n)) as [->|Hkn];
      [done| | |].
    + rewrite list_lookup_insert_eq in Hcj by lia.
      rewrite list_lookup_insert_ne in Hck by done. simplify_eq.
      exfalso. apply (Hfresh k cdk); [lia|done|]. by rewrite <- Hid.
    + rewrite list_lookup_insert_eq in Hck by lia.
      rewrite list_lookup_insert_ne in Hcj by done. simplify_eq.
      exfalso. apply (Hfresh j cdj); [lia|done|]. by rewrite Hid.
    + rewrite list_lookup_insert_ne in Hcj by done.
      rewrite list_lookup_insert_ne in Hck by done.
      apply (Huniq j k cdj cdk); try done; lia.
Qed.

Lemma sameComponents_withComponents (ecs : ECS) (i m : Z) :
  sameComponents ecs (withComponents i m ecs).
Proof. apply withComponents_frame. Qed.

Lemma compTableOK_api : api_invariant compTableOK.
Proof.
  split.
  - intros p b ecs ecs' HP H. by eapply compTableOK_writeByte.
  - intros name size ecs id ecs' HP H. by eapply compTableOK_declare.
  - intros ecs e ecs' HP H.
    eapply compTableOK_same; [|done]. by eapply newEntity_frame.
  - intros m ecs e ecs' HP H.
    eapply compTableOK_same; [|done]. by eapply newEntityWithArchetype_frame.
  - intros e ecs x ecs' HP H.
    eapply compTableOK_same; [|done]. by eapply destroyEntity_frame.
  - intros e X ecs p ecs' HP H.
    apply addComponentID_inv in H as (m & -> & _).
    eapply compTableOK_same; [|done]. apply sameComponents_withComponents.
  - intros e X ecs p ecs' HP H. by apply getComponentID_inv in H as ->.
  - intros e X ecs x ecs' HP H.
    apply removeComponentID_inv in H as (m & -> & _).
    eapply compTableOK_same; [|done]. apply sameComponents_withComponents.
  - intros m f d ecs id ecs' HP H.
    by apply newSystem_inv in H as (_ & _ & _ & _ & ->).
  - intros id ecs x ecs' HP H.
    by apply destroySystem_inv in H
      as (_ & [(_ & ->)|(k & _ & _ & _ & _ & ->)]).
Qed.

Lemma compTableOK_newECS : compTableOK newECS.
Proof.
  unfold compTableOK.
  change (compDataCount newECS) with 0.
  change (compData newECS) with (replicate (Z.to_nat ECS_MAX_COMPS) (@None ComponentData)).
  change (Z.to_nat 0) with 0%nat.
  split; [apply length_replicate|].
  split; [unfold ECS_MAX_COMPS; lia|].
  split; [intros j Hj; lia|].
  split; [intros j Hj; apply lookup_replicate_2; lia|].
  intros j k cdj cdk Hj. lia.
Qed.

(** X15. In every registry a host program can reach, the component table is
    in order: exactly the IDs below the component count have a buffer, each
    size is a [size_t], each buffer has [ECS_MAX_ENTITIES * size] bytes with
    the product taken in [size_t], and no two components have the same
    name.  Hence [addComponentID] returns for every valid handle and every
    ID below the component count; and where [ECS_MAX_ENTITIES * size] is
    below [2^64] the buffer has exactly that many bytes, the offset
    returned is [X * size] and the [size] bytes from there lie inside the
    buffer. *)
Theorem component_table_on_reachable (ecs : ECS) :
  reachable ecs →
  compTableOK ecs ∧
  ∀ e X, isEntityValid ecs e = Done true →
         0 ≤ X < compDataCount ecs →
         ∃ cd ecs',
           compData ecs !! Z.to_nat X = Some (Some cd) ∧
           addComponentID e X ecs
           = Done (mkPointer X (size_t (X * cd_size cd)), ecs') ∧
           (ECS_MAX_ENTITIES * cd_size cd < 2 ^ 64 →
            Z.of_nat (length (cd_data cd)) = ECS_MAX_ENTITIES * cd_size cd ∧
            size_t (X * cd_size cd) = X * cd_size cd ∧
            X * cd_size cd + cd_size cd ≤ Z.of_nat (length (cd_data cd))).
Proof.
  intros Hreach.
  assert (Hok : compTableOK ecs)
    by (apply (reachable_invariant compTableOK);
        [apply compTableOK_api | apply compTableOK_newECS | done]).
  split; [done|]. intros e X Hvalid HX.
  destruct Hok as (_ & Hcount & Hbelow & _).
  destruct (Hbelow (Z.to_nat X)) as (cd & Hcd & (Hsize & Hlen & _) & _); [lia|].
  destruct (proj1 (isEntityValid_Done _ _ _) Hvalid) as (d & Hd & _).
  exists cd. eexists. split; [done|]. split.
  - apply (addComponentID_returns ecs e X d); try done. lia.
  - intros Hfit. rewrite Hlen.
    rewrite size_t_id by (unfold ECS_MAX_ENTITIES in *; lia).
    unfold ECS_MAX_ENTITIES, ECS_MAX_COMPS in *.
    split; [lia|]. split; [apply size_t_id; nia|nia].
Qed.

Lemma component_table_on_reachable_witness :
  reachable demoECS ∧ compTableOK demoECS ∧
  ∃ cd ecs',
    compData demoECS !! 0%nat = Some (Some cd) ∧
    addComponentID (createHandle 0 1) 0 demoECS
    = Done (mkPointer 0 0, ecs') ∧
    Z.of_nat (length (cd_data cd)) = 1024.
Proof.
  split; [exact demoECS_reachable|].
  destruct (component_table_on_reachable demoECS demoECS_reachable)
    as [Hok Hadd].
  split; [exact Hok|].
  destruct (Hadd (createHandle 0 1) 0) as (cd & ecs' & Hcd & Hret & Hbuf).
  - vm_compute. reflexivity.
  - by vm_compute.
  - exists cd, ecs'. split; [exact Hcd|].
    assert (Hcd0 : ∃ cd0, compData demoECS !! 0%nat = Some (Some cd0) ∧
                          cd_size cd0 = 8)
      by (eexists; split; vm_compute; reflexivity).
    destruct Hcd0 as (cd0 & Hcd0 & Hsize).
    change (Z.to_nat 0) with 0%nat in Hcd.
    assert (cd0 = cd) as -> by congruence.
    destruct Hbuf as (Hlen & Hoff & _);
      [rewrite Hsize; by vm_compute|].
    rewrite Hoff, Hsize in Hret. split; [exact Hret|].
    rewrite Hlen, Hsize. reflexivity.
Defined.

Lemma systemsOK_same (ecs ecs' : ECS) :
  sameSystems ecs ecs' → systemsOK ecs → systemsOK ecs'.
Proof. intros (Hn & Hc & Hs). unfold systemsOK. by rewrite Hn, Hc, Hs. Qed.

Lemma sameSystems_withComponents (ecs : ECS) (i m : Z) :
  sameSystems ecs (withComponents i m ecs).
Proof. apply withComponents_frame. Qed.

Lemma systemsOK_newSystem (ecs ecs' : ECS) (mask it ud id : Z) :
  systemsOK ecs → newSystem mask it ud ecs = Done (id, ecs') → systemsOK ecs'.
Proof.
  intros (Hlen & Hcount & Hnext & Hlive) H.
  apply newSystem_inv in H as (_ & Hit & Hc & Hl & ->).
  unfold systemsOK, ECS_MAX_SYSTEMS in *. simpl.
  rewrite (u8_id (systemCount ecs + 1)) by lia.
  split; [by rewrite length_insert|]. split; [lia|].
  split; [apply u8_range|].
  intros j s Hj Hs.
  destruct (decide (j = Z.to_nat (systemCount ecs))) as [->|Hne].
  - rewrite list_lookup_insert_eq in Hs by lia. simplify_eq. simpl.
    split; [done|]. split; [lia|apply cmask_range].
  - rewrite list_lookup_insert_ne in Hs by done. apply (Hlive j); [lia|done].
Qed.

Lemma systemsOK_destroySystem (ecs ecs' : ECS) (id : Z) (x : unit) :
  systemsOK ecs → destroySystem id ecs = Done (x, ecs') → systemsOK ecs'.
Proof.
  intros (Hlen & Hcount & Hnext & Hlive) H.
  apply destroySystem_inv in H
    as (Hpos & [(_ & ->)|(k & _ & Hk0 & Hk & Hl & ->)]); [done|].
  unfold systemsOK, ECS_MAX_SYSTEMS in *. simpl.
  rewrite (u8_id (systemCount ecs - 1)) by lia.
  split.
  { rewrite !length_app, !length_take, !length_drop. lia. }
  split; [lia|]. split; [done|].
  intros j s Hj Hs.
  destruct (decide (j < Z.to_nat (k + 1))%nat) as [Hlt|Hge].
  - rewrite lookup_app_l in Hs by (rewrite length_take; lia).
    rewrite lookup_take_lt in Hs by done. apply (Hlive j); [lia|done].
  - rewrite lookup_app_r in Hs by (rewrite length_take; lia).
    rewrite length_take in Hs.
    rewrite lookup_app_l in Hs
      by (rewrite length_take, length_drop; lia).
    rewrite lookup_take_lt in Hs by lia.
    rewrite lookup_drop in Hs.
    apply (Hlive _ s) in Hs; [done|lia].
Qed.

Lemma systemsOK_api : api_invariant systemsOK.
Proof.
  split.
  - intros p b ecs ecs' HP H.
    by apply writeByte_inv in H as (cd & _ & _ & _ & ->).
  - intros name size ecs id ecs' HP H.
    by apply ecsDeclareComponent_inv in H
      as [(_ & _ & ->)|(_ & _ & _ & _ & _ & _ & ->)].
  - intros ecs e ecs' HP H.
    eapply systemsOK_same; [|done]. by eapply newEntity_frame.
  - intros m ecs e ecs' HP H.
    eapply systemsOK_same; [|done]. by eapply newEntityWithArchetype_frame.
  - intros e ecs x ecs' HP H.
    eapply systemsOK_same; [|done]. by eapply destroyEntity_frame.
  - intros e X ecs p ecs' HP H.
    apply addComponentID_inv in H as (m & -> & _).
    eapply systemsOK_same; [|done]. apply sameSystems_withComponents.
  - intros e X ecs p ecs' HP H. by apply getComponentID_inv in H as ->.
  - intros e X ecs x ecs' HP H.
    apply removeComponentID_inv in H as (m & -> & _).
    eapply systemsOK_same; [|done]. apply sameSystems_withComponents.
  - intros m f d ecs id ecs' HP H. by eapply systemsOK_newSystem.
  - intros id ecs x ecs' HP H. by eapply systemsOK_destroySystem.
Qed.

Lemma systemsOK_newECS : systemsOK newECS.
Proof.
  unfold systemsOK.
  change (systemCount newECS) with 0. change (nextSystemID newECS) with 0.
  change (Z.to_nat 0) with 0%nat.
  split; [done|]. split; [unfold ECS_MAX_SYSTEMS; lia|]. split; [lia|].
  intros j s Hj. lia.
Qed.

(** X16. In every registry a host program can reach, the system table is in
    order: the system count is at most [ECS_MAX_SYSTEMS] and every
    registered system has a callback that is not [NULL], so [ecsTick] calls
    no [NULL] pointer. *)
Theorem system_table_on_reachable (ecs : ECS) :
  reachable ecs → systemsOK ecs.
Proof.
  intros Hreach. apply (reachable_invariant systemsOK);
    [apply systemsOK_api | apply systemsOK_newECS | done].
Qed.

Lemma system_table_on_reachable_witness :
  reachable demoECS ∧ systemsOK demoECS.
Proof.
  split; [exact demoECS_reachable|].
  exact (system_table_on_reachable demoECS demoECS_reachable).
Defined.

(** ** Matching and ticking *)



Lemma matchingHandles_elem (mask : Z) (l : list EntityData) :
  ∀ i h,
    h ∈ matchingHandles mask i l ↔
    ∃ (j : nat) d,
      l !! j = Some d ∧ h = createHandle (i + Z.of_nat j) (generation d) ∧
      Z.land (flags d) kEntityUnused = 0 ∧
      Z.land (components d) mask = mask.
Proof.
  induction l as [|d l IH]; intros i h; simpl.
  - split; [by intros ?%elem_of_nil|by intros (j & d & ? & _)].
  - rewrite elem_of_app, IH. split.
    + intros [Hhead|(j & d' & Hj & -> & Hf & Hm)].
      * destruct (Z.eqb_spec (Z.land (flags d) kEntityUnused) 0) as [Hf|];
          [|by apply elem_of_nil in Hhead].
        destruct (Z.eqb_spec (Z.land (components d) mask) mask) as [Hm|];
          [|by apply elem_of_nil in Hhead].
        simpl in Hhead. apply list_elem_of_singleton in Hhead as ->.
        exists 0%nat, d. rewrite Z.add_0_r. done.
      * exists (S j), d'. repeat split; try done. f_equal. lia.
    + intros (j & d' & Hj & -> & Hf & Hm). destruct j as [|j].
      * left. simpl in Hj. simplify_eq. rewrite Hf, Hm, !Z.eqb_refl. simpl.
        rewrite Z.add_0_r. apply list_elem_of_here.
      * right. exists j, d'. repeat split; try done. f_equal. lia.
Qed.




Lemma logged_call {U : Type} (it : ECSIterator U)
    (ecs : ECS) (e : Entity) (d : Z) (u : U) (log : list (ECS * Entity)) :
  logged it ecs e d (u, log)
  = ('(ecs', u') ← it ecs e d u; Done (ecs', (u', log ++ [(ecs, e)]))).
Proof. reflexivity. Qed.

Lemma matchEntities_from_logged {U : Type} (it : ECSIterator U)
    (mask ud : Z) (fuel : nat) :
  ∀ i ecs u ecs' u' log0,
    0 ≤ i → i + Z.of_nat fuel ≤ 65535 →
    matchEntities_from fuel i mask it ud ecs u = Done (ecs', u') →
    ∃ log,
      matchEntities_from fuel i mask (logged it) ud ecs (u, log0)
      = Done (ecs', (u', log0 ++ log)) ∧
      Forall (λ call, isEntityValid call.1 call.2 = Done true ∧
                      i ≤ entityIndex call.2) log ∧
      StronglySorted Z.lt (map (λ call, entityIndex call.2) log) ∧
      ((∀ s e d v s' v', it s e d v = Done (s', v') → s' = s) →
       Forall (λ call, call.1 = ecs) log).
Proof.
  induction fuel as [|fuel IH]; intros i ecs u ecs' u' log0 Hi Hle H.
  - simpl in H. simplify_eq. exists []. rewrite app_nil_r.
    repeat split; constructor.
  - simpl in H. apply bind_Done in H as (d & Hload & H).
    assert (Hskip :
      matchEntities_from fuel (u16 (i + 1)) mask it ud ecs u = Done (ecs', u') →
      ∃ log,
        matchEntities_from fuel (u16 (i + 1)) mask (logged it) ud ecs (u, log0)
        = Done (ecs', (u', log0 ++ log)) ∧
        Forall (λ call, isEntityValid call.1 call.2 = Done true ∧
                        i ≤ entityIndex call.2) log ∧
        StronglySorted Z.lt (map (λ call, entityIndex call.2) log) ∧
        ((∀ s e d v s' v', it s e d v = Done (s', v') → s' = s) →
         Forall (λ call, call.1 = ecs) log)).
    { intros Hrec. rewrite u16_id in Hrec |- * by lia.
      destruct (IH (i + 1) ecs u ecs' u' log0) as (log & Hrun & Hall & Hrest);
        [lia|lia|done|].
      exists log. split; [done|]. split; [|done].
      eapply Forall_impl; [exact Hall|]. simpl. intros call [? ?].
      split; [done|lia]. }
    simpl. rewrite Hload. simpl.
    destruct (negb (Z.land (flags d) kEntityUnused =? 0)); [by apply Hskip|].
    destruct (negb (Z.land (components d) mask =? mask)); [by apply Hskip|].
    apply bind_Done in H as ([ecs1 u1] & Hcall & H).
    rewrite u16_id in H |- * by lia.
    set (h := createHandle i (generation d)) in *.
    destruct (IH (i + 1) ecs1 u1 ecs' u' (log0 ++ [(ecs, h)]))
      as (log & Hrun & Hall & Hsorted & Hsame); [lia|lia|done|].
    assert (Hidx : entityIndex h = i)
      by (unfold h; rewrite entityIndex_createHandle; apply u16_id; lia).
    exists ((ecs, h) :: log).
    split.
    { rewrite (logged_call it ecs h ud u log0), Hcall. simpl.
      by rewrite Hrun, <- app_assoc. }
    apply load_Done in Hload as [_ Hd].
    split; [|split].
    + constructor.
      * simpl. split; [|lia]. apply isEntityValid_Done. exists d.
        rewrite Hidx. split; [done|]. unfold h.
        rewrite entityGen_createHandle.
        rewrite u8_id by apply generation_range. by rewrite Z.eqb_refl.
      * eapply Forall_impl; [exact Hall|]. simpl. intros call [? ?].
        split; [done|lia].
    + simpl. constructor; [done|]. rewrite Hidx.
      apply Forall_map. eapply Forall_impl; [exact Hall|].
      simpl. intros call [_ ?]. lia.
    + intros Hro. assert (ecs1 = ecs) as -> by (by eapply Hro).
      constructor; [done|]. by apply Hsame.
Qed.

(** X18. Whatever the callback does, every handle [matchEntities] passes
    to it is one that [isEntityValid] accepts in the registry as it is at
    that call, and the slots are visited in strictly ascending order, so
    none twice.  If the callback leaves the registry unchanged, the handles
    are ones [isEntityValid] accepts at the start of the pass; a callback
    that changes the registry can be passed a handle that was not valid
    then.  The calls are observed by running the callback under a log,
    which does not change what the pass returns. *)
Theorem matchEntities_passes_valid_handles {U : Type}
    (it : ECSIterator U) (mask ud : Z) (ecs ecs' : ECS) (u u' : U) :
  matchEntities mask it ud ecs u = Done (ecs', u') →
  ∃ log,
    matchEntities mask (logged it) ud ecs (u, []) = Done (ecs', (u', log)) ∧
    Forall (λ call, isEntityValid call.1 call.2 = Done true) log ∧
    StronglySorted Z.lt (map (λ call, entityIndex call.2) log) ∧
    ((∀ s e d v s' v', it s e d v = Done (s', v') → s' = s) →
     Forall (λ call, isEntityValid ecs call.2 = Done true) log).
Proof.
  rewrite !matchEntities_unfold. intros H.
  destruct (matchEntities_from_logged it (cmask mask) ud
              (Z.to_nat ECS_MAX_ENTITIES) 0 ecs u ecs' u' []
              ltac:(lia) ltac:(unfold ECS_MAX_ENTITIES; lia) H)
    as (log & Hrun & Hall & Hsorted & Hsame).
  exists log. split; [exact Hrun|]. split; [|split; [done|]].
  - eapply Forall_impl; [exact Hall|]. by intros call [? _].
  - intros Hro. specialize (Hsame Hro).
    rewrite Forall_forall in Hall, Hsame. apply Forall_forall.
    intros call Hin. rewrite <- (Hsame call Hin). by apply Hall.
Qed.

Lemma matchEntities_passes_valid_handles_witness :
  isEntityValid twoSystemsECS 65537 = Done false ∧
  ∃ ecs' log,
    matchEntities 2 (logged respawnNext) 0 twoSystemsECS (tt, [])
    = Done (ecs', (tt, log)) ∧
    map snd log = [0; 65537] ∧
    Forall (λ call, isEntityValid call.1 call.2 = Done true) log.
Proof.
  split; [vm_compute; reflexivity|].
  assert (∃ ecs', matchEntities 2 respawnNext 0 twoSystemsECS tt
                  = Done (ecs', tt)) as (ecs' & Hpass)
    by (eexists; vm_compute; reflexivity).
  destruct (matchEntities_passes_valid_handles respawnNext 2 0
              twoSystemsECS ecs' tt tt Hpass)
    as (log & Hrun & Hvalid & _).
  exists ecs', log. split; [exact Hrun|]. split; [|exact Hvalid].
  assert (∃ r, matchEntities 2 (logged respawnNext) 0 twoSystemsECS (tt, [])
               = Done r ∧ map snd r.2.2 = [0; 65537])
    as (r & Hr & Hhandles)
    by (eexists; split; vm_compute; reflexivity).
  rewrite Hr in Hrun. injection Hrun as Hreq. rewrite Hreq in Hhandles.
  exact Hhandles.
Defined.






(** ** Masks built by [componentMask] *)

Lemma componentMask_from_bits (ids : list Z) :
  ∀ pre mask,
    Forall (λ id, cmask id < 31) ids →
    Z.of_nat (length pre + length ids) < 2 ^ 32 →
    ∃ m,
      componentMask_from (length ids) (Z.of_nat (length pre)) (pre ++ ids) mask
      = Done m ∧
      (ids ≠ [] → 0 ≤ m < 2 ^ ComponentMask_bits) ∧
      (ids = [] → m = mask) ∧
      ∀ X, 0 ≤ X < ComponentMask_bits →
           Z.testbit m X
           = Z.testbit mask X || existsb (λ id, cmask id =? X) ids.
Proof.
  induction ids as [|id ids IH]; intros pre mask Hok Hlen.
  - exists mask. simpl. repeat split; try done.
    intros X HX. by rewrite orb_false_r.
  - apply Forall_cons in Hok as [Hid Hok]. simpl in Hlen.
    destruct (IH (pre ++ [id]) (cmask (Z.lor mask (Z.shiftl 1 (cmask id)))))
      as (m & Hrun & Hrange & Hnil & Hbits); [done|rewrite length_app; simpl; lia|].
    exists m. simpl.
    rewrite (load_lookup _ _ id);
      [|lia|rewrite Nat2Z.id; by apply list_lookup_middle].
    simpl. destruct (Z.leb_spec 31 (cmask id)); [lia|].
    rewrite u32_id by lia.
    rewrite length_app in Hrun. simpl in Hrun.
    replace (Z.of_nat (length pre) + 1)
      with (Z.of_nat (length pre + 1)) by lia.
    rewrite <- app_assoc in Hrun. simpl in Hrun.
    split; [exact Hrun|]. split; [|split; [done|]].
    + intros _. destruct ids as [|id' ids'].
      * rewrite (Hnil eq_refl). apply cmask_range.
      * by apply Hrange.
    + intros X HX. rewrite Hbits by done.
      pose proof (cmask_range id) as Hc.
      rewrite testbit_cmask, Z.lor_spec, Z.shiftl_1_l by lia.
      destruct (Z.ltb_spec X ComponentMask_bits); [|lia]. simpl.
      rewrite Z.pow2_bits_eqb by lia.
      by rewrite orb_assoc.
Qed.

(** X20. Called with as many IDs as it is told to read, each of them (cut
    to [ComponentMask]) below 31, [componentMask] returns the mask in which
    exactly the bits of those IDs are set; an ID at or above the width of
    [ComponentMask] contributes no bit. *)
Theorem componentMask_sets_listed_bits (ids : list Z) :
  Forall (λ id, cmask id < 31) ids →
  Z.of_nat (length ids) < 2 ^ 32 →
  ∃ m,
    componentMask (Z.of_nat (length ids)) ids = Done m ∧
    0 ≤ m < 2 ^ ComponentMask_bits ∧
    ∀ X, 0 ≤ X < ComponentMask_bits →
         (Z.testbit m X = true ↔ ∃ id, id ∈ ids ∧ cmask id = X).
Proof.
  intros Hok Hlen.
  destruct (componentMask_from_bits ids [] 0 Hok) as (m & Hrun & Hrange & Hnil & Hbits);
    [simpl; lia|].
  exists m. unfold componentMask. rewrite u32_id, Nat2Z.id by lia.
  split; [exact Hrun|]. split.
  - destruct ids as [|id ids]; [|by apply Hrange].
    rewrite (Hnil eq_refl). by vm_compute.
  - intros X HX. rewrite Hbits, Z.bits_0 by done. simpl.
    rewrite existsb_exists. split.
    + intros (id & Hin & Heq). exists id.
      split; [by apply list_elem_of_In|by apply Z.eqb_eq].
    + intros (id & Hin & Heq). exists id.
      split; [by apply list_elem_of_In|by apply Z.eqb_eq].
Qed.

Lemma componentMask_sets_listed_bits_witness :
  ∃ m, componentMask 2 [0; 1] = Done m ∧
       (Z.testbit m 1 = true ↔ ∃ id, id ∈ [0; 1] ∧ cmask id = 1).
Proof.
  destruct (componentMask_sets_listed_bits [0; 1]) as (m & Hrun & _ & Hbits).
  - repeat constructor; by vm_compute.
  - simpl. lia.
  - exists m. split; [exact Hrun|]. apply Hbits. by vm_compute.
Defined.

Lemma componentMask_of_ids (ids : list Z) :
  Forall (λ id, 0 ≤ id < ECS_MAX_COMPS) ids →
  Z.of_nat (length ids) < 2 ^ 32 →
  ∃ m,
    componentMask (Z.of_nat (length ids)) ids = Done m ∧
    0 ≤ m < 2 ^ ComponentMask_bits ∧
    ∀ X, 0 ≤ X < ComponentMask_bits →
         Z.testbit m X = existsb (λ id, id =? X) ids.
Proof.
  intros Hids Hlen.
  assert (Hc : ∀ id, id ∈ ids → cmask id = id).
  { intros id Hin. rewrite Forall_forall in Hids. specialize (Hids id Hin).
    unfold ECS_MAX_COMPS in Hids. apply cmask_id.
    change ComponentMask_bits with 8. lia. }
  assert (Hok : Forall (λ id, cmask id < 31) ids).
  { apply Forall_forall. intros id Hin. rewrite (Hc id Hin).
    rewrite Forall_forall in Hids. specialize (Hids id Hin).
    unfold ECS_MAX_COMPS in Hids. lia. }
  destruct (componentMask_from_bits ids [] 0 Hok)
    as (m & Hrun & Hrange & Hnil & Hbits); [simpl; lia|].
  exists m. unfold componentMask. rewrite u32_id, Nat2Z.id by lia.
  split; [exact Hrun|]. split.
  - destruct ids as [|id ids]; [|by apply Hrange].
    rewrite (Hnil eq_refl). by vm_compute.
  - intros X HX. rewrite Hbits, Z.bits_0 by done. simpl.
    clear - Hc. induction ids as [|id ids IH]; [done|]. simpl.
    rewrite (Hc id) by apply list_elem_of_here.
    rewrite IH; [done|]. intros id' Hin. apply Hc. by apply list_elem_of_further.
Qed.

(** X21. An entity created with [newEntityWithArchetype] from the mask of a
    list of component IDs is passed to the callback by every
    [matchEntities] whose mask is built from IDs of that list. *)
Theorem archetype_entity_is_matched
    (ids sub : list Z) (ecs : ECS) (ud : Z) :
  Forall (λ id, 0 ≤ id < ECS_MAX_COMPS) ids →
  Z.of_nat (length ids) < 2 ^ 32 →
  Z.of_nat (length sub) < 2 ^ 32 →
  sub ⊆ ids →
  sized ecs →
  ∃ a q,
    componentMask (Z.of_nat (length ids)) ids = Done a ∧
    componentMask (Z.of_nat (length sub)) sub = Done q ∧
    ∀ e ecs',
      newEntityWithArchetype a ecs = Done (e, ecs') →
      ∃ calls,
        matchEntities q recordCall ud ecs' [] = Done (ecs', calls) ∧
        e ∈ calls.
Proof.
  intros Hids Hlen Hlen' Hsub Hsized.
  assert (Hids' : Forall (λ id, 0 ≤ id < ECS_MAX_COMPS) sub).
  { apply Forall_forall. intros id Hin. rewrite Forall_forall in Hids.
    apply Hids, Hsub, Hin. }
  destruct (componentMask_of_ids ids Hids Hlen) as (a & Ha & Har & Hab).
  destruct (componentMask_of_ids sub Hids' Hlen') as (q & Hq & Hqr & Hqb).
  exists a, q. split; [done|]. split; [done|].
  intros e ecs' Hnew.
  assert (Hsup : Z.land a q = q).
  { apply Z.bits_inj'; intros X HX. rewrite Z.land_spec.
    destruct (decide (X < ComponentMask_bits)) as [Hlt|Hge].
    - rewrite Hab, Hqb by lia.
      destruct (existsb (λ id, id =? X) sub) eqn:E; [|by rewrite andb_false_r].
      apply existsb_exists in E as (id & Hin & Heq).
      rewrite andb_true_r. apply existsb_exists. exists id. split; [|done].
      apply list_elem_of_In, Hsub, list_elem_of_In, Hin.
    - rewrite (testbit_high q X ComponentMask_bits), andb_false_r; [done|done|].
      change ComponentMask_bits with 8 in *. lia. }
  apply newEntityWithArchetype_inv in Hnew as (ecs1 & Hnew & ->).
  destruct Hsized as (Hfl & Hdat & Hrest).
  apply newEntity_inv in Hnew as (id & d & _ & Hid & _ & Hd & -> & ->).
  rewrite Hdat in Hid. unfold ECS_MAX_ENTITIES in Hid.
  assert (Hidx : entityIndex (createHandle id (generation d)) = id)
    by (rewrite entityIndex_createHandle; apply u16_id; lia).
  rewrite Hidx.
  set (ecs1 := set_entities _ ecs).
  assert (Hd1 : data (entities ecs1) !! Z.to_nat id
                = Some (createEntityData (generation d))).
  { simpl. apply list_lookup_insert_eq. by apply lookup_lt_Some in Hd. }
  set (ecs' := withComponents id (cmask a) ecs1).
  assert (Hd' : data (entities ecs') !! Z.to_nat id
                = Some (set_components (cmask a)
                          (createEntityData (generation d))))
    by (by apply lookup_withComponents).
  assert (Hlen1 : length (data (entities ecs')) = Z.to_nat ECS_MAX_ENTITIES).
  { unfold ecs', withComponents. rewrite Hd1. simpl.
    by rewrite !length_insert. }
  eexists. split; [by apply matchEntities_record|]. simpl.
  apply matchingHandles_elem. eexists (Z.to_nat id), _. split; [exact Hd'|].
  rewrite !cmask_id by done. simpl. repeat split.
  - rewrite Z2Nat.id, Z.add_0_l by lia. f_equal.
    change (generation (set_components a (createEntityData (generation d))))
      with (generation (createEntityData (generation d))).
    rewrite generation_createEntityData.
    symmetry. apply u8_id, generation_range.
  - rewrite (flags_of_generation_byte _); [done|].
    simpl. apply u8_range.
  - done.
Qed.

Lemma archetype_entity_is_matched_witness :
  ∃ e ecs' calls,
    newEntityWithArchetype 3 twoEntitiesECS = Done (e, ecs') ∧
    matchEntities 2 recordCall 0 ecs' [] = Done (ecs', calls) ∧
    e ∈ calls.
Proof.
  destruct (archetype_entity_is_matched [0; 1] [1] twoEntitiesECS 0)
    as (a & q & Ha & Hq & Hall).
  - repeat constructor; by vm_compute.
  - simpl. lia.
  - simpl. lia.
  - intros x Hx. apply list_elem_of_singleton in Hx as ->.
    apply list_elem_of_further, list_elem_of_here.
  - by repeat split.
  - assert (a = 3) as -> by (vm_compute in Ha; congruence).
    assert (q = 2) as -> by (vm_compute in Hq; congruence).
    assert (∃ e ecs', newEntityWithArchetype 3 twoEntitiesECS = Done (e, ecs'))
      as (e & ecs' & Hnew) by (eexists _, _; vm_compute; reflexivity).
    destruct (Hall e ecs' Hnew) as (calls & Hrun & Hin).
    exists e, ecs', calls. split; [exact Hnew|]. split; [exact Hrun|exact Hin].
Defined.

(** ** The system table *)

(** X22. [newSystem] appends: the new entry is placed after the registered
    ones with the next ID, the mask cut to [ComponentMask], the callback
    and the user pointer; the entries before it and everything outside the
    system table stay as they are.  It stops in an assertion when the table
    holds [ECS_MAX_SYSTEMS] systems or the callback is [NULL]. *)
Theorem newSystem_appends (ecs : ECS) (mask it ud : Z) :
  length (systems ecs) = Z.to_nat ECS_MAX_SYSTEMS →
  0 ≤ systemCount ecs ≤ ECS_MAX_SYSTEMS →
  (systemCount ecs < ECS_MAX_SYSTEMS → it ≠ 0 →
   ∃ ecs',
     newSystem mask it ud ecs = Done (0, ecs') ∧
     take (Z.to_nat (systemCount ecs')) (systems ecs')
     = take (Z.to_nat (systemCount ecs)) (systems ecs)
       ++ [mkSystem (nextSystemID ecs) (cmask mask) it ud] ∧
     systemCount ecs' = systemCount ecs + 1 ∧
     nextSystemID ecs' = u8 (nextSystemID ecs + 1) ∧
     entities ecs' = entities ecs ∧
     sameComponents ecs ecs') ∧
  (systemCount ecs = ECS_MAX_SYSTEMS ∨ it = 0 →
   newSystem mask it ud ecs = Abort).
Proof.
  unfold ECS_MAX_SYSTEMS. intros Hlen Hcount. split.
  - intros Hlt Hit.
    destruct (lookup_lt_is_Some_2 (systems ecs) (Z.to_nat (systemCount ecs)))
      as [s0 Hs0]; [lia|].
    assert (Hrun : newSystem mask it ud ecs
      = Done (0, mkECS (entities ecs) (compDataCount ecs) (compData ecs)
                   (u8 (nextSystemID ecs + 1)) (u8 (systemCount ecs + 1))
                   (<[Z.to_nat (systemCount ecs) :=
                        mkSystem (nextSystemID ecs) (cmask mask) it ud]>
                      (systems ecs)))).
    { unfold newSystem.
      destruct (Z.ltb_spec (systemCount ecs) ECS_MAX_SYSTEMS);
        [|unfold ECS_MAX_SYSTEMS in *; lia].
      simpl. destruct (Z.eqb_spec it 0); [done|]. simpl.
      by rewrite (store_lookup _ _ _ s0) by (done || lia). }
    eexists. split; [exact Hrun|]. simpl.
    rewrite (u8_id (systemCount ecs + 1)) by lia.
    repeat split; try done.
    replace (Z.to_nat (systemCount ecs + 1))
      with (S (Z.to_nat (systemCount ecs))) by lia.
    rewrite (take_S_r _ _ (mkSystem (nextSystemID ecs) (cmask mask) it ud))
      by (apply list_lookup_insert_eq; lia).
    by rewrite take_insert_ge by lia.
  - intros [Hfull| ->]; unfold newSystem.
    + rewrite Hfull. by change (32 <? ECS_MAX_SYSTEMS) with false.
    + destruct (systemCount ecs <? ECS_MAX_SYSTEMS); done.
Qed.

Lemma newSystem_appends_witness :
  ∃ ecs',
    newSystem 3 1 0 newECS = Done (0, ecs') ∧
    take (Z.to_nat (systemCount ecs')) (systems ecs')
    = [] ++ [mkSystem 0 (cmask 3) 1 0].
Proof.
  destruct (newSystem_appends newECS 3 1 0) as [Hok _].
  - reflexivity.
  - by vm_compute.
  - destruct Hok as (ecs' & Hnew & Htake & _); [by vm_compute|done|].
    exists ecs'. split; [exact Hnew|exact Htake].
Defined.

Lemma findSystem_from_none (ecs : ECS) (id : Z) (fuel : nat) :
  ∀ i, 0 ≤ i → i + Z.of_nat fuel ≤ 256 →
    (∀ j, i ≤ j < i + Z.of_nat fuel →
       ∃ s, systems ecs !! Z.to_nat j = Some s ∧ sys_id s ≠ id) →
    findSystem_from fuel i ecs id = Done None.
Proof.
  induction fuel as [|fuel IH]; intros i Hi Hle Hall; [done|].
  simpl. destruct (Hall i) as (s & Hs & Hne); [lia|].
  rewrite (load_lookup _ _ s) by done. simpl.
  destruct (Z.eqb_spec id (sys_id s)); [congruence|].
  destruct fuel as [|fuel']; [done|].
  rewrite u8_id by lia. apply IH; [lia|lia|].
  intros j Hj. apply Hall. lia.
Qed.

Lemma findSystem_from_first (ecs : ECS) (id : Z) (fuel : nat) :
  ∀ i k s, 0 ≤ i ≤ k → k < i + Z.of_nat fuel → k < 256 →
    (∀ j, i ≤ j < k →
       ∃ s', systems ecs !! Z.to_nat j = Some s' ∧ sys_id s' ≠ id) →
    systems ecs !! Z.to_nat k = Some s → sys_id s = id →
    findSystem_from fuel i ecs id = Done (Some k).
Proof.
  induction fuel as [|fuel IH]; intros i k s Hi Hk Hk' Hall Hs Hid; [lia|].
  simpl. destruct (decide (i = k)) as [->|Hne].
  - rewrite (load_lookup _ _ s) by (done || lia). simpl.
    by rewrite Hid, Z.eqb_refl.
  - destruct (Hall i) as (s' & Hs' & Hne'); [lia|].
    rewrite (load_lookup _ _ s') by (done || lia). simpl.
    destruct (Z.eqb_spec id (sys_id s')); [congruence|].
    rewrite u8_id by lia. apply (IH _ k s); try done; try lia.
    intros j Hj. apply Hall. lia.
Qed.

Lemma take_moved_up {T : Type} (A B R R' : list T) (x : T) :
  take (length A + length B)
       ((A ++ [x]) ++ take (length B) (x :: B ++ R) ++ R')
  = A ++ take (length B) (x :: x :: B).
Proof.
  rewrite <- (app_assoc A). rewrite take_app_add. f_equal.
  destruct B as [|b B]; [done|].
  set (L := x :: (b :: B) ++ R).
  change ([x] ++ take (length (b :: B)) L ++ R')
    with (x :: (take (length (b :: B)) L ++ R')).
  change (take (length (b :: B)) (x :: take (length (b :: B)) L ++ R'))
    with (x :: take (length B) (take (length (b :: B)) L ++ R')).
  change (take (length (b :: B)) (x :: x :: b :: B))
    with (x :: take (length B) (x :: b :: B)).
  f_equal.
  assert (HL : (S (length B) <= length L)%nat)
    by (unfold L; simpl; rewrite length_app; lia).
  assert (Hb : length (b :: B) = S (length B)) by done.
  rewrite take_app_le by (rewrite length_take, Hb; lia).
  rewrite take_take, Hb.
  replace (length B `min` S (length B))%nat with (length B) by lia.
  unfold L. change (x :: (b :: B) ++ R) with ((x :: b :: B) ++ R).
  apply take_app_le. simpl. lia.
Qed.

(** X23. What [destroySystem] does to the table when the first entry with
    the ID is [x], with the entries [A] before it and [B] after it: the
    registered entries become [A], followed by [x] twice and [B], cut to
    the length of [B].  So the entry is removed as intended exactly when it
    is the last one; otherwise it stays, each later position takes the
    entry before it, and the last entry is lost.  Nothing else changes. *)
Theorem destroySystem_moves_entries_up
    (ecs : ECS) (id : Z) (A B : list System) (x : System) :
  (Z.to_nat (systemCount ecs) ≤ length (systems ecs))%nat →
  0 ≤ systemCount ecs ≤ 255 →
  take (Z.to_nat (systemCount ecs)) (systems ecs) = A ++ x :: B →
  Forall (λ s, sys_id s ≠ u8 id) A →
  sys_id x = u8 id →
  ∃ ecs',
    destroySystem id ecs = Done (tt, ecs') ∧
    systemCount ecs' = systemCount ecs - 1 ∧
    take (Z.to_nat (systemCount ecs')) (systems ecs')
    = A ++ take (length B) (x :: x :: B) ∧
    nextSystemID ecs' = nextSystemID ecs ∧
    entities ecs' = entities ecs ∧
    sameComponents ecs ecs'.
Proof.
  intros Hlen Hcount Hlive HA Hx.
  set (R := drop (Z.to_nat (systemCount ecs)) (systems ecs)).
  assert (Hl : systems ecs = (A ++ x :: B) ++ R)
    by (rewrite <- Hlive; unfold R; by rewrite take_drop).
  assert (Hn : Z.to_nat (systemCount ecs) = (length A + S (length B))%nat).
  { apply (f_equal length) in Hlive.
    rewrite length_take, length_app in Hlive. simpl in Hlive. lia. }
  assert (Hfind : findSystem ecs (u8 id) = Done (Some (Z.of_nat (length A)))).
  { unfold findSystem.
    apply (findSystem_from_first _ _ _ _ _ x); try done; try lia.
    - intros j Hj. rewrite Forall_forall in HA.
      destruct (lookup_lt_is_Some_2 A (Z.to_nat j)) as [s Hs]; [lia|].
      exists s. split.
      + rewrite Hl, <- app_assoc. by rewrite lookup_app_l by lia.
      + apply HA. by eapply list_elem_of_lookup_2.
    - rewrite Nat2Z.id, Hl, <- app_assoc.
      change ((x :: B) ++ R) with (x :: B ++ R).
      by apply list_lookup_middle. }
  assert (Hmove :
    memmove (systems ecs) (Z.of_nat (length A) + 1) (Z.of_nat (length A))
            (systemCount ecs - (Z.of_nat (length A) + 1))
    = Done ((A ++ [x]) ++ take (length B) (x :: B ++ R) ++ R)).
  { unfold memmove.
    assert (Hlen' : length (systems ecs)
                    = (length A + S (length B) + length R)%nat).
    { rewrite Hl, !length_app. simpl. lia. }
    destruct (Z.leb_spec 0 (Z.of_nat (length A) + 1)); [|lia].
    destruct (Z.leb_spec 0 (Z.of_nat (length A))); [|lia].
    destruct (Z.leb_spec 0 (systemCount ecs - (Z.of_nat (length A) + 1)));
      [|lia].
    destruct (Z.leb_spec
                (Z.of_nat (length A) + 1
                 + (systemCount ecs - (Z.of_nat (length A) + 1)))
                (Z.of_nat (length (systems ecs)))); [|lia].
    destruct (Z.leb_spec
                (Z.of_nat (length A)
                 + (systemCount ecs - (Z.of_nat (length A) + 1)))
                (Z.of_nat (length (systems ecs)))); [|lia].
    simpl. f_equal.
    replace (Z.to_nat (Z.of_nat (length A) + 1))
      with (length (A ++ [x])) by (rewrite length_app; simpl; lia).
    replace (Z.to_nat (systemCount ecs - (Z.of_nat (length A) + 1)))
      with (length B) by lia.
    replace (Z.to_nat (Z.of_nat (length A) + 1
                       + (systemCount ecs - (Z.of_nat (length A) + 1))))
      with (Z.to_nat (systemCount ecs)) by lia.
    rewrite Nat2Z.id. fold R.
    rewrite Hl at 1 2.
    replace ((A ++ x :: B) ++ R) with ((A ++ [x]) ++ (B ++ R))
      by (by rewrite <- !app_assoc).
    rewrite take_app_length.
    replace ((A ++ [x]) ++ B ++ R) with (A ++ (x :: B ++ R))
      by (by rewrite <- !app_assoc).
    by rewrite drop_app_length. }
  eexists. split.
  { unfold destroySystem.
    destruct (Z.gtb_spec (systemCount ecs) 0) as [|]; [|lia]. simpl.
    rewrite Hfind. simpl. rewrite Hmove. simpl. reflexivity. }
  simpl. rewrite (u8_id (systemCount ecs - 1)) by lia.
  split; [done|]. split; [|done].
  replace (Z.to_nat (systemCount ecs - 1))
    with (length A + length B)%nat by lia.
  apply take_moved_up.
Qed.

Lemma destroySystem_moves_entries_up_witness :
  ∃ ecs3 ecs',
    threeSystems = Done ecs3 ∧
    destroySystem 1 ecs3 = Done (tt, ecs') ∧
    take (Z.to_nat (systemCount ecs')) (systems ecs')
    = [mkSystem 0 1 1 0]
      ++ take 1 [mkSystem 1 2 1 0; mkSystem 1 2 1 0; mkSystem 2 4 1 0].
Proof.
  assert (∃ ecs3, threeSystems = Done ecs3) as (ecs3 & H3)
    by (eexists; vm_compute; reflexivity).
  assert (Hs : systems ecs3 !! 0%nat = Some (mkSystem 0 1 1 0) ∧
               systemCount ecs3 = 3).
  { vm_compute in H3. injection H3 as <-. by vm_compute. }
  destruct (destroySystem_moves_entries_up ecs3 1
              [mkSystem 0 1 1 0] [mkSystem 2 4 1 0] (mkSystem 1 2 1 0))
    as (ecs' & Hd & _ & Hlive & _).
  - vm_compute in H3. injection H3 as <-. vm_compute. lia.
  - destruct Hs as [_ ->]. lia.
  - vm_compute in H3. injection H3 as <-. vm_compute. reflexivity.
  - repeat constructor. by vm_compute.
  - by vm_compute.
  - exists ecs3, ecs'. split; [exact H3|]. split; [exact Hd|exact Hlive].
Defined.

(** X24. [destroySystem] stops in its assertion on an empty table, and on a
    table that holds no entry with the ID it returns the registry
    unchanged. *)
Theorem destroySystem_absent_id (ecs : ECS) (id : Z) :
  (Z.to_nat (systemCount ecs) ≤ length (systems ecs))%nat →
  0 ≤ systemCount ecs ≤ 255 →
  Forall (λ s, sys_id s ≠ u8 id)
         (take (Z.to_nat (systemCount ecs)) (systems ecs)) →
  destroySystem id ecs
  = if systemCount ecs =? 0 then Abort else Done (tt, ecs).
Proof.
  intros Hlen Hcount Hall. unfold destroySystem.
  destruct (Z.eqb_spec (systemCount ecs) 0) as [Hz|Hnz].
  - rewrite Hz. done.
  - destruct (Z.gtb_spec (systemCount ecs) 0) as [|]; [|lia]. simpl.
    unfold findSystem. rewrite findSystem_from_none; [done|lia|lia|].
    intros j Hj.
    destruct (lookup_lt_is_Some_2 (systems ecs) (Z.to_nat j)) as [s Hs];
      [lia|].
    exists s. split; [done|]. rewrite Forall_forall in Hall. apply Hall.
    apply (list_elem_of_lookup_2 _ (Z.to_nat j)).
    rewrite lookup_take_lt by lia. done.
Qed.

Lemma destroySystem_absent_id_witness :
  destroySystem 4 newECS = Abort.
Proof.
  apply (destroySystem_absent_id newECS 4).
  - vm_compute. lia.
  - by vm_compute.
  - change (systemCount newECS) with 0. constructor.
Defined.
